(** * CyberSec task board: the task store of the [App] component, its
      validation, dates, statistics, persistence and export.

    Conventions of the embedding.
    - A JavaScript string is a [string]: a sequence of code units, here the
      code units 0..255.  [String.length] is the [.length] of the source.
    - [null] and [undefined] are [None]; a value that may be [null] is an
      [option].
    - React state is one record, [AppState]; a handler is a function from
      the state before the event to the state after it, and
      [setTasks(t => ...)] is [setTasks] applied to a function.
    - What the handlers read from the platform (the clock, a fresh
      identifier) is an argument of the handler; the time zone, the date
      format of the locale, the browser's store and the spreadsheet
      library are parameters. *)

From Stdlib Require Import ZArith String Ascii List Lia SpecFloat.
From stdpp Require Import base strings gmap list pretty.

Local Open Scope Z_scope.

(** ** Constants *)

Definition COLUMNS : list string :=
  ["Backlog"; "In Progress"; "Review/QA"; "Completed"].
Definition PRIORITIES : list string := ["Critical"; "High"; "Medium"; "Low"].
Definition CATEGORIES : list string :=
  ["Pen Testing"; "Client Work"; "Compliance"; "Internal";
   "Incident Response"; "Vulnerability Assessment"; "Other"].
Definition MAX_TITLE : nat := 100.
Definition MAX_NOTES : nat := 2000.

(** ** JavaScript primitives used by the source *)

Module JS.

(** [!s] for a string that may be [null]: [null] and the empty string
    are falsy, every other string is truthy. *)
Definition truthy (o : option string) : bool :=
  match o with
  | None => false
  | Some s => negb (String.eqb s "")
  end.

(** [a === b] on strings. *)
Definition seq (a b : string) : bool := String.eqb a b.

(** [a === b] where [b] may be [null]: [null] equals no string. *)
Definition seq_opt (a : string) (b : option string) : bool :=
  match b with
  | Some b => String.eqb a b
  | None => false
  end.

(** White space and line terminators among the code units 0..255:
    TAB, LF, VT, FF, CR, SP and NBSP. *)
Definition isWhiteSpace (c : ascii) : bool :=
  let n := N_of_ascii c in
  ((9 <=? n) && (n <=? 13) || (n =? 32) || (n =? 160))%N.

Fixpoint trimStart (s : string) : string :=
  match s with
  | EmptyString => EmptyString
  | String c s' => if isWhiteSpace c then trimStart s' else s
  end.

Definition reverse (s : string) : string :=
  string_of_list_ascii (rev (list_ascii_of_string s)).

Definition trimEnd (s : string) : string := reverse (trimStart (reverse s)).

(** [s.trim()] *)
Definition trim (s : string) : string := trimEnd (trimStart s).

(** [arr.indexOf(x)] as an integer, [-1] when absent. *)
Fixpoint indexOf_from (i : Z) (l : list string) (x : string) : Z :=
  match l with
  | [] => -1
  | y :: l' => if seq y x then i else indexOf_from (i + 1) l' x
  end.
Definition indexOf (l : list string) (x : string) : Z := indexOf_from 0 l x.

(** [arr[i]] for an integer [i]: [undefined] out of range. *)
Definition at_index {A} (l : list A) (i : Z) : option A :=
  if i <? 0 then None else l !! Z.to_nat i.

(** [arr.find(p)]: the first element that satisfies [p]. *)
Fixpoint find {A} (p : A -> bool) (l : list A) : option A :=
  match l with
  | [] => None
  | x :: l' => if p x then Some x else find p l'
  end.

(** [s.split(sep)] for a one-character separator: the pieces of [s]
    between the occurrences of [sep], at least one piece. *)
Fixpoint split (sep : ascii) (s : string) : list string :=
  match s with
  | EmptyString => [EmptyString]
  | String c s' =>
      if Ascii.eqb c sep then EmptyString :: split sep s'
      else
        match split sep s' with
        | piece :: pieces => String c piece :: pieces
        | [] => [String c EmptyString]
        end
  end.

End JS.

(** ** The task entity and the form draft *)

(** A task object; the fields come in the order in which [saveTask]
    writes them. *)
Record Task := mkTask {
  title : string;
  priority : string;
  category : string;
  due : string;
  notes : string;
  stage : string;
  id : string;
  createdAt : string;
  completedAt : option string
}.

(** The object held in [formData]: the six editable fields. *)
Module Form.
Record t := mk {
  title : string;
  priority : string;
  category : string;
  due : string;
  notes : string;
  stage : string
}.
End Form.

Definition DEFAULT_TASK : Form.t :=
  Form.mk "" "Medium" "Internal" "" "" "Backlog".

(** [{ ...x, ...formData }] *)
Definition spread_form (x : Task) (f : Form.t) : Task :=
  {| title := Form.title f; priority := Form.priority f;
     category := Form.category f; due := Form.due f;
     notes := Form.notes f; stage := Form.stage f;
     id := id x; createdAt := createdAt x; completedAt := completedAt x |}.

(** [{ ...formData, id, createdAt, completedAt:null }] *)
Definition new_task (f : Form.t) (newId : string) (now : string) : Task :=
  {| title := Form.title f; priority := Form.priority f;
     category := Form.category f; due := Form.due f;
     notes := Form.notes f; stage := Form.stage f;
     id := newId; createdAt := now; completedAt := None |}.

(** [{ ...x, stage:s, completedAt:c }] *)
Definition with_stage (x : Task) (s : string) (c : option string) : Task :=
  {| title := title x; priority := priority x; category := category x;
     due := due x; notes := notes x; stage := s;
     id := id x; createdAt := createdAt x; completedAt := c |}.

(** [{ ...x, notes:n }] *)
Definition with_notes (x : Task) (n : string) : Task :=
  {| title := title x; priority := priority x; category := category x;
     due := due x; notes := n; stage := stage x;
     id := id x; createdAt := createdAt x; completedAt := completedAt x |}.

(** ** The state of [App] *)

Record AppState := mkApp {
  tasks : list Task;
  loaded : bool;
  showForm : bool;
  formData : Form.t;
  formErrors : gmap string string;
  editId : option string;
  activeNote : option string;
  noteText : string;
  exportMenu : bool;
  search : string;
  dragging : option string;
  dragOver : option string;
  toast : option string
}.

Definition initial : AppState :=
  mkApp [] false false DEFAULT_TASK ∅ None None "" false "" None None None.

Definition setTasks (f : list Task -> list Task) (st : AppState) : AppState :=
  mkApp (f (tasks st)) (loaded st) (showForm st) (formData st) (formErrors st)
        (editId st) (activeNote st) (noteText st) (exportMenu st) (search st)
        (dragging st) (dragOver st) (toast st).
Definition setLoaded (b : bool) (st : AppState) : AppState :=
  mkApp (tasks st) b (showForm st) (formData st) (formErrors st)
        (editId st) (activeNote st) (noteText st) (exportMenu st) (search st)
        (dragging st) (dragOver st) (toast st).
Definition setShowForm (b : bool) (st : AppState) : AppState :=
  mkApp (tasks st) (loaded st) b (formData st) (formErrors st)
        (editId st) (activeNote st) (noteText st) (exportMenu st) (search st)
        (dragging st) (dragOver st) (toast st).
Definition setFormData (f : Form.t) (st : AppState) : AppState :=
  mkApp (tasks st) (loaded st) (showForm st) f (formErrors st)
        (editId st) (activeNote st) (noteText st) (exportMenu st) (search st)
        (dragging st) (dragOver st) (toast st).
Definition setFormErrors (e : gmap string string) (st : AppState) : AppState :=
  mkApp (tasks st) (loaded st) (showForm st) (formData st) e
        (editId st) (activeNote st) (noteText st) (exportMenu st) (search st)
        (dragging st) (dragOver st) (toast st).
Definition setEditId (e : option string) (st : AppState) : AppState :=
  mkApp (tasks st) (loaded st) (showForm st) (formData st) (formErrors st)
        e (activeNote st) (noteText st) (exportMenu st) (search st)
        (dragging st) (dragOver st) (toast st).
Definition setActiveNote (a : option string) (st : AppState) : AppState :=
  mkApp (tasks st) (loaded st) (showForm st) (formData st) (formErrors st)
        (editId st) a (noteText st) (exportMenu st) (search st)
        (dragging st) (dragOver st) (toast st).
Definition setNoteText (n : string) (st : AppState) : AppState :=
  mkApp (tasks st) (loaded st) (showForm st) (formData st) (formErrors st)
        (editId st) (activeNote st) n (exportMenu st) (search st)
        (dragging st) (dragOver st) (toast st).
Definition setExportMenu (b : bool) (st : AppState) : AppState :=
  mkApp (tasks st) (loaded st) (showForm st) (formData st) (formErrors st)
        (editId st) (activeNote st) (noteText st) b (search st)
        (dragging st) (dragOver st) (toast st).
Definition setDragging (d : option string) (st : AppState) : AppState :=
  mkApp (tasks st) (loaded st) (showForm st) (formData st) (formErrors st)
        (editId st) (activeNote st) (noteText st) (exportMenu st) (search st)
        d (dragOver st) (toast st).
Definition setDragOver (d : option string) (st : AppState) : AppState :=
  mkApp (tasks st) (loaded st) (showForm st) (formData st) (formErrors st)
        (editId st) (activeNote st) (noteText st) (exportMenu st) (search st)
        (dragging st) d (toast st).
Definition showToast (msg : string) (st : AppState) : AppState :=
  mkApp (tasks st) (loaded st) (showForm st) (formData st) (formErrors st)
        (editId st) (activeNote st) (noteText st) (exportMenu st) (search st)
        (dragging st) (dragOver st) (Some msg).

(** ** Form helpers *)

(** [validateForm(data)]: the three rules run in order on a fresh object,
    a later assignment to [errs.title] replaces an earlier one. *)
Definition validateForm (data : Form.t) : gmap string string :=
  let errs : gmap string string := ∅ in
  let errs :=
    if String.eqb (JS.trim (Form.title data)) ""
    then <["title" := "Title is required."]> errs else errs in
  let errs :=
    if (MAX_TITLE <? String.length (Form.title data))%nat
    then <["title" := "Max " +:+ pretty MAX_TITLE +:+ " characters."]> errs
    else errs in
  let errs :=
    if (MAX_NOTES <? String.length (Form.notes data))%nat
    then <["notes" := "Max " +:+ pretty MAX_NOTES +:+ " characters."]> errs
    else errs in
  errs.

Definition openForm (task : option Task) (st : AppState) : AppState :=
  let st := setFormData
    (match task with
     | Some task => Form.mk (title task) (priority task) (category task)
                            (due task) (notes task) (stage task)
     | None => DEFAULT_TASK
     end) st in
  let st := setEditId (match task with Some task => Some (id task) | None => None end) st in
  let st := setFormErrors ∅ st in
  setShowForm true st.

Definition closeForm (st : AppState) : AppState :=
  setFormErrors ∅ (setShowForm false st).

(** ** Identifiers *)

(** The digits of [toString(36)]. *)
Definition digit36 (d : N) : ascii :=
  if (d <? 10)%N then ascii_of_N (48 + d) else ascii_of_N (87 + d).

Fixpoint toString36_go (fuel : nat) (n : N) (acc : string) : string :=
  match fuel with
  | O => acc
  | S fuel =>
      if (n =? 0)%N then acc
      else toString36_go fuel (n / 36) (String (digit36 (n mod 36)) acc)
  end.

(** [n.toString(36)] for a non-negative integer. *)
Definition toString36 (n : N) : string :=
  if (n =? 0)%N then "0" else toString36_go (N.size_nat n) n "".

(** [genId()]: [now] is the value of [Date.now()] and [rnd] the digits of
    [Math.random().toString(36).slice(2)]. *)
Definition genId (now : N) (rnd : string) : string := toString36 now +:+ rnd.

(** ** Store mutations *)

(** [saveTask()]; [newId] is the value of [genId()] and [now] the value of
    [new Date().toISOString()], both read only on the create branch. *)
Definition saveTask (newId now : string) (st : AppState) : AppState :=
  let errs := validateForm (formData st) in
  if negb (Nat.eqb (size errs) 0) then setFormErrors errs st
  else
    let st :=
      if JS.truthy (editId st) then
        let st := setTasks
          (fun t => (fun x => if JS.seq_opt (id x) (editId st)
                              then spread_form x (formData st) else x) <$> t) st in
        showToast "✅ Task updated." st
      else
        let st := setTasks
          (fun t => t ++ [new_task (formData st) newId now]) st in
        showToast "✅ Task created." st in
    closeForm st.

Definition deleteTask (i : string) (st : AppState) : AppState :=
  showToast "🗑 Task deleted."
    (setTasks (fun t => List.filter (fun x => negb (JS.seq (id x) i)) t) st).

(** The function [moveTask] maps over the tasks. *)
Definition moveTask_one (i : string) (dir : Z) (now : string) (x : Task) : Task :=
  if negb (JS.seq (id x) i) then x
  else
    let next := JS.at_index COLUMNS (JS.indexOf COLUMNS (stage x) + dir) in
    if negb (JS.truthy next) then x
    else
      let next := default "" next in
      with_stage x next (if JS.seq next "Completed" then Some now else None).

Definition moveTask (i : string) (dir : Z) (now : string) (st : AppState) : AppState :=
  setTasks (fun t => moveTask_one i dir now <$> t) st.

Definition openNote (task : Task) (st : AppState) : AppState :=
  setNoteText (notes task) (setActiveNote (Some (id task)) st).

Definition saveNote (st : AppState) : AppState :=
  if (MAX_NOTES <? String.length (noteText st))%nat
  then showToast ("⚠ Notes exceed " +:+ pretty MAX_NOTES +:+ " chars.") st
  else
    let st' := setTasks
      (fun t => (fun x => if JS.seq_opt (id x) (activeNote st)
                          then with_notes x (noteText st) else x) <$> t) st in
    showToast "📝 Notes saved." (setActiveNote None st').

(** [onDrop(e, col)]: the drop of the dragged card on column [col]. *)
Definition onDrop (col : string) (now : string) (st : AppState) : AppState :=
  let st' :=
    if JS.truthy (dragging st) then
      match JS.find (fun x => JS.seq_opt (id x) (dragging st)) (tasks st) with
      | Some task =>
          if negb (JS.seq (stage task) col) then
            let st' := setTasks
              (fun t => (fun x =>
                 if JS.seq_opt (id x) (dragging st)
                 then with_stage x col
                        (if JS.seq col "Completed" then Some now else None)
                 else x) <$> t) st in
            showToast ("↔ Moved to " +:+ col) st'
          else st
      | None => st
      end
    else st in
  setDragOver None (setDragging None st').

Definition onDragStart (i : string) (st : AppState) : AppState :=
  setDragging (Some i) st.

(** ** The operations of the store, as the handlers realise them *)

(** [create(draft)]: the form holds [draft] and no task is being edited. *)
Definition create (draft : Form.t) (newId now : string) (st : AppState) : AppState :=
  saveTask newId now (setEditId None (setFormData draft st)).

(** [update(id, draft)]: the form holds [draft] while task [i] is edited. *)
Definition update (i : string) (draft : Form.t) (newId now : string)
    (st : AppState) : AppState :=
  saveTask newId now (setEditId (Some i) (setFormData draft st)).

(** [setStage(id, newStage)]: card [i] is dragged and dropped on [col]. *)
Definition setStage (i col : string) (now : string) (st : AppState) : AppState :=
  onDrop col now (onDragStart i st).

(** [setNotes(id, text)]: the notes dialog of task [i] holds [text]. *)
Definition setNotes (i text : string) (st : AppState) : AppState :=
  saveNote (setNoteText text (setActiveNote (Some i) st)).

(** ** Progress statistics *)

(** JavaScript numbers are IEEE 754 binary64 values. *)
Module Num.
Definition prec : Z := 53.
Definition emax : Z := 1024.
Definition t := spec_float.

(** The Number value of a mathematical integer. *)
Definition of_Z (z : Z) : t := binary_normalize prec emax z 0 false.
Definition div (a b : t) : t := SFdiv prec emax a b.
Definition mul (a b : t) : t := SFmul prec emax a b.

(** [Math.round(x)]: the integer closest to [x], a tie going up; NaN and
    the infinities are returned as they are. *)
Definition round (x : t) : t :=
  match x with
  | S754_finite s m e =>
      if 0 <=? e then x
      else
        let v := if s then Z.neg m else Z.pos m in
        (* floor (v * 2^e + 1/2) *)
        binary_normalize prec emax
          ((2 * v + 2 ^ (- e)) / 2 ^ (- e + 1)) 0 s
  | _ => x
  end.

Definition nan : t := S754_nan.
Definition sub (a b : t) : t := SFsub prec emax a b.

(** [ToIntegerOrInfinity(x)] for a finite [x]: the integer part, the
    fraction dropped; [None] for NaN and the infinities. *)
Definition to_integer (x : t) : option Z :=
  match x with
  | S754_zero _ => Some 0
  | S754_finite s m e =>
      let a := if 0 <=? e then Z.pos m * 2 ^ e else Z.pos m / 2 ^ (- e) in
      Some (if s then - a else a)
  | _ => None
  end.

(** The Number value of the decimal [m * 10^x], [m] a natural number:
    the binary64 value closest to it, a tie going to the even mantissa,
    with the sign [neg].  A quotient is rounded once, from the integer
    quotient and the place of the remainder.  The two tests on the size
    of [x] only spare the computation of a huge power: above [10^400]
    every value rounds to infinity, and a value below [10^-400] rounds to
    zero ([m] is below [2^(log2 m + 1)]). *)
Definition of_decimal (neg : bool) (m x : Z) : t :=
  if m <=? 0 then S754_zero neg
  else if 0 <=? x then
    if 400 <? x then S754_infinity neg
    else binary_round prec emax neg (Z.to_pos (m * 10 ^ x)) 0
  else
    if Z.log2 m + 1 + 400 <? - x then S754_zero neg
    else
      let '(q, e, l) := SFdiv_core_binary prec emax m 0 (10 ^ (- x)) 0 in
      binary_round_aux prec emax neg q e l.
End Num.

(** The memoised [pct]. *)
Definition pct (tasks : list Task) : Num.t :=
  let c := length (List.filter (fun x => JS.seq (stage x) "Completed") tasks) in
  if negb (Nat.eqb (length tasks) 0)
  then Num.round (Num.mul (Num.div (Num.of_Z (Z.of_nat c))
                                   (Num.of_Z (Z.of_nat (length tasks))))
                          (Num.of_Z 100))
  else Num.of_Z 0.

(** Rounding of the exact ratio [a / b] to the nearest integer, a tie
    going up: the [round] of the specification. *)
Definition round_ratio (a b : Z) : Z := (2 * a + b) / (2 * b).

(** ** Dates *)

(** The value of a decimal digit. *)
Definition digit (c : ascii) : option Z :=
  let n := N_of_ascii c in
  if ((48 <=? n) && (n <=? 57))%N then Some (Z.of_N n - 48) else None.

Fixpoint digits_value (acc : Z) (s : string) : option Z :=
  match s with
  | EmptyString => Some acc
  | String c s' =>
      match digit c with
      | Some d => digits_value (10 * acc + d) s'
      | None => None
      end
  end.

(** The longest run of decimal digits at the start of [s], and the rest
    of [s]. *)
Fixpoint span_digits (s : string) : string * string :=
  match s with
  | EmptyString => (EmptyString, EmptyString)
  | String c s' =>
      match digit c with
      | Some _ => let '(a, b) := span_digits s' in (String c a, b)
      | None => (EmptyString, s)
      end
  end.

(** The value of [c] as a digit of a radix up to 36. *)
Definition digit_of (radix : Z) (c : ascii) : option Z :=
  let n := Z.of_N (N_of_ascii c) in
  let v :=
    if (48 <=? n) && (n <=? 57) then n - 48
    else if (97 <=? n) && (n <=? 122) then n - 87
    else if (65 <=? n) && (n <=? 90) then n - 55
    else 36 in
  if v <? radix then Some v else None.

Fixpoint radix_value (radix acc : Z) (s : string) : option Z :=
  match s with
  | EmptyString => Some acc
  | String c s' =>
      match digit_of radix c with
      | Some d => radix_value radix (radix * acc + d) s'
      | None => None
      end
  end.

(** The radix a prefix character announces: [x], [o] or [b], in either
    case. *)
Definition radix_of (c : ascii) : option Z :=
  let n := N_of_ascii c in
  if ((n =? 120) || (n =? 88))%N then Some 16
  else if ((n =? 111) || (n =? 79))%N then Some 8
  else if ((n =? 98) || (n =? 66))%N then Some 2
  else None.

(** [SignedInteger] up to the end of the string: the exponent of a
    decimal literal. *)
Definition exponent_part (s : string) : option Z :=
  match s with
  | EmptyString => None
  | String c r =>
      if Ascii.eqb c "+" then
        match r with EmptyString => None | _ => digits_value 0 r end
      else if Ascii.eqb c "-" then
        match r with EmptyString => None | _ => Z.opp <$> digits_value 0 r end
      else digits_value 0 s
  end.

(** [StrUnsignedDecimalLiteral] up to the end of the string, with the
    sign that stood before it: [Infinity], or digits with an optional
    fraction and an optional exponent, at least one digit before or
    after the point; NaN for every other text. *)
Definition unsigned_decimal (neg : bool) (s : string) : Num.t :=
  if String.eqb s "Infinity" then S754_infinity neg
  else
    let '(ip, r1) := span_digits s in
    let '(fp, r2) :=
      match r1 with
      | String c r => if Ascii.eqb c "." then span_digits r else (EmptyString, r1)
      | EmptyString => (EmptyString, r1)
      end in
    if String.eqb ip "" && String.eqb fp "" then Num.nan
    else
      let ex :=
        match r2 with
        | EmptyString => Some 0
        | String c r =>
            if Ascii.eqb c "e" || Ascii.eqb c "E" then exponent_part r else None
        end in
      match ex, digits_value 0 (ip +:+ fp) with
      | Some ex, Some m => Num.of_decimal neg m (ex - Z.of_nat (String.length fp))
      | _, _ => Num.nan
      end.

(** [NonDecimalIntegerLiteral]: [0x], [0o] or [0b], in either case,
    before at least one digit of that radix and nothing else; NaN when
    the digits are missing or wrong.  [None]: the text has no such
    prefix. *)
Definition non_decimal (s : string) : option Num.t :=
  match s with
  | String c (String p digits) =>
      if Ascii.eqb c "0" then
        match radix_of p with
        | Some radix =>
            Some match digits with
                 | EmptyString => Num.nan
                 | _ => match radix_value radix 0 digits with
                        | Some v => Num.of_Z v
                        | None => Num.nan
                        end
                 end
        | None => None
        end
      else None
  | _ => None
  end.

(** [StrDecimalLiteral]: an optional sign before an unsigned decimal
    literal. *)
Definition str_decimal (s : string) : Num.t :=
  match s with
  | String c r =>
      if Ascii.eqb c "+" then unsigned_decimal false r
      else if Ascii.eqb c "-" then unsigned_decimal true r
      else unsigned_decimal false s
  | EmptyString => Num.nan
  end.

(** [Number(s)], the StringToNumber of ECMAScript, on the code units
    0..255: white space around the text is dropped; the empty text is 0;
    a text with a radix prefix is a hexadecimal, octal or binary integer
    without sign; any other text is a decimal literal with an optional
    sign; what is none of these is NaN. *)
Definition Number (s : string) : Num.t :=
  let s := JS.trim s in
  if String.eqb s "" then Num.of_Z 0
  else
    match non_decimal s with
    | Some v => v
    | None => str_decimal s
    end.

(** The time values of ECMAScript [Date] objects: milliseconds since the
    epoch, or NaN ([None]) for an invalid date. *)
Module JSDate.
Definition t := option Z.

Definition msPerDay : Z := 86400000.
Definition Day (tv : Z) : Z := tv / msPerDay.

Definition DayFromYear (y : Z) : Z :=
  365 * (y - 1970) + (y - 1969) / 4 - (y - 1901) / 100 + (y - 1601) / 400.

Definition InLeapYear (y : Z) : bool :=
  (y mod 4 =? 0) && (negb (y mod 100 =? 0) || (y mod 400 =? 0)).

(** Days of the year before the first of month [m] (0 = January). *)
Definition DaysBeforeMonth (leap : bool) (m : Z) : Z :=
  let l := if leap then 1 else 0 in
  match m with
  | 0 => 0 | 1 => 31 | 2 => 59 + l | 3 => 90 + l | 4 => 120 + l
  | 5 => 151 + l | 6 => 181 + l | 7 => 212 + l | 8 => 243 + l
  | 9 => 273 + l | 10 => 304 + l | _ => 334 + l
  end.

Definition MakeDay (year month date : Z) : Z :=
  let ym := year + month / 12 in
  let mn := month mod 12 in
  DayFromYear ym + DaysBeforeMonth (InLeapYear ym) mn + date - 1.

Definition MakeDate (day time : Z) : Z := day * msPerDay + time.

Definition TimeClip (tv : Z) : t :=
  if Z.abs tv <=? 8640000000000000 then Some tv else None.

(** [a < b] on dates: false as soon as one of them is invalid. *)
Definition lt (a b : t) : bool :=
  match a, b with
  | Some a, Some b => a <? b
  | _, _ => false
  end.

Section Zone.
(** The offset of local time from UTC, in milliseconds: [LocalTZA t true]
    at the instant [t], [LocalTZA t false] at the local time [t].  It
    changes with daylight saving and with the history of the zone. *)
Variable LocalTZA : Z -> bool -> Z.

Definition LocalTime (tv : Z) : Z := tv + LocalTZA tv true.
Definition UTC (tv : Z) : Z := tv - LocalTZA tv false.

(** The time value of 00:00 local time on day number [day]. *)
Definition localMidnight (day : Z) : Z := UTC (MakeDate day 0).

(** [new Date(y, m, d)], the arguments being Numbers: an invalid date
    when one of them is NaN or infinite; otherwise the fractions are
    dropped, a year from 0 to 99 is a year of the 1900s, and months and
    days beyond their range carry over. *)
Definition make (y m d : Num.t) : t :=
  match Num.to_integer y, Num.to_integer m, Num.to_integer d with
  | Some y, Some m, Some d =>
      let yr := if (0 <=? y) && (y <=? 99) then 1900 + y else y in
      TimeClip (localMidnight (MakeDay yr m d))
  | _, _, _ => None
  end.

(** [d.setHours(0, 0, 0, 0)] *)
Definition setHours0 (d : t) : t :=
  match d with
  | Some tv => TimeClip (localMidnight (Day (LocalTime tv)))
  | None => None
  end.
End Zone.
End JSDate.

Section Helpers.
(** The offset of the local time zone, and the date format of the locale
    ([toLocaleDateString] on a valid date). *)
Variable LocalTZA : Z -> bool -> Z.
Variable localeDate : Z -> string.

Definition toLocaleDateString (d : JSDate.t) : string :=
  match d with
  | Some tv => localeDate tv
  | None => "Invalid Date"
  end.

(** [parseLocalDate(str)]: [null] for a falsy [str], a Date otherwise.
    A piece that is missing is [undefined], which is NaN as a Number. *)
Definition parseLocalDate (str : option string) : option JSDate.t :=
  if negb (JS.truthy str) then None
  else
    let parts := Number <$> JS.split "-" (default "" str) in
    let y := default Num.nan (parts !! 0%nat) in
    let m := default Num.nan (parts !! 1%nat) in
    let d := default Num.nan (parts !! 2%nat) in
    Some (JSDate.make LocalTZA y (Num.sub m (Num.of_Z 1)) d).

Definition formatDate (str : option string) : string :=
  if negb (JS.truthy str) then ""
  else
    match parseLocalDate str with
    | Some d => toLocaleDateString d
    | None => ""
    end.

(** [isOverdue(due, stage)]; [now] is the time value of [new Date()]. *)
Definition isOverdue (now : Z) (due : string) (stage : string) : bool :=
  if negb (JS.truthy (Some due)) || JS.seq stage "Completed" then false
  else
    match parseLocalDate (Some due) with
    | None => false
    | Some dueDate =>
        let today := JSDate.setHours0 LocalTZA (Some now) in
        JSDate.lt dueDate today
    end.

(** ** Export *)

(** One row of the sheet: the columns in the order of the object
    literal, which is the order of the columns of the sheet. *)
Definition export_row (x : Task) : list (string * string) :=
  [ ("Task Name", title x); ("Category", category x);
    ("Priority", priority x); ("Stage", stage x);
    ("Due Date", formatDate (Some (due x)));
    ("Notes", if JS.truthy (Some (notes x)) then notes x else "");
    ("Created", formatDate (Some (createdAt x)));
    ("Completed", formatDate (completedAt x)) ].

(** What becomes of the rows in the rest of the [try] block: [true] when
    the sheet is built and the file is written, [false] when a call
    throws (the spreadsheet library, or the spread of a list of rows
    beyond what the engine accepts as arguments). *)
Variable writeSheet : list (list (string * string)) -> bool.

(** [exportToExcel(filter)]: the state after the call and the rows
    handed to the spreadsheet library, if any.  When a call throws, the
    [catch] branch shows the failure toast.  The menu is closed on every
    path. *)
Definition exportToExcel (filter : string) (st : AppState)
  : AppState * option (list (list (string * string))) :=
  let data :=
    if JS.seq filter "completed"
    then List.filter (fun x => JS.seq (stage x) "Completed") (tasks st)
    else tasks st in
  if Nat.eqb (length data) 0
  then (setExportMenu false (showToast "⚠ No tasks to export." st), None)
  else
    let rows := export_row <$> data in
    let st :=
      if writeSheet rows then showToast "⬇ Export successful!" st
      else showToast "⚠ Export failed. Please try again." st in
    (setExportMenu false st, Some rows).
End Helpers.

(** ** JSON

    The values [JSON.stringify] and [JSON.parse] exchange for a task
    collection: [null], booleans, strings, arrays and objects (an object
    is the list of its properties in insertion order).  Numbers do not
    occur in a task and are not part of this model. *)
Module JSON.

#[local] Unset Elimination Schemes.
Inductive value :=
| Null
| Bool (b : bool)
| Str (s : string)
| Arr (l : list value)
| Obj (l : list (string * value)).
#[local] Set Elimination Schemes.

Definition dquote : ascii := ascii_of_N 34.
Definition backslash : ascii := ascii_of_N 92.

(** *** Serialisation *)

Definition hex_digit (n : N) : ascii :=
  if (n <? 10)%N then ascii_of_N (48 + n) else ascii_of_N (87 + n).

(** QuoteJSONString, one code unit. *)
Definition quote_char (c : ascii) : string :=
  let n := N_of_ascii c in
  if (n =? 8)%N then String backslash "b"
  else if (n =? 9)%N then String backslash "t"
  else if (n =? 10)%N then String backslash "n"
  else if (n =? 12)%N then String backslash "f"
  else if (n =? 13)%N then String backslash "r"
  else if (n =? 34)%N then String backslash (String dquote EmptyString)
  else if (n =? 92)%N then String backslash (String backslash EmptyString)
  else if (n <? 32)%N then
    String backslash
      (String "u" (String "0" (String "0"
         (String (hex_digit (n / 16)) (String (hex_digit (n mod 16)) EmptyString)))))
  else String c EmptyString.

Fixpoint quote_body (s : string) : string :=
  match s with
  | EmptyString => EmptyString
  | String c s' => quote_char c +:+ quote_body s'
  end.

Definition quote (s : string) : string :=
  String dquote (quote_body s +:+ String dquote EmptyString).

Fixpoint join (l : list string) : string :=
  match l with
  | [] => EmptyString
  | [x] => x
  | x :: l' => x +:+ "," +:+ join l'
  end.

Fixpoint stringify (v : value) : string :=
  match v with
  | Null => "null"
  | Bool true => "true"
  | Bool false => "false"
  | Str s => quote s
  | Arr l => "[" +:+ join (List.map stringify l) +:+ "]"
  | Obj l =>
      "{" +:+ join (List.map (fun kv => quote (fst kv) +:+ ":" +:+ stringify (snd kv)) l)
          +:+ "}"
  end.

(** *** Parsing *)

Definition is_ws (c : ascii) : bool :=
  let n := N_of_ascii c in
  ((n =? 32) || (n =? 9) || (n =? 10) || (n =? 13))%N.

Fixpoint skip_ws (s : string) : string :=
  match s with
  | EmptyString => EmptyString
  | String c s' => if is_ws c then skip_ws s' else s
  end.

Definition hex_value (c : ascii) : option N :=
  let n := N_of_ascii c in
  if ((48 <=? n) && (n <=? 57))%N then Some (n - 48)%N
  else if ((97 <=? n) && (n <=? 102))%N then Some (n - 87)%N
  else if ((65 <=? n) && (n <=? 70))%N then Some (n - 55)%N
  else None.

Definition hex4 (a b c d : ascii) : option N :=
  match hex_value a, hex_value b, hex_value c, hex_value d with
  | Some a, Some b, Some c, Some d => Some (((a * 16 + b) * 16 + c) * 16 + d)%N
  | _, _, _, _ => None
  end.

(** The character an escape letter stands for. *)
Definition unescape (e : ascii) : option ascii :=
  let n := N_of_ascii e in
  if (n =? 34)%N then Some dquote
  else if (n =? 92)%N then Some backslash
  else if (n =? 47)%N then Some "/"%char
  else if (n =? 98)%N then Some (ascii_of_N 8)
  else if (n =? 102)%N then Some (ascii_of_N 12)
  else if (n =? 110)%N then Some (ascii_of_N 10)
  else if (n =? 114)%N then Some (ascii_of_N 13)
  else if (n =? 116)%N then Some (ascii_of_N 9)
  else None.

Definition cons_fst (c : ascii) (r : option (string * string))
  : option (string * string) :=
  match r with
  | Some (s, rest) => Some (String c s, rest)
  | None => None
  end.

(** The characters of a string literal after its opening quote, up to
    and including the closing quote.  An escape [\uXXXX] above 255
    leaves the code units of this model. *)
Fixpoint parse_chars (s : string) : option (string * string) :=
  match s with
  | EmptyString => None
  | String c s1 =>
      if Ascii.eqb c dquote then Some (EmptyString, s1)
      else if Ascii.eqb c backslash then
        match s1 with
        | EmptyString => None
        | String e s2 =>
            match unescape e with
            | Some c' => cons_fst c' (parse_chars s2)
            | None =>
                if Ascii.eqb e "u" then
                  match s2 with
                  | String h1 (String h2 (String h3 (String h4 s6))) =>
                      match hex4 h1 h2 h3 h4 with
                      | Some n =>
                          if (n <? 256)%N
                          then cons_fst (ascii_of_N n) (parse_chars s6)
                          else None
                      | None => None
                      end
                  | _ => None
                  end
                else None
            end
        end
      else if (N_of_ascii c <? 32)%N then None
      else cons_fst c (parse_chars s1)
  end.

(** [expect p s]: [s] without its prefix [p]. *)
Fixpoint expect (p s : string) : option string :=
  match p, s with
  | EmptyString, _ => Some s
  | String a p', String b s' => if Ascii.eqb a b then expect p' s' else None
  | String _ _, EmptyString => None
  end.

Fixpoint parse_value (fuel : nat) (s : string) : option (value * string) :=
  match fuel with
  | O => None
  | S fuel =>
      match skip_ws s with
      | EmptyString => None
      | String c s1 =>
          if Ascii.eqb c "n" then
            rest ← expect "ull" s1; Some (Null, rest)
          else if Ascii.eqb c "t" then
            rest ← expect "rue" s1; Some (Bool true, rest)
          else if Ascii.eqb c "f" then
            rest ← expect "alse" s1; Some (Bool false, rest)
          else if Ascii.eqb c dquote then
            '(str, rest) ← parse_chars s1; Some (Str str, rest)
          else if Ascii.eqb c "[" then
            match skip_ws s1 with
            | String "]" rest => Some (Arr [], rest)
            | s2 => '(l, rest) ← parse_elements fuel s2; Some (Arr l, rest)
            end
          else if Ascii.eqb c "{" then
            match skip_ws s1 with
            | String "}" rest => Some (Obj [], rest)
            | s2 => '(l, rest) ← parse_members fuel s2; Some (Obj l, rest)
            end
          else None
      end
  end
with parse_elements (fuel : nat) (s : string) : option (list value * string) :=
  match fuel with
  | O => None
  | S fuel =>
      '(v, r) ← parse_value fuel s;
      match skip_ws r with
      | String "," r' => '(l, rest) ← parse_elements fuel r'; Some (v :: l, rest)
      | String "]" rest => Some ([v], rest)
      | _ => None
      end
  end
with parse_members (fuel : nat) (s : string)
  : option (list (string * value) * string) :=
  match fuel with
  | O => None
  | S fuel =>
      match skip_ws s with
      | String c s1 =>
          if Ascii.eqb c dquote then
            '(k, r) ← parse_chars s1;
            match skip_ws r with
            | String ":" r1 =>
                '(v, r2) ← parse_value fuel r1;
                match skip_ws r2 with
                | String "," r3 =>
                    '(l, rest) ← parse_members fuel r3; Some ((k, v) :: l, rest)
                | String "}" rest => Some ([(k, v)], rest)
                | _ => None
                end
            | _ => None
            end
          else None
      | EmptyString => None
      end
  end.

(** [JSON.parse(s)] on the texts of this model: [None] when it throws,
    and also on a text that holds a number or an escape above 00ff,
    which this model does not read. *)
Definition parse (s : string) : option value :=
  '(v, rest) ← parse_value (S (String.length s)) s;
  match skip_ws rest with
  | EmptyString => Some v
  | String _ _ => None
  end.


(** *** Measures used by the round trip *)

(** The fuel a value needs: one unit per value and per member. *)
Fixpoint size (v : value) : nat :=
  match v with
  | Arr l => S (list_sum (List.map (fun v => S (size v)) l))
  | Obj l => S (list_sum (List.map (fun kv => S (size (snd kv))) l))
  | _ => 1
  end.

(** The characters a serialised value can start with. *)
Definition heads : list ascii := ["n"; "t"; "f"; dquote; "["; "{"]%char.

(** One member of an object, as [stringify] writes it. *)
Definition member (kv : string * value) : string :=
  quote (fst kv) +:+ ":" +:+ stringify (snd kv).

End JSON.

(** ** Persistence *)

(** The value [JSON.stringify] sees in a task object. *)
Definition json_of_task (x : Task) : JSON.value :=
  JSON.Obj
    [ ("title", JSON.Str (title x)); ("priority", JSON.Str (priority x));
      ("category", JSON.Str (category x)); ("due", JSON.Str (due x));
      ("notes", JSON.Str (notes x)); ("stage", JSON.Str (stage x));
      ("id", JSON.Str (id x)); ("createdAt", JSON.Str (createdAt x));
      ("completedAt",
        match completedAt x with
        | Some s => JSON.Str s
        | None => JSON.Null
        end) ].

Definition json_of_tasks (t : list Task) : JSON.value :=
  JSON.Arr (json_of_task <$> t).

Definition task_keys : list string :=
  ["title"; "priority"; "category"; "due"; "notes"; "stage"; "id";
   "createdAt"; "completedAt"].

Fixpoint same_keys (a b : list string) : bool :=
  match a, b with
  | [], [] => true
  | x :: a', y :: b' => String.eqb x y && same_keys a' b'
  | _, _ => false
  end.

(** The parsed values that are task objects: the nine properties, in the
    order in which the program writes them. *)
Definition task_of_json (v : JSON.value) : option Task :=
  match v with
  | JSON.Obj [ (k1, JSON.Str a); (k2, JSON.Str b); (k3, JSON.Str c);
               (k4, JSON.Str d); (k5, JSON.Str e); (k6, JSON.Str f);
               (k7, JSON.Str g); (k8, JSON.Str h); (k9, ca) ] =>
      if same_keys [k1; k2; k3; k4; k5; k6; k7; k8; k9] task_keys then
        match ca with
        | JSON.Null => Some (mkTask a b c d e f g h None)
        | JSON.Str s => Some (mkTask a b c d e f g h (Some s))
        | _ => None
        end
      else None
  | _ => None
  end.

Definition tasks_of_json (v : JSON.value) : option (list Task) :=
  match v with
  | JSON.Arr l => mapM task_of_json l
  | _ => None
  end.

(** [localStorage]: the stored items, and how long a value the browser
    accepts; [setItem] throws ([None]) beyond that. *)
Record Storage := mkStorage {
  items : gmap string string;
  quota : N
}.

Definition getItem (k : string) (ls : Storage) : option string := items ls !! k.

Definition setItem (k v : string) (ls : Storage) : option Storage :=
  if (N.of_nat (String.length v) <=? quota ls)%N
  then Some (mkStorage (<[k := v]> (items ls)) (quota ls))
  else None.

(** A stored text that is blank or starts with a character no JSON value
    starts with: [JSON.parse] throws on it, whatever follows. *)
Definition not_json_start (s : string) : bool :=
  match JSON.skip_ws s with
  | EmptyString => true
  | String c _ =>
      let n := N_of_ascii c in
      negb ((n =? 110) || (n =? 116) || (n =? 102) || (n =? 34)
            || (n =? 91) || (n =? 123) || (n =? 45)
            || (48 <=? n) && (n <=? 57))%N
  end.

(** The effect that loads from [localStorage] once on mount.  [None]: the
    state leaves this model, because the stored text parses to a value
    that is not an array of task objects, or because the text is not in
    the part of JSON modelled here (it may hold a number or an escape
    above 00ff, which [JSON.parse] reads) and is not refused at its
    first character either. *)
Definition load_effect (ls : Storage) (st : AppState) : option AppState :=
  let s := getItem "cybertasks" ls in
  if JS.truthy s then
    match JSON.parse (default "" s) with
    | Some v =>
        t ← tasks_of_json v; Some (setLoaded true (setTasks (fun _ => t) st))
    | None =>
        if not_json_start (default "" s)
        then Some (setLoaded true (showToast "⚠ Could not load saved tasks." st))
        else None
    end
  else Some (setLoaded true st).

(** The effect that persists to [localStorage] on every change of
    [tasks]. *)
Definition persist_effect (st : AppState) (ls : Storage) : AppState * Storage :=
  if negb (loaded st) then (st, ls)
  else
    match setItem "cybertasks" (JSON.stringify (json_of_tasks (tasks st))) ls with
    | Some ls' => (st, ls')
    | None => (showToast "⚠ Could not save. Storage may be full." st, ls)
    end.

(** [save(C)] and [load()] of the persistence adapter: the persist effect
    of a loaded application that holds [C], and the load effect of a
    freshly mounted one. *)
Definition save (C : list Task) (ls : Storage) : Storage :=
  snd (persist_effect (setLoaded true (setTasks (fun _ => C) initial)) ls).

Definition load (ls : Storage) : option (list Task) :=
  tasks <$> load_effect ls initial.

(** ** Sequences of store operations *)

Inductive Op :=
| OpCreate (draft : Form.t) (newId now : string)
| OpUpdate (i : string) (draft : Form.t) (newId now : string)
| OpMoveStage (i : string) (dir : Z) (now : string)
| OpSetStage (i col now : string)
| OpSetNotes (i text : string)
| OpDelete (i : string).

Definition apply_op (op : Op) (st : AppState) : AppState :=
  match op with
  | OpCreate draft newId now => create draft newId now st
  | OpUpdate i draft newId now => update i draft newId now st
  | OpMoveStage i dir now => moveTask i dir now st
  | OpSetStage i col now => setStage i col now st
  | OpSetNotes i text => setNotes i text st
  | OpDelete i => deleteTask i st
  end.

(** [completedAt] is present exactly on the completed tasks. *)
Definition completed_inv (t : list Task) : Prop :=
  ∀ x, x ∈ t → (is_Some (completedAt x) ↔ stage x = "Completed").

(** The operations that keep the stage and the completion stamp in step:
    a creation in a stage other than Completed, and an edit that leaves
    the task on its side of Completed; the other four always do. *)
Definition keeps_stamp (op : Op) (t : list Task) : Prop :=
  match op with
  | OpCreate draft _ _ => Form.stage draft ≠ "Completed"
  | OpUpdate i draft _ _ =>
      i ≠ "" ∧
      ∀ x, x ∈ t → id x = i →
        (Form.stage draft = "Completed" ↔ stage x = "Completed")
  | _ => True
  end.

(** [runs st ops st']: the operations [ops], each one keeping the stamp in
    the state it meets, lead from [st] to [st']. *)
Inductive runs : AppState → list Op → AppState → Prop :=
| runs_nil st : runs st [] st
| runs_cons st op ops st' :
    keeps_stamp op (tasks st) →
    runs (apply_op op st) ops st' →
    runs st (op :: ops) st'.

(** ** Text search *)

Module Text.

(** [c.toLowerCase()] on the code units 0..255: the letters A-Z and the
    capital letters of Latin-1 (0xC0..0xDE without the sign 0xD7) move up
    by 32, every other unit stays. *)
Definition lower_char (c : ascii) : ascii :=
  let n := N_of_ascii c in
  if ((65 <=? n) && (n <=? 90)
      || (192 <=? n) && (n <=? 222) && negb (n =? 215))%N
  then ascii_of_N (n + 32) else c.

(** [s.toLowerCase()] *)
Fixpoint toLowerCase (s : string) : string :=
  match s with
  | EmptyString => EmptyString
  | String c s' => String (lower_char c) (toLowerCase s')
  end.

(** [s.startsWith(q)] *)
Fixpoint startsWith (s q : string) : bool :=
  match q, s with
  | EmptyString, _ => true
  | String a q', String b s' => Ascii.eqb a b && startsWith s' q'
  | String _ _, EmptyString => false
  end.

(** [s.includes(q)]: [q] occurs in [s] at some position. *)
Fixpoint includes (s q : string) : bool :=
  startsWith s q
  || match s with
     | EmptyString => false
     | String _ s' => includes s' q
     end.

End Text.

(** ** Derived views *)

(** The memoised [filtered]: the tasks whose title or category contains
    the search text, letter case apart. *)
Definition filtered (tasks : list Task) (search : string) : list Task :=
  List.filter
    (fun x =>
       Text.includes (Text.toLowerCase (title x)) (Text.toLowerCase search)
       || Text.includes (Text.toLowerCase (category x)) (Text.toLowerCase search))
    tasks.

(** The count the statistics bar shows for a column:
    [tasks.filter(x => x.stage === col).length]. *)
Definition stageCount (tasks : list Task) (col : string) : nat :=
  length (List.filter (fun x => JS.seq (stage x) col) tasks).

(** The cards of a column of the board:
    [filtered.filter(x => x.stage === col)]. *)
Definition colTasks (tasks : list Task) (search col : string) : list Task :=
  List.filter (fun x => JS.seq (stage x) col) (filtered tasks search).

(** ** Render guards of a card *)

(** [colIdx = COLUMNS.indexOf(task.stage)] *)
Definition colIdx (task : Task) : Z := JS.indexOf COLUMNS (stage task).

(** The Back button is rendered when [colIdx > 0]. *)
Definition showBack (task : Task) : bool := 0 <? colIdx task.

(** The forward button is rendered when [colIdx < COLUMNS.length - 1]. *)
Definition showForward (task : Task) : bool :=
  colIdx task <? Z.of_nat (length COLUMNS) - 1.

(** ** Column widths of the exported sheet *)

(** [r[k]] on a row object. *)
Fixpoint row_get (k : string) (r : list (string * string)) : option string :=
  match r with
  | [] => None
  | (k', v) :: r' => if String.eqb k' k then Some v else row_get k r'
  end.

(** [Math.max(a, ...l)] on lengths. *)
Definition max_of (a : nat) (l : list nat) : nat := fold_right Nat.max a l.

(** The width of the column of key [k]:
    [Math.max(k.length, ...rows.map(r => String(r[k] || '').length)) + 2];
    [String(r[k] || '')] is the cell, or the empty string when the row
    has none. *)
Definition col_width (rows : list (list (string * string))) (k : string) : nat :=
  (max_of (String.length k)
     ((fun r => String.length
                  (if JS.truthy (row_get k r) then default "" (row_get k r) else ""))
      <$> rows) + 2)%nat.

(** [ws['!cols']]: one width for every key of the first row.  Without a
    first row [Object.keys(rows[0])] throws ([None]). *)
Definition export_cols (rows : list (list (string * string))) : option (list nat) :=
  match rows with
  | [] => None
  | r0 :: _ => Some (col_width rows <$> r0.*1)
  end.

(** ** Invariants of the collection and sequences of operations *)

(** No two tasks share an identifier. *)
Definition ids_unique (t : list Task) : Prop := NoDup (id <$> t).

(** Every stage is a column of the board. *)
Definition stages_valid (t : list Task) : Prop := ∀ x, x ∈ t → stage x ∈ COLUMNS.

(** Every stored title and every stored note is within the bounds the
    form enforces. *)
Definition within_bounds (t : list Task) : Prop :=
  ∀ x, x ∈ t →
    JS.trim (title x) ≠ "" ∧
    (String.length (title x) ≤ MAX_TITLE)%nat ∧
    (String.length (notes x) ≤ MAX_NOTES)%nat.

(** An operation that brings no identifier twice: a creation with an
    identifier no task has yet, an edit of a non-empty identifier; any
    other operation. *)
Definition brings_fresh_id (op : Op) (t : list Task) : Prop :=
  match op with
  | OpCreate _ newId _ => newId ∉ id <$> t
  | OpUpdate i _ _ _ => i ≠ ""
  | _ => True
  end.

(** An operation whose stage, if it carries one, is a column of the
    board, as the stage selector and the drop targets offer them. *)
Definition names_column (op : Op) (t : list Task) : Prop :=
  match op with
  | OpCreate draft _ _ => Form.stage draft ∈ COLUMNS
  | OpUpdate _ draft _ _ => Form.stage draft ∈ COLUMNS
  | OpSetStage _ col _ => col ∈ COLUMNS
  | _ => True
  end.

(** An operation that keeps the tasks in place: neither a creation nor a
    deletion, and an edit only of a non-empty identifier. *)
Definition in_place (op : Op) : Prop :=
  match op with
  | OpCreate _ _ _ => False
  | OpDelete _ => False
  | OpUpdate i _ _ _ => i ≠ ""
  | _ => True
  end.

(** [runs_with ok st ops st']: the operations [ops], each one satisfying
    [ok] in the collection it meets, lead from [st] to [st']. *)
Inductive runs_with (ok : Op → list Task → Prop)
  : AppState → list Op → AppState → Prop :=
| runs_with_nil st : runs_with ok st [] st
| runs_with_cons st op ops st' :
    ok op (tasks st) →
    runs_with ok (apply_op op st) ops st' →
    runs_with ok st (op :: ops) st'.

(** The form fields of a task, as [openForm(task)] copies them. *)
Definition form_of (task : Task) : Form.t :=
  Form.mk (title task) (priority task) (category task)
          (due task) (notes task) (stage task).

(** The collection an operation leaves, as a function of the collection
    it meets. *)
Definition tasks_after (op : Op) (t : list Task) : list Task :=
  match op with
  | OpCreate draft newId now =>
      if Nat.eqb (size (validateForm draft)) 0
      then t ++ [new_task draft newId now] else t
  | OpUpdate i draft newId now =>
      if Nat.eqb (size (validateForm draft)) 0 then
        if String.eqb i "" then t ++ [new_task draft newId now]
        else (fun x => if JS.seq (id x) i then spread_form x draft else x) <$> t
      else t
  | OpMoveStage i dir now => moveTask_one i dir now <$> t
  | OpSetStage i col now =>
      if String.eqb i "" then t
      else
        match JS.find (fun x => JS.seq (id x) i) t with
        | Some task =>
            if JS.seq (stage task) col then t
            else (fun x =>
                    if JS.seq (id x) i
                    then with_stage x col
                           (if JS.seq col "Completed" then Some now else None)
                    else x) <$> t
        | None => t
        end
  | OpSetNotes i text =>
      if (MAX_NOTES <? String.length text)%nat then t
      else (fun x => if JS.seq (id x) i then with_notes x text else x) <$> t
  | OpDelete i => List.filter (fun x => negb (JS.seq (id x) i)) t
  end.

(** ** Sample data and auxiliary definitions *)

Definition sample_task (i stage : string) (c : option string) : Task :=
  mkTask "Scan perimeter" "High" "Pen Testing" "2020-01-01" "" stage i
         "2026-10-30T08:15:00.000Z" c.

Definition sample_state : AppState :=
  setLoaded true (setTasks (fun _ =>
    [ sample_task "a1" "Backlog" None;
      sample_task "b2" "Review/QA" None;
      sample_task "c3" "Completed" (Some "2026-10-31T17:00:00.000Z") ]) initial).

Definition sample_draft : Form.t :=
  Form.mk "Scan DMZ" "Critical" "Client Work" "2026-12-01" "scope agreed" "In Progress".

Definition sample_storage : Storage := mkStorage ∅ 5000000.

(** Forty tasks with identifiers t0 .. t39, the first 23 completed. *)
Definition forty_tasks : list Task :=
  (fun k : nat =>
     sample_task ("t" +:+ pretty k)
       (if (k <? 23)%nat then "Completed" else "Backlog")
       (if (k <? 23)%nat then Some "2026-10-31T17:00:00.000Z" else None))
  <$> List.seq 0 40.

(** The number of completed tasks. *)
Definition count_completed (t : list Task) : nat :=
  length (List.filter (fun x => JS.seq (stage x) "Completed") t).

(** A board of [n] tasks, the first [c] of them completed. *)
Definition board (c n : nat) : list Task :=
  repeat (sample_task "t" "Completed" (Some "2026-10-31T17:00:00.000Z")) c
  ++ repeat (sample_task "t" "Backlog" None) (n - c).

(** Equality of binary64 values, bit for bit. *)
Definition sf_eqb (a b : spec_float) : bool :=
  match a, b with
  | S754_zero s, S754_zero s' => Bool.eqb s s'
  | S754_infinity s, S754_infinity s' => Bool.eqb s s'
  | S754_nan, S754_nan => true
  | S754_finite s m e, S754_finite s' m' e' =>
      Bool.eqb s s' && Pos.eqb m m' && Z.eqb e e'
  | _, _ => false
  end.

(** [pct] against the rounded exact ratio on every board of fewer than 40
    tasks. *)
Definition small_boards_agree : bool :=
  forallb (fun n =>
    forallb (fun c =>
      sf_eqb (pct (board c n))
             (Num.of_Z (round_ratio (100 * Z.of_nat c) (Z.of_nat n))))
      (List.seq 0 (S n)))
    (List.seq 0 40).

(** A task whose completion stamp agrees with its stage. *)
Definition stamped (x : Task) : Prop :=
  is_Some (completedAt x) ↔ stage x = "Completed".

(** Strings of decimal digits. *)
Fixpoint is_digits (s : string) : bool :=
  match s with
  | EmptyString => true
  | String c s' =>
      match digit c with Some _ => true | None => false end && is_digits s'
  end.


(** Zones the date functions are proved about.  A zone keeps its days
    in order when the instants before the local midnight of a day are
    exactly those whose local calendar day comes before that day; its
    offsets are within a day when none exceeds 24 hours either way. *)
Definition days_in_order (tz : Z → bool → Z) : Prop :=
  ∀ d u, u < JSDate.localMidnight tz d ↔ JSDate.Day (JSDate.LocalTime tz u) < d.

Definition offsets_within_a_day (tz : Z → bool → Z) : Prop :=
  ∀ t b, - 86400000 ≤ tz t b ≤ 86400000.

(** Central European time in 2026: one hour east of Greenwich, two
    hours from 29 March, 01:00 UTC, to 25 October, 01:00 UTC.  A local
    time that the clocks skip or show twice has the offset in force
    before the change. *)
Definition sample_zone (t : Z) (isUTC : bool) : Z :=
  if isUTC then
    if t <? 1774746000000 then 3600000
    else if t <? 1792890000000 then 7200000
    else 3600000
  else
    if t <? 1774753200000 then 3600000
    else if t <? 1792897200000 then 7200000
    else 3600000.

(** The text of the first sample task as another writer could have
    stored it: white space between the tokens, and an escape for the
    blank in the title. *)
Definition spaced_text : string :=
  " [ { " +:+ JSON.quote "title" +:+ " : "
    +:+ String JSON.dquote ("Scan\u0020perimeter" +:+ String JSON.dquote " , ")
    +:+ JSON.quote "priority" +:+ " : " +:+ JSON.quote "High" +:+ " , "
    +:+ JSON.quote "category" +:+ " : " +:+ JSON.quote "Pen Testing" +:+ " , "
    +:+ JSON.quote "due" +:+ " : " +:+ JSON.quote "2020-01-01" +:+ " , "
    +:+ JSON.quote "notes" +:+ " : " +:+ JSON.quote "" +:+ " , "
    +:+ JSON.quote "stage" +:+ " : " +:+ JSON.quote "Backlog" +:+ " , "
    +:+ JSON.quote "id" +:+ " : " +:+ JSON.quote "a1" +:+ " , "
    +:+ JSON.quote "createdAt" +:+ " : " +:+ JSON.quote "2026-10-30T08:15:00.000Z"
    +:+ " , " +:+ JSON.quote "completedAt" +:+ " : null } ] ".

(** * Properties *)

(** ** Strings and lists *)

Lemma seq_true (a b : string) : JS.seq a b = true ↔ a = b.
Proof. apply String.eqb_eq. Qed.

Lemma seq_false (a b : string) : JS.seq a b = false ↔ a ≠ b.
Proof. apply String.eqb_neq. Qed.

Lemma truthy_Some (s : string) : JS.truthy (Some s) = true ↔ s ≠ "".
Proof.
  unfold JS.truthy. rewrite negb_true_iff. apply String.eqb_neq.
Qed.

Lemma setTasks_same (f : list Task → list Task) (st : AppState) :
  f (tasks st) = tasks st → setTasks f st = st.
Proof. destruct st; unfold setTasks; simpl; intros ->; reflexivity. Qed.

Lemma fmap_id_on {A} (f : A → A) (l : list A) :
  (∀ x, x ∈ l → f x = x) → f <$> l = l.
Proof.
  induction l as [|a l IH]; intros H; [reflexivity|].
  rewrite fmap_cons, H by apply list_elem_of_here.
  rewrite IH; [reflexivity|]. intros x Hx. apply H. by apply list_elem_of_further.
Qed.

(** A stage of the board is not the empty string. *)
Lemma at_index_COLUMNS_truthy (k : Z) (next : string) :
  JS.at_index COLUMNS k = Some next → JS.truthy (Some next) = true.
Proof.
  unfold JS.at_index. destruct (k <? 0); [discriminate|].
  destruct (Z.to_nat k) as [|[|[|[|n]]]]; simpl; intros [= <-]; reflexivity.
Qed.

(** ** Validation *)

Lemma validateForm_valid (d : Form.t) :
  validateForm d = ∅ ↔
  JS.trim (Form.title d) ≠ "" ∧
  (String.length (Form.title d) ≤ MAX_TITLE)%nat ∧
  (String.length (Form.notes d) ≤ MAX_NOTES)%nat.
Proof.
  unfold validateForm.
  destruct (String.eqb_spec (JS.trim (Form.title d)) "") as [Ht|Ht];
  destruct (Nat.ltb_spec MAX_TITLE (String.length (Form.title d))) as [Hl|Hl];
  destruct (Nat.ltb_spec MAX_NOTES (String.length (Form.notes d))) as [Hn|Hn];
  split; try (intros (? & ? & ?); first [done | lia]);
  try (intros H; exfalso; eapply insert_non_empty; exact H); try done.
  all: try (intros _; repeat split; first [done | lia]).
Qed.

Lemma max_title_message : "Max " +:+ pretty MAX_TITLE +:+ " characters." = "Max 100 characters.".
Proof. reflexivity. Qed.

Lemma max_notes_message : "Max " +:+ pretty MAX_NOTES +:+ " characters." = "Max 2000 characters.".
Proof. reflexivity. Qed.

(** C5. [validateForm] returns the empty mapping exactly when the trimmed
    title is not empty, the title has at most 100 characters and the notes
    at most 2000.  A title over 100 characters gets the message
    "Max 100 characters.", also when its trimmed text is empty (the later
    rule overwrites the earlier one); an empty trimmed title of at most 100
    characters gets "Title is required."; notes over 2000 characters get
    "Max 2000 characters."; no other key is set.  The function is pure: it
    reads the draft and builds a fresh mapping. *)
Theorem validateForm_rules (d : Form.t) :
  (validateForm d = ∅ ↔
     JS.trim (Form.title d) ≠ "" ∧
     (String.length (Form.title d) ≤ 100)%nat ∧
     (String.length (Form.notes d) ≤ 2000)%nat) ∧
  ((100 < String.length (Form.title d))%nat →
     validateForm d !! "title" = Some "Max 100 characters.") ∧
  ((String.length (Form.title d) ≤ 100)%nat → JS.trim (Form.title d) = "" →
     validateForm d !! "title" = Some "Title is required.") ∧
  ((String.length (Form.title d) ≤ 100)%nat → JS.trim (Form.title d) ≠ "" →
     validateForm d !! "title" = None) ∧
  ((2000 < String.length (Form.notes d))%nat →
     validateForm d !! "notes" = Some "Max 2000 characters.") ∧
  ((String.length (Form.notes d) ≤ 2000)%nat →
     validateForm d !! "notes" = None) ∧
  (∀ k, k ≠ "title" → k ≠ "notes" → validateForm d !! k = None).
Proof.
  split; [apply validateForm_valid|].
  unfold validateForm. rewrite max_title_message, max_notes_message.
  change MAX_TITLE with 100%nat. change MAX_NOTES with 2000%nat.
  destruct (String.eqb_spec (JS.trim (Form.title d)) "") as [Ht|Ht];
  destruct (Nat.ltb_spec 100 (String.length (Form.title d))) as [Hl|Hl];
  destruct (Nat.ltb_spec 2000 (String.length (Form.notes d))) as [Hn|Hn];
  repeat split; intros; try lia; try congruence; by simplify_map_eq.
Qed.

Lemma validateForm_rules_witness :
  validateForm (Form.mk "   " "Medium" "Internal" "" "" "Backlog") !! "title"
    = Some "Title is required." ∧
  validateForm sample_draft = ∅.
Proof.
  destruct (validateForm_rules (Form.mk "   " "Medium" "Internal" "" "" "Backlog"))
    as (_ & _ & Hreq & _).
  destruct (validateForm_rules sample_draft) as (Hvalid & _).
  split.
  - apply Hreq; [simpl; lia | reflexivity].
  - apply Hvalid. split; [discriminate | simpl; lia].
Defined.

(** The three drafts of the specification's examples. *)
Example validateForm_examples :
  validateForm (Form.mk "" "Medium" "Internal" "" "" "Backlog") !! "title"
    = Some "Title is required." ∧
  validateForm (Form.mk (String.concat "" (repeat "x" 101)) "Medium" "Internal" "" "" "Backlog")
      !! "title" = Some "Max 100 characters." ∧
  validateForm (Form.mk "ok" "Medium" "Internal" "" (String.concat "" (repeat "y" 2001)) "Backlog")
      !! "notes" = Some "Max 2000 characters." ∧
  validateForm (Form.mk "ok" "Medium" "Internal" "" (String.concat "" (repeat "y" 2001)) "Backlog")
      !! "title" = None ∧
  validateForm (Form.mk (String.concat "" (repeat " " 101)) "Medium" "Internal" "" "" "Backlog")
      !! "title" = Some "Max 100 characters.".
Proof. vm_compute. repeat split. Qed.

(** ** Stage moves *)

Lemma moveTask_one_other (i : string) (dir : Z) (now : string) (x : Task) :
  id x ≠ i → moveTask_one i dir now x = x.
Proof.
  intros H. unfold moveTask_one.
  apply seq_false in H. rewrite H. reflexivity.
Qed.

Lemma moveTask_one_blocked (i : string) (dir : Z) (now : string) (x : Task) :
  JS.at_index COLUMNS (JS.indexOf COLUMNS (stage x) + dir) = None →
  moveTask_one i dir now x = x.
Proof.
  intros H. unfold moveTask_one. rewrite H. simpl.
  destruct (negb (JS.seq (id x) i)); reflexivity.
Qed.

Lemma moveTask_one_moved (i : string) (dir : Z) (now : string) (x : Task) (next : string) :
  id x = i →
  JS.at_index COLUMNS (JS.indexOf COLUMNS (stage x) + dir) = Some next →
  moveTask_one i dir now x =
    with_stage x next (if JS.seq next "Completed" then Some now else None).
Proof.
  intros Hi H. unfold moveTask_one.
  apply seq_true in Hi. rewrite Hi, H.
  rewrite (at_index_COLUMNS_truthy _ _ H). reflexivity.
Qed.

(** C2. Moving back a task that stands in the first stage, or forward a
    task that stands in the last one, changes nothing: when every task
    with identifier [i] is in "Backlog" and the direction is -1, or in
    "Completed" and the direction is +1, [moveTask] returns the state it
    was given, collection and toast included. *)
Theorem moveTask_past_end (i : string) (dir : Z) (now : string) (st : AppState) :
  (∀ x, x ∈ tasks st → id x = i →
     (stage x = "Backlog" ∧ dir = -1) ∨ (stage x = "Completed" ∧ dir = 1)) →
  moveTask i dir now st = st.
Proof.
  intros H. unfold moveTask. apply setTasks_same, fmap_id_on.
  intros x Hx. destruct (String.eqb_spec (id x) i) as [Hi|Hi].
  - apply moveTask_one_blocked.
    destruct (H x Hx Hi) as [[-> ->]|[-> ->]]; reflexivity.
  - by apply moveTask_one_other.
Qed.

Lemma moveTask_past_end_witness :
  moveTask "a1" (-1) "2026-11-01T10:00:00.000Z" sample_state = sample_state ∧
  moveTask "c3" 1 "2026-11-01T10:00:00.000Z" sample_state = sample_state.
Proof.
  split; apply moveTask_past_end; intros x Hx Hi;
    unfold sample_state in Hx; simpl in Hx;
    rewrite !elem_of_cons, elem_of_nil in Hx;
    destruct Hx as [->|[->|[->|[]]]]; simpl in Hi; try discriminate;
    [left|right]; split; reflexivity.
Defined.

(** ** Identifiers *)

Lemma toString36_go_length (fuel : nat) (n : N) (acc : string) :
  (String.length acc ≤ String.length (toString36_go fuel n acc))%nat.
Proof.
  revert n acc. induction fuel as [|f IH]; intros n acc; simpl; [lia|].
  destruct (n =? 0)%N; [lia|].
  etransitivity; [|apply IH]. simpl. lia.
Qed.

(** [genId()] never returns the empty string. *)
Lemma genId_truthy (now : N) (rnd : string) : JS.truthy (Some (genId now rnd)) = true.
Proof.
  apply truthy_Some. unfold genId, toString36.
  destruct (N.eqb_spec now 0) as [->|Hn]; [discriminate|].
  destruct (N.size_nat now) as [|f] eqn:Ef.
  { destruct now; [done|]. simpl in Ef. destruct p; discriminate. }
  simpl. destruct (N.eqb_spec now 0) as [|_]; [done|].
  pose proof (toString36_go_length f (now / 36)
                (String (digit36 (now mod 36)) "")) as Hl.
  intros E. destruct (toString36_go f _ _); [simpl in Hl; lia|discriminate].
Qed.

Example genId_example : genId 1793527200000 "k3f9x2" = "mvxnscg0k3f9x2".
Proof. vm_compute. reflexivity. Qed.

(** ** Editing a task *)

Lemma saveTask_valid_edit (i newId now : string) (st : AppState) :
  i ≠ "" → editId st = Some i → validateForm (formData st) = ∅ →
  tasks (saveTask newId now st) =
    (fun x => if JS.seq (id x) i then spread_form x (formData st) else x) <$> tasks st.
Proof.
  intros Hi He Hv. unfold saveTask. rewrite Hv, He.
  apply truthy_Some in Hi. rewrite Hi. reflexivity.
Qed.

(** C3. Editing task [i] with a draft that passes validation replaces the
    title, priority, category, due date, notes and stage of every task
    with that identifier by those of the draft, keeps its identifier, its
    creation stamp and its completion stamp, keeps every other task as it
    was, and keeps the order and the number of tasks.  Identifiers are the
    non-empty strings [genId] produces. *)
Theorem update_replaces_editable_fields (i : string) (draft : Form.t)
    (newId now : string) (st : AppState) :
  i ≠ "" → validateForm draft = ∅ →
  length (tasks (update i draft newId now st)) = length (tasks st) ∧
  ∀ (k : nat) (x : Task), tasks st !! k = Some x →
    ∃ x', tasks (update i draft newId now st) !! k = Some x' ∧
      (id x = i →
         title x' = Form.title draft ∧ priority x' = Form.priority draft ∧
         category x' = Form.category draft ∧ due x' = Form.due draft ∧
         notes x' = Form.notes draft ∧ stage x' = Form.stage draft ∧
         id x' = id x ∧ createdAt x' = createdAt x ∧
         completedAt x' = completedAt x) ∧
      (id x ≠ i → x' = x).
Proof.
  intros Hi Hv. unfold update.
  rewrite (saveTask_valid_edit i) by done. simpl.
  split; [apply length_fmap|].
  intros k x Hk. rewrite list_lookup_fmap, Hk. simpl.
  eexists; split; [reflexivity|]. split.
  - intros Hx. apply seq_true in Hx. rewrite Hx. simpl. by repeat split.
  - intros Hx. apply seq_false in Hx. by rewrite Hx.
Qed.

Lemma update_replaces_editable_fields_witness :
  length (tasks (update "b2" sample_draft "" "" sample_state)) = length (tasks sample_state) ∧
  ∀ (k : nat) (x : Task), tasks sample_state !! k = Some x →
    ∃ x', tasks (update "b2" sample_draft "" "" sample_state) !! k = Some x' ∧
      (id x = "b2" →
         title x' = Form.title sample_draft ∧ priority x' = Form.priority sample_draft ∧
         category x' = Form.category sample_draft ∧ due x' = Form.due sample_draft ∧
         notes x' = Form.notes sample_draft ∧ stage x' = Form.stage sample_draft ∧
         id x' = id x ∧ createdAt x' = createdAt x ∧
         completedAt x' = completedAt x) ∧
      (id x ≠ "b2" → x' = x).
Proof.
  apply (update_replaces_editable_fields "b2" sample_draft "" "" sample_state).
  - discriminate.
  - vm_compute. reflexivity.
Defined.

(** ** Stage assignment *)

Lemma setStage_tasks (i col now : string) (st : AppState) :
  i ≠ "" →
  tasks (setStage i col now st) =
    match JS.find (fun x => JS.seq (id x) i) (tasks st) with
    | Some task =>
        if JS.seq (stage task) col then tasks st
        else (fun x => if JS.seq (id x) i then with_stage x col
                             (if JS.seq col "Completed" then Some now else None)
                        else x)
               <$> tasks st
    | None => tasks st
    end.
Proof.
  intros Hi. unfold setStage, onDrop, onDragStart. simpl.
  apply truthy_Some in Hi. simpl in Hi. rewrite Hi.
  destruct (JS.find _ _) as [task|]; [|reflexivity].
  destruct (JS.seq (stage task) col); reflexivity.
Qed.

Lemma setStage_toast_same_stage (i col now : string) (st : AppState) (task : Task) :
  JS.find (fun x => JS.seq (id x) i) (tasks st) = Some task →
  stage task = col →
  toast (setStage i col now st) = toast st.
Proof.
  intros Hf Hs. unfold setStage, onDrop, onDragStart. simpl.
  destruct (negb (i =? "")%string); [|reflexivity].
  unfold JS.seq in Hf. rewrite Hf. apply seq_true in Hs. rewrite Hs. reflexivity.
Qed.

(** C4. [moveTask] on a task [x] with identifier [i] whose neighbour in
    direction [dir] exists puts [x] in that neighbour stage [next] and
    writes the stamp: the current timestamp when [next] is "Completed",
    absent otherwise.  [setStage] to a column [col] other than the stage of
    the dragged task does the same with [col]; [setStage] to the stage the
    task is in leaves the collection and the toast as they were. *)
Theorem stage_moves_stamp_completedAt (i : string) (now : string) (st : AppState) :
  (∀ (dir : Z) (k : nat) (x : Task) (next : string),
     tasks st !! k = Some x → id x = i →
     JS.at_index COLUMNS (JS.indexOf COLUMNS (stage x) + dir) = Some next →
     ∃ x', tasks (moveTask i dir now st) !! k = Some x' ∧
       stage x' = next ∧
       completedAt x' = (if decide (next = "Completed") then Some now else None)) ∧
  (∀ (col : string) (task : Task),
     i ≠ "" →
     JS.find (fun x => JS.seq (id x) i) (tasks st) = Some task →
     stage task ≠ col →
     ∀ (k : nat) (x : Task), tasks st !! k = Some x → id x = i →
     ∃ x', tasks (setStage i col now st) !! k = Some x' ∧
       stage x' = col ∧
       completedAt x' = (if decide (col = "Completed") then Some now else None)) ∧
  (∀ (col : string) (task : Task),
     JS.find (fun x => JS.seq (id x) i) (tasks st) = Some task →
     stage task = col →
     tasks (setStage i col now st) = tasks st ∧
     toast (setStage i col now st) = toast st).
Proof.
  assert (Hstamp : ∀ s, (if JS.seq s "Completed" then Some now else None)
                        = if decide (s = "Completed") then Some now else None).
  { intros s. unfold JS.seq. destruct (String.eqb_spec s "Completed"); by case_decide. }
  split; [|split].
  - intros dir k x next Hk Hi Hn. unfold moveTask. simpl.
    rewrite list_lookup_fmap, Hk. simpl.
    rewrite (moveTask_one_moved i dir now x next Hi Hn).
    eexists; split; [reflexivity|]. split; [reflexivity|]. apply Hstamp.
  - intros col task Hi Hf Hs k x Hk Hx.
    rewrite setStage_tasks, Hf by done.
    apply seq_false in Hs. rewrite Hs.
    rewrite list_lookup_fmap, Hk. simpl.
    apply seq_true in Hx. rewrite Hx.
    eexists; split; [reflexivity|]. split; [reflexivity|]. apply Hstamp.
  - intros col task Hf Hs. split; [|by eapply setStage_toast_same_stage].
    destruct (String.eqb_spec i "") as [->|Hi].
    + unfold setStage, onDrop, onDragStart. reflexivity.
    + rewrite setStage_tasks, Hf by done.
      apply seq_true in Hs. by rewrite Hs.
Qed.

Lemma stage_moves_stamp_completedAt_witness :
  (∃ x', tasks (moveTask "b2" 1 "2026-11-01T10:00:00.000Z" sample_state) !! 1%nat = Some x' ∧
     stage x' = "Completed" ∧ completedAt x' = Some "2026-11-01T10:00:00.000Z") ∧
  (∃ x', tasks (moveTask "c3" (-1) "2026-11-01T10:00:00.000Z" sample_state) !! 2%nat = Some x' ∧
     stage x' = "Review/QA" ∧ completedAt x' = None) ∧
  (∃ x', tasks (setStage "a1" "Completed" "2026-11-01T10:00:00.000Z" sample_state) !! 0%nat
           = Some x' ∧
     stage x' = "Completed" ∧ completedAt x' = Some "2026-11-01T10:00:00.000Z") ∧
  (tasks (setStage "c3" "Completed" "2026-11-01T10:00:00.000Z" sample_state)
     = tasks sample_state ∧
   toast (setStage "c3" "Completed" "2026-11-01T10:00:00.000Z" sample_state)
     = toast sample_state).
Proof.
  destruct (stage_moves_stamp_completedAt "b2" "2026-11-01T10:00:00.000Z" sample_state)
    as (Hb & _ & _).
  destruct (stage_moves_stamp_completedAt "c3" "2026-11-01T10:00:00.000Z" sample_state)
    as (Hc & _ & Hsame).
  destruct (stage_moves_stamp_completedAt "a1" "2026-11-01T10:00:00.000Z" sample_state)
    as (_ & Ha & _).
  split; [|split; [|split]].
  - exact (Hb 1 1%nat (sample_task "b2" "Review/QA" None) "Completed"
             eq_refl eq_refl eq_refl).
  - exact (Hc (-1) 2%nat (sample_task "c3" "Completed" (Some "2026-10-31T17:00:00.000Z"))
             "Review/QA" eq_refl eq_refl eq_refl).
  - refine (Ha "Completed" (sample_task "a1" "Backlog" None) _ eq_refl _
               0%nat (sample_task "a1" "Backlog" None) eq_refl eq_refl); discriminate.
  - exact (Hsame "Completed"
             (sample_task "c3" "Completed" (Some "2026-10-31T17:00:00.000Z"))
             eq_refl eq_refl).
Defined.

Example stage_moves_on_sample :
  tasks (moveTask "b2" 1 "2026-11-01T10:00:00.000Z" sample_state) =
    [ sample_task "a1" "Backlog" None;
      sample_task "b2" "Completed" (Some "2026-11-01T10:00:00.000Z");
      sample_task "c3" "Completed" (Some "2026-10-31T17:00:00.000Z") ] ∧
  tasks (moveTask "c3" (-1) "2026-11-01T10:00:00.000Z" sample_state) =
    [ sample_task "a1" "Backlog" None;
      sample_task "b2" "Review/QA" None;
      sample_task "c3" "Review/QA" None ] ∧
  tasks (setStage "a1" "Completed" "2026-11-01T10:00:00.000Z" sample_state) =
    [ sample_task "a1" "Completed" (Some "2026-11-01T10:00:00.000Z");
      sample_task "b2" "Review/QA" None;
      sample_task "c3" "Completed" (Some "2026-10-31T17:00:00.000Z") ] ∧
  setStage "c3" "Completed" "2026-11-01T10:00:00.000Z" sample_state = sample_state.
Proof. repeat split. Qed.

(** ** Operations on an identifier that no task has *)

Lemma saveNote_tasks (st : AppState) :
  (String.length (noteText st) ≤ MAX_NOTES)%nat →
  tasks (saveNote st) =
    (fun x => if JS.seq_opt (id x) (activeNote st)
              then with_notes x (noteText st) else x) <$> tasks st.
Proof.
  intros H. unfold saveNote.
  destruct (Nat.ltb_spec MAX_NOTES (String.length (noteText st))); [lia|].
  reflexivity.
Qed.

(** C10. When no task of the collection has identifier [i], an edit of
    [i] with a valid draft, a stage move of [i] in any direction and a
    notes edit of [i] with a text of at most 2000 characters each leave
    the collection as it was. *)
Theorem absent_id_unchanged (i : string) (st : AppState) :
  (∀ x, x ∈ tasks st → id x ≠ i) →
  (∀ (draft : Form.t) (newId now : string),
     i ≠ "" → validateForm draft = ∅ →
     tasks (update i draft newId now st) = tasks st) ∧
  (∀ (dir : Z) (now : string), tasks (moveTask i dir now st) = tasks st) ∧
  (∀ (text : string),
     (String.length text ≤ 2000)%nat → tasks (setNotes i text st) = tasks st).
Proof.
  intros Habs. split; [|split].
  - intros draft newId now Hi Hv. unfold update.
    rewrite (saveTask_valid_edit i) by done. simpl.
    apply fmap_id_on. intros x Hx.
    apply Habs, seq_false in Hx. by rewrite Hx.
  - intros dir now. unfold moveTask. simpl.
    apply fmap_id_on. intros x Hx. apply moveTask_one_other. by apply Habs.
  - intros text Hlen. unfold setNotes.
    rewrite saveNote_tasks by exact Hlen. simpl.
    apply fmap_id_on. intros x Hx.
    apply Habs, seq_false in Hx. unfold JS.seq in Hx. by rewrite Hx.
Qed.

Lemma absent_id_unchanged_witness :
  (∀ (draft : Form.t) (newId now : string),
     "zz" ≠ "" → validateForm draft = ∅ →
     tasks (update "zz" draft newId now sample_state) = tasks sample_state) ∧
  (∀ (dir : Z) (now : string), tasks (moveTask "zz" dir now sample_state) = tasks sample_state) ∧
  (∀ (text : string),
     (String.length text ≤ 2000)%nat → tasks (setNotes "zz" text sample_state) = tasks sample_state).
Proof.
  apply (absent_id_unchanged "zz" sample_state).
  intros x Hx. unfold sample_state in Hx. simpl in Hx.
  rewrite !elem_of_cons, elem_of_nil in Hx.
  destruct Hx as [->|[->|[->|[]]]]; discriminate.
Defined.

(** ** The completion stamp along sequences of operations *)

Lemma completed_inv_fmap (f : Task → Task) (t : list Task) :
  (∀ x, x ∈ t → stamped x → stamped (f x)) →
  completed_inv t → completed_inv (f <$> t).
Proof.
  intros Hf Ht y Hy. apply list_elem_of_fmap in Hy as (x & -> & Hx).
  apply Hf; [exact Hx|]. by apply Ht.
Qed.

Lemma stamped_with_stage (x : Task) (s now : string) :
  stamped (with_stage x s (if JS.seq s "Completed" then Some now else None)).
Proof.
  unfold stamped, JS.seq. simpl.
  destruct (String.eqb_spec s "Completed") as [->|Hs]; split; intros H;
    first [done | by destruct H].
Qed.

Lemma stamped_moveTask_one (i : string) (dir : Z) (now : string) (x : Task) :
  stamped x → stamped (moveTask_one i dir now x).
Proof.
  intros Hx. unfold moveTask_one.
  destruct (negb (JS.seq (id x) i)); [exact Hx|].
  destruct (negb (JS.truthy _)); [exact Hx|].
  apply stamped_with_stage.
Qed.

Lemma completed_inv_step (op : Op) (st : AppState) :
  keeps_stamp op (tasks st) →
  completed_inv (tasks st) → completed_inv (tasks (apply_op op st)).
Proof.
  intros Hk Hinv. destruct op as [draft newId now|i draft newId now|i dir now|i col now|i text|i];
    simpl in *.
  - unfold create, saveTask. simpl.
    destruct (negb (size (validateForm draft) =? 0)%nat); [exact Hinv|]. simpl.
    intros x Hx. apply elem_of_app in Hx as [Hx|Hx]; [by apply Hinv|].
    apply list_elem_of_singleton in Hx as ->. simpl.
    split; [by intros []|done].
  - destruct Hk as [Hi Hk]. unfold update, saveTask. simpl.
    destruct (negb (size (validateForm draft) =? 0)%nat); [exact Hinv|]. simpl.
    apply String.eqb_neq in Hi as Hi'. rewrite Hi'. simpl.
    apply completed_inv_fmap; [|exact Hinv].
    intros x Hx Hs. destruct (String.eqb_spec (id x) i) as [Hxi|Hxi]; [|exact Hs].
    unfold stamped in *. simpl. rewrite Hs. symmetry. by apply Hk.
  - unfold moveTask. simpl. apply completed_inv_fmap; [|exact Hinv].
    intros x _. apply stamped_moveTask_one.
  - unfold setStage, onDrop, onDragStart. simpl.
    destruct (negb (i =? "")%string); [|exact Hinv].
    destruct (JS.find _ _) as [task|]; [|exact Hinv].
    destruct (negb (JS.seq (stage task) col)); [|exact Hinv]. simpl.
    apply completed_inv_fmap; [|exact Hinv].
    intros x _ Hs. destruct (id x =? i)%string; [|exact Hs].
    apply stamped_with_stage.
  - unfold setNotes, saveNote. simpl.
    destruct (MAX_NOTES <? String.length text)%nat; [exact Hinv|]. simpl.
    apply completed_inv_fmap; [|exact Hinv].
    intros x _ Hs. destruct (id x =? i)%string; exact Hs.
  - intros x Hx. apply Hinv.
    apply list_elem_of_In, filter_In in Hx as [Hx _]. by apply list_elem_of_In.
Qed.

(** C1, as the code has it.  From a collection in which [completedAt] is
    present exactly on the completed tasks, every sequence of stage moves,
    stage assignments, notes edits and deletions, of creations in a stage
    other than Completed and of edits that keep the task on its side of
    Completed, leads to a collection with the same property. *)
Theorem completed_inv_preserved (st : AppState) (ops : list Op) (st' : AppState) :
  completed_inv (tasks st) → runs st ops st' → completed_inv (tasks st').
Proof.
  intros Hinv Hruns. induction Hruns as [st|st op ops st' Hk _ IH]; [exact Hinv|].
  apply IH. by apply completed_inv_step.
Qed.

Lemma completed_inv_sample : completed_inv (tasks sample_state).
Proof.
  intros x Hx. unfold sample_state in Hx. simpl in Hx.
  rewrite !elem_of_cons, elem_of_nil in Hx.
  destruct Hx as [->|[->|[->|[]]]]; simpl; split; intros H;
    first [done | by destruct H | by eexists].
Defined.

Lemma completed_inv_preserved_witness :
  completed_inv (tasks
    (apply_op (OpDelete "c3")
      (apply_op (OpUpdate "a1" sample_draft "" "")
        (apply_op (OpCreate sample_draft "d4" "2026-11-01T10:00:00.000Z")
          (apply_op (OpSetStage "a1" "Review/QA" "2026-11-01T10:00:00.000Z")
            (apply_op (OpMoveStage "b2" 1 "2026-11-01T10:00:00.000Z") sample_state)))))).
Proof.
  apply (completed_inv_preserved sample_state
    [ OpMoveStage "b2" 1 "2026-11-01T10:00:00.000Z";
      OpSetStage "a1" "Review/QA" "2026-11-01T10:00:00.000Z";
      OpCreate sample_draft "d4" "2026-11-01T10:00:00.000Z";
      OpUpdate "a1" sample_draft "" "";
      OpDelete "c3" ]).
  - exact completed_inv_sample.
  - apply runs_cons; [exact I|].
    apply runs_cons; [exact I|].
    apply runs_cons; [discriminate|].
    apply runs_cons.
    { split; [discriminate|]. intros x Hx Hi.
      match type of Hx with _ ∈ ?l =>
        let l' := eval vm_compute in l in change l with l' in Hx end.
      rewrite !elem_of_cons, elem_of_nil in Hx.
      destruct Hx as [->|[->|[->|[->|[]]]]]; simpl in Hi; try discriminate.
      simpl. split; discriminate. }
    apply runs_cons; [exact I|].
    apply runs_nil.
Defined.

(** C1 fails as stated: a task created in the stage "Completed" has no
    completion stamp, and an edit that moves a task into "Completed"
    leaves it without one. *)
Lemma completed_inv_broken_by_form :
  completed_inv (tasks initial) ∧
  ¬ completed_inv (tasks
      (apply_op (OpCreate (Form.mk "Ship report" "Medium" "Internal" "" "" "Completed")
                          "k1" "2026-11-01T10:00:00.000Z") initial)) ∧
  completed_inv (tasks sample_state) ∧
  ¬ completed_inv (tasks
      (apply_op (OpUpdate "a1" (Form.mk "Scan perimeter" "High" "Pen Testing"
                                        "2020-01-01" "" "Completed") "" "")
                sample_state)).
Proof.
  split; [|split; [|split]].
  - intros x Hx. by apply elem_of_nil in Hx.
  - intros H.
    destruct (H (mkTask "Ship report" "Medium" "Internal" "" "" "Completed"
                        "k1" "2026-11-01T10:00:00.000Z" None)) as [_ Hc].
    + vm_compute. apply list_elem_of_here.
    + by destruct (Hc eq_refl).
  - exact completed_inv_sample.
  - intros H.
    destruct (H (sample_task "a1" "Completed" None)) as [_ Hc].
    + vm_compute. apply list_elem_of_here.
    + by destruct (Hc eq_refl).
Qed.

(** ** Overdue tasks *)

Lemma sample_zone_bounded : offsets_within_a_day sample_zone.
Proof.
  intros t b. unfold sample_zone.
  destruct b; repeat (destruct (t <? _)); lia.
Qed.

(** A zone with one offset at all times keeps its days in order. *)
Lemma fixed_zone_days_in_order (c : Z) : days_in_order (fun _ _ => c).
Proof.
  intros d u.
  unfold JSDate.localMidnight, JSDate.UTC, JSDate.MakeDate, JSDate.Day,
    JSDate.LocalTime, JSDate.msPerDay.
  rewrite Z.add_0_r.
  pose proof (Z.mul_div_le (u + c) 86400000 ltac:(lia)).
  pose proof (Z.mul_succ_div_gt (u + c) 86400000 ltac:(lia)).
  split; intros H1; nia.
Qed.

(** The sample zone keeps its days in order, across the change of its
    clocks too. *)
Lemma sample_zone_days_in_order : days_in_order sample_zone.
Proof.
  intros d u.
  unfold JSDate.localMidnight, JSDate.UTC, JSDate.MakeDate, JSDate.Day,
    JSDate.LocalTime, JSDate.msPerDay, sample_zone.
  rewrite Z.add_0_r.
  assert (Hdiv : ∀ a, a / 86400000 < d ↔ a < d * 86400000).
  { intros a.
    pose proof (Z.mul_div_le a 86400000 ltac:(lia)).
    pose proof (Z.mul_succ_div_gt a 86400000 ltac:(lia)).
    split; intros H1; nia. }
  rewrite Hdiv.
  destruct (Z.ltb_spec u 1774746000000), (Z.ltb_spec u 1792890000000),
           (Z.ltb_spec (d * 86400000) 1774753200000),
           (Z.ltb_spec (d * 86400000) 1792897200000); lia.
Qed.

Section Overdue.
Variable LocalTZA : Z → bool → Z.

(** In a zone that keeps its days in order the local calendar day never
    goes back. *)
Lemma day_never_goes_back (a b : Z) :
  days_in_order LocalTZA → a ≤ b →
  JSDate.Day (JSDate.LocalTime LocalTZA a) ≤ JSDate.Day (JSDate.LocalTime LocalTZA b).
Proof.
  intros Hc Hab.
  destruct (Z.le_gt_cases (JSDate.Day (JSDate.LocalTime LocalTZA a))
                          (JSDate.Day (JSDate.LocalTime LocalTZA b))) as [|Hgt];
    [assumption|]. exfalso.
  apply Hc in Hgt.
  assert (Ha : ¬ a < JSDate.localMidnight LocalTZA
                       (JSDate.Day (JSDate.LocalTime LocalTZA a))).
  { intros H%Hc. lia. }
  lia.
Qed.

(** Today at 00:00 local time, for a clock in the range of time values
    after the epoch. *)
Lemma setHours0_now (now : Z) :
  days_in_order LocalTZA → offsets_within_a_day LocalTZA →
  0 ≤ now ≤ 8640000000000000 →
  JSDate.setHours0 LocalTZA (Some now) =
    Some (JSDate.localMidnight LocalTZA (JSDate.Day (JSDate.LocalTime LocalTZA now))).
Proof.
  intros Hc Hb Hnow. unfold JSDate.setHours0, JSDate.TimeClip.
  case_match eqn:E; [reflexivity|]. exfalso.
  apply Z.leb_gt in E.
  assert (Hup : JSDate.localMidnight LocalTZA
                  (JSDate.Day (JSDate.LocalTime LocalTZA now)) ≤ now).
  { destruct (Z.le_gt_cases (JSDate.localMidnight LocalTZA
                (JSDate.Day (JSDate.LocalTime LocalTZA now))) now) as [|Hgt];
      [assumption|]. apply Hc in Hgt. lia. }
  revert E Hup.
  unfold JSDate.localMidnight, JSDate.UTC, JSDate.MakeDate, JSDate.Day,
    JSDate.LocalTime, JSDate.msPerDay.
  set (o1 := LocalTZA now true).
  set (mid := (now + o1) / 86400000 * 86400000 + 0).
  pose proof (Hb now true) as H1. pose proof (Hb mid false) as H2. fold o1 in H1.
  pose proof (Z.mul_div_le (now + o1) 86400000 ltac:(lia)).
  pose proof (Z.mul_succ_div_gt (now + o1) 86400000 ltac:(lia)).
  lia.
Qed.

(** C7. [isOverdue] is false when the due date is absent or the stage is
    "Completed"; otherwise it is true exactly when the due date parses to
    a valid date whose local calendar day comes strictly before the local
    calendar day of the clock.  This holds for every text of the due
    date, read as [Number] and the [Date] constructor read it, and in
    every zone that keeps its days in order, with or without daylight
    saving. *)
Theorem isOverdue_calendar_days (now : Z) (due stage : string) :
  days_in_order LocalTZA → offsets_within_a_day LocalTZA →
  0 ≤ now ≤ 8640000000000000 →
  (due = "" ∨ stage = "Completed" → isOverdue LocalTZA now due stage = false) ∧
  (due ≠ "" → stage ≠ "Completed" →
     (isOverdue LocalTZA now due stage = true ↔
      ∃ tv, parseLocalDate LocalTZA (Some due) = Some (Some tv) ∧
            JSDate.Day (JSDate.LocalTime LocalTZA tv)
              < JSDate.Day (JSDate.LocalTime LocalTZA now))).
Proof.
  intros Hc Hb Hnow. split.
  - intros [-> | ->]; unfold isOverdue; [reflexivity|].
    unfold JS.seq. rewrite String.eqb_refl, orb_true_r. reflexivity.
  - intros Hdue Hstage. unfold isOverdue.
    rewrite setHours0_now by assumption.
    apply truthy_Some in Hdue as Ht. rewrite Ht.
    apply seq_false in Hstage. rewrite Hstage. cbn [negb orb].
    destruct (parseLocalDate LocalTZA (Some due)) as [[tv|]|].
    + cbn [JSDate.lt]. rewrite Z.ltb_lt, (Hc _ tv). split.
      * intros Hlt. by exists tv.
      * by intros (tv' & [= <-] & Hlt).
    + cbn [JSDate.lt]. split; [discriminate|]. by intros (tv' & [=] & _).
    + split; [discriminate|]. by intros (tv' & [=] & _).
Qed.

End Overdue.

Lemma isOverdue_calendar_days_witness :
  (("2020-01-01" : string) = "" ∨ ("Backlog" : string) = "Completed" →
     isOverdue sample_zone 1793527200000 "2020-01-01" "Backlog" = false) ∧
  (("2020-01-01" : string) ≠ "" → ("Backlog" : string) ≠ "Completed" →
     (isOverdue sample_zone 1793527200000 "2020-01-01" "Backlog" = true ↔
      ∃ tv, parseLocalDate sample_zone (Some "2020-01-01") = Some (Some tv) ∧
            JSDate.Day (JSDate.LocalTime sample_zone tv)
              < JSDate.Day (JSDate.LocalTime sample_zone 1793527200000))).
Proof.
  apply (isOverdue_calendar_days sample_zone 1793527200000 "2020-01-01" "Backlog").
  - exact sample_zone_days_in_order.
  - exact sample_zone_bounded.
  - lia.
Defined.

(** The scenario of the specification, on 1 November 2026, 10:00 UTC, in
    the sample zone: task A is overdue, the completed task B is not; a
    task due today or tomorrow is not overdue, one due yesterday is.  A
    due text with blanks, a sign, an exponent or a radix prefix is read
    as [Number] reads it.  The time value of a date is its local
    midnight, at the offset of its season. *)
Example isOverdue_scenario :
  isOverdue sample_zone 1793527200000 "2020-01-01" "Backlog" = true ∧
  isOverdue sample_zone 1793527200000 "2020-01-01" "Completed" = false ∧
  isOverdue sample_zone 1793527200000 "" "Backlog" = false ∧
  isOverdue sample_zone 1793527200000 "2026-11-01" "Backlog" = false ∧
  isOverdue sample_zone 1793527200000 "2026-11-02" "In Progress" = false ∧
  isOverdue sample_zone 1793527200000 "2026-10-31" "Review/QA" = true ∧
  isOverdue sample_zone 1793527200000 " 2020-01-01" "Backlog" = true ∧
  isOverdue sample_zone 1793527200000 "+2020-01-01" "Backlog" = true ∧
  isOverdue sample_zone 1793527200000 "1e3-01-01" "Backlog" = true ∧
  isOverdue sample_zone 1793527200000 "0x7EA-01-01" "Backlog" = true ∧
  isOverdue sample_zone 1793527200000 "2020-01-01T00:00" "Backlog" = false ∧
  parseLocalDate sample_zone (Some "2020-01-01") = Some (Some 1577833200000) ∧
  parseLocalDate sample_zone (Some "2026-07-01") = Some (Some 1782856800000).
Proof. vm_compute. repeat split. Qed.

(** ** Completion percentage *)

(** [pct] depends on the two counts only. *)
Lemma pct_counts (t u : list Task) :
  length t = length u → count_completed t = count_completed u → pct t = pct u.
Proof. unfold pct, count_completed. by intros -> ->. Qed.

Lemma pct_empty : pct [] = Num.of_Z 0.
Proof. reflexivity. Qed.

(** The examples of the specification hold: 0 for the empty collection,
    33 for one completed task out of three. *)
Lemma pct_one_of_three (t : list Task) :
  length t = 3%nat → count_completed t = 1%nat → pct t = Num.of_Z 33.
Proof.
  intros Hl Hc.
  rewrite (pct_counts t [sample_task "a" "Completed" None;
                         sample_task "b" "Backlog" None;
                         sample_task "c" "Backlog" None]) by done.
  vm_compute. reflexivity.
Qed.

Lemma sf_eqb_eq (a b : spec_float) : sf_eqb a b = true → a = b.
Proof.
  destruct a as [s|s| |s m e], b as [s'|s'| |s' m' e']; simpl; try discriminate.
  - by intros ->%Bool.eqb_prop.
  - by intros ->%Bool.eqb_prop.
  - reflexivity.
  - intros [[->%Bool.eqb_prop ->%Pos.eqb_eq]%andb_true_iff ->%Z.eqb_eq]%andb_true_iff.
    reflexivity.
Qed.

Lemma board_counts (c n : nat) :
  (c ≤ n)%nat → length (board c n) = n ∧ count_completed (board c n) = c.
Proof.
  intros H. unfold board, count_completed. split.
  - rewrite length_app, !repeat_length. lia.
  - rewrite List.filter_app, length_app.
    assert (Hd : ∀ k, List.filter (λ x : Task, JS.seq (stage x) "Completed")
                   (repeat (sample_task "t" "Completed" (Some "2026-10-31T17:00:00.000Z")) k)
                 = repeat (sample_task "t" "Completed" (Some "2026-10-31T17:00:00.000Z")) k).
    { induction k as [|k IH]; [reflexivity|]. simpl. by rewrite IH. }
    assert (Ht : ∀ k, List.filter (λ x : Task, JS.seq (stage x) "Completed")
                   (repeat (sample_task "t" "Backlog" None) k) = []).
    { induction k as [|k IH]; [reflexivity|]. simpl. exact IH. }
    rewrite Hd, Ht, repeat_length. simpl. lia.
Qed.

(** X26. On every board of fewer than 40 tasks [pct] is the rounded exact
    ratio; 23 out of 40 is the first board on which it is not. *)
Lemma pct_small_boards (t : list Task) :
  (length t < 40)%nat →
  pct t = Num.of_Z (round_ratio (100 * Z.of_nat (count_completed t))
                                 (Z.of_nat (length t))).
Proof.
  intros Hlen.
  assert (Hc : (count_completed t ≤ length t)%nat) by apply List.filter_length_le.
  destruct (board_counts _ _ Hc) as [Hbl Hbc].
  rewrite (pct_counts t (board (count_completed t) (length t))) by done.
  apply sf_eqb_eq.
  assert (Hall : small_boards_agree = true) by (vm_compute; reflexivity).
  unfold small_boards_agree in Hall.
  rewrite forallb_forall in Hall.
  specialize (Hall (length t)). rewrite forallb_forall in Hall.
  apply Hall; apply in_seq; lia.
Qed.

(** C8 fails on every collection of 40 tasks with 23 completed ones: the
    exact ratio is 57.5, which rounds to 58 (and so does the binary64
    quotient 2300/40), whereas the binary64 quotient 23/40 multiplied by
    100 is 57.49999999999999, which [Math.round] takes to 57. *)
Theorem pct_23_of_40 (t : list Task) :
  length t = 40%nat → count_completed t = 23%nat →
  pct t = Num.of_Z 57 ∧
  round_ratio (100 * Z.of_nat (count_completed t)) (Z.of_nat (length t)) = 58 ∧
  Num.round (Num.div (Num.mul (Num.of_Z 100) (Num.of_Z (Z.of_nat (count_completed t))))
                     (Num.of_Z (Z.of_nat (length t)))) = Num.of_Z 58 ∧
  Num.of_Z 57 ≠ Num.of_Z 58.
Proof.
  intros Hl Hc. rewrite Hl, Hc.
  rewrite (pct_counts t (board 23 40)) by (by rewrite ?Hl, ?Hc).
  vm_compute. by repeat split.
Qed.

Lemma pct_23_of_40_witness :
  pct forty_tasks = Num.of_Z 57 ∧
  round_ratio (100 * Z.of_nat (count_completed forty_tasks)) (Z.of_nat (length forty_tasks)) = 58 ∧
  Num.round (Num.div (Num.mul (Num.of_Z 100) (Num.of_Z (Z.of_nat (count_completed forty_tasks))))
                     (Num.of_Z (Z.of_nat (length forty_tasks)))) = Num.of_Z 58 ∧
  Num.of_Z 57 ≠ Num.of_Z 58.
Proof. apply (pct_23_of_40 forty_tasks); vm_compute; reflexivity. Defined.

(** The board of the witness is one the program can hold: its
    identifiers differ and its completion stamps agree with the stages. *)
Example forty_tasks_well_formed :
  NoDup (id <$> forty_tasks) ∧ completed_inv forty_tasks.
Proof.
  split.
  - unfold forty_tasks. rewrite <- list_fmap_compose.
    apply NoDup_fmap_2; [|apply NoDup_ListNoDup, List.seq_NoDup].
    intros j k H. simpl in H. injection H as H. by apply (inj pretty).
  - intros x Hx. unfold forty_tasks in Hx.
    apply list_elem_of_fmap in Hx as (k & -> & _).
    destruct (k <? 23)%nat; simpl; split; intros H;
      first [done | by destruct H | by eexists].
Qed.

(** ** Export *)

Lemma split_String (sep c : ascii) (s : string) :
  JS.split sep (String c s) =
    if Ascii.eqb c sep then EmptyString :: JS.split sep s
    else match JS.split sep s with
         | piece :: pieces => String c piece :: pieces
         | [] => [String c EmptyString]
         end.
Proof. reflexivity. Qed.

Lemma digit_not_dash (c : ascii) : is_Some (digit c) → Ascii.eqb c "-" = false.
Proof.
  intros [d Hd]. destruct (Ascii.eqb_spec c "-") as [->|]; [discriminate|reflexivity].
Qed.

(** A run of digits before a dash is a piece of its own. *)
Lemma split_digits_dash (a s : string) :
  is_digits a = true → JS.split "-" (a +:+ String "-" s) = a :: JS.split "-" s.
Proof.
  induction a as [|c a IH]; intros Ha; [reflexivity|].
  simpl in Ha. apply andb_true_iff in Ha as [Hc Ha].
  change (String c a +:+ String "-" s) with (String c (a +:+ String "-" s)).
  rewrite split_String, digit_not_dash, (IH Ha); [reflexivity|].
  destruct (digit c); [by eexists|discriminate].
Qed.

(** *** Strings: reversal and trimming *)

Lemma app_cons (c : ascii) (a b : string) : String c a +:+ b = String c (a +:+ b).
Proof. reflexivity. Qed.

Lemma app_empty (a : string) : a +:+ "" = a.
Proof. induction a as [|c a IH]; [reflexivity|]. by rewrite app_cons, IH. Qed.

Lemma app_app (a b c : string) : (a +:+ b) +:+ c = a +:+ (b +:+ c).
Proof. induction a as [|x a IH]; [reflexivity|]. by rewrite !app_cons, IH. Qed.

Lemma list_of_app (a b : string) :
  list_ascii_of_string (a +:+ b) = list_ascii_of_string a ++ list_ascii_of_string b.
Proof.
  induction a as [|c a IH]; [reflexivity|].
  rewrite app_cons. cbn [list_ascii_of_string]. by rewrite IH.
Qed.

Lemma string_of_app (l k : list ascii) :
  string_of_list_ascii (l ++ k) = string_of_list_ascii l +:+ string_of_list_ascii k.
Proof.
  induction l as [|c l IH]; [reflexivity|].
  cbn [app string_of_list_ascii]. by rewrite IH, app_cons.
Qed.

Lemma reverse_app (a b : string) : JS.reverse (a +:+ b) = JS.reverse b +:+ JS.reverse a.
Proof. unfold JS.reverse. by rewrite list_of_app, rev_app_distr, string_of_app. Qed.

Lemma reverse_involutive (s : string) : JS.reverse (JS.reverse s) = s.
Proof.
  unfold JS.reverse.
  by rewrite list_ascii_of_string_of_list_ascii, rev_involutive,
    string_of_list_ascii_of_string.
Qed.

Lemma reverse_around (a : string) (c : ascii) (r : string) :
  JS.reverse (a +:+ String c r) = JS.reverse r +:+ String c (JS.reverse a).
Proof.
  change (String c r) with (String c "" +:+ r).
  rewrite !reverse_app, app_app. reflexivity.
Qed.

(** White space is dropped up to the first character that is none. *)
Lemma trimStart_before (x : string) (c : ascii) (y : string) :
  JS.isWhiteSpace c = false →
  JS.trimStart (x +:+ String c y) = JS.trimStart x +:+ String c y.
Proof.
  intros Hc. induction x as [|d x IH].
  - change ("" +:+ String c y) with (String c y). cbn [JS.trimStart].
    by rewrite Hc.
  - rewrite app_cons. cbn [JS.trimStart].
    destruct (JS.isWhiteSpace d); [exact IH|by rewrite app_cons].
Qed.

Lemma trimEnd_after (a : string) (c : ascii) (r : string) :
  JS.isWhiteSpace c = false →
  JS.trimEnd (a +:+ String c r) = a +:+ String c (JS.trimEnd r).
Proof.
  intros Hc. unfold JS.trimEnd.
  by rewrite reverse_around, (trimStart_before _ _ _ Hc), reverse_around,
    reverse_involutive.
Qed.

(** *** Digits among the characters *)

Lemma digit_range (c : ascii) :
  is_Some (digit c) ↔ (48 ≤ N_of_ascii c ≤ 57)%N.
Proof.
  unfold digit.
  destruct (N.leb_spec 48 (N_of_ascii c)), (N.leb_spec (N_of_ascii c) 57);
    cbn [andb]; split; try (intros [? [=]]); try lia; by eexists.
Qed.

Lemma digit_not_ws (c : ascii) : is_Some (digit c) → JS.isWhiteSpace c = false.
Proof.
  intros H%digit_range. unfold JS.isWhiteSpace.
  destruct (N.leb_spec 9 (N_of_ascii c)), (N.leb_spec (N_of_ascii c) 13),
    (N.eqb_spec (N_of_ascii c) 32), (N.eqb_spec (N_of_ascii c) 160);
    cbn [andb orb]; try reflexivity; lia.
Qed.

Lemma digit_no_radix (c : ascii) : is_Some (digit c) → radix_of c = None.
Proof.
  intros H%digit_range. unfold radix_of.
  repeat match goal with
  | |- context [(N_of_ascii c =? ?k)%N] =>
      destruct (N.eqb_spec (N_of_ascii c) k); [lia|]
  end.
  reflexivity.
Qed.

Lemma digit_other (c d : ascii) :
  is_Some (digit c) → digit d = None → Ascii.eqb c d = false.
Proof.
  intros [v Hv] Hd. destruct (Ascii.eqb_spec c d) as [->|]; [congruence|reflexivity].
Qed.

Lemma is_digits_cons (c : ascii) (a : string) :
  is_digits (String c a) = true ↔ is_Some (digit c) ∧ is_digits a = true.
Proof.
  cbn [is_digits]. rewrite andb_true_iff.
  destruct (digit c); split; intros [H1 H2]; split; try done; by destruct H1.
Qed.

Lemma digits_value_bound (s : string) (acc v : Z) :
  0 ≤ acc → digits_value acc s = Some v → 0 ≤ v.
Proof.
  revert acc. induction s as [|c s IH]; intros acc Hacc; cbn [digits_value].
  - intros [= <-]. exact Hacc.
  - unfold digit. destruct ((48 <=? N_of_ascii c) && (N_of_ascii c <=? 57))%N eqn:E;
      [|discriminate].
    apply andb_true_iff in E as [E1%N.leb_le E2]. apply IH. lia.
Qed.

(** *** [Number] on runs of digits *)

Lemma span_digits_stop (a rest : string) :
  is_digits a = true →
  match rest with EmptyString => True | String c _ => digit c = None end →
  span_digits (a +:+ rest) = (a, rest).
Proof.
  intros Ha Hrest. induction a as [|c a IH].
  - change ("" +:+ rest) with rest. destruct rest as [|d rest]; [reflexivity|].
    cbn [span_digits]. by rewrite Hrest.
  - apply is_digits_cons in Ha as [[v Hv] Ha].
    rewrite app_cons. cbn [span_digits]. by rewrite Hv, (IH Ha).
Qed.

(** A text that starts with digits and goes on with the letter T is no
    numeric literal. *)
Lemma unsigned_decimal_T (neg : bool) (c : ascii) (a r : string) :
  is_digits (String c a) = true →
  unsigned_decimal neg (String c a +:+ String "T" r) = Num.nan.
Proof.
  intros Ha. unfold unsigned_decimal.
  rewrite (span_digits_stop _ _ Ha) by reflexivity.
  apply is_digits_cons in Ha as [Hc _].
  rewrite app_cons.
  assert (E : String.eqb (String c (a +:+ String "T" r)) "Infinity" = false).
  { cbn [String.eqb]. by rewrite (digit_other c "I" Hc). }
  rewrite E. reflexivity.
Qed.

Lemma Number_digits_T (a r : string) :
  is_digits a = true → Number (a +:+ String "T" r) = Num.nan.
Proof.
  intros Ha. unfold Number.
  assert (Htrim : JS.trim (a +:+ String "T" r) = a +:+ String "T" (JS.trimEnd r)).
  { unfold JS.trim.
    assert (Hs : JS.trimStart (a +:+ String "T" r) = a +:+ String "T" r).
    { destruct a as [|c a]; [reflexivity|].
      apply is_digits_cons in Ha as [Hc _]. rewrite app_cons. cbn [JS.trimStart].
      by rewrite (digit_not_ws c Hc). }
    rewrite Hs. by apply trimEnd_after. }
  rewrite Htrim. cbv zeta. generalize (JS.trimEnd r) as r'. intros r'.
  destruct a as [|c a].
  - change ("" +:+ String "T" r') with (String "T" r'). by destruct r'.
  - pose proof Ha as [Hc Ha']%is_digits_cons.
    assert (Hnd : non_decimal (String c a +:+ String "T" r') = None).
    { rewrite app_cons. destruct a as [|d a].
      - change ("" +:+ String "T" r') with (String "T" r'). cbn [non_decimal].
        by destruct (Ascii.eqb c "0").
      - apply is_digits_cons in Ha' as [Hd _]. rewrite app_cons. cbn [non_decimal].
        rewrite (digit_no_radix d Hd). by destruct (Ascii.eqb c "0"). }
    assert (Hne : String.eqb (String c a +:+ String "T" r') "" = false) by reflexivity.
    rewrite Hne, Hnd.
    assert (Hsd : str_decimal (String c a +:+ String "T" r')
                  = unsigned_decimal false (String c a +:+ String "T" r')).
    { rewrite app_cons. cbn [str_decimal].
      by rewrite (digit_other c "+" Hc), (digit_other c "-" Hc). }
    rewrite Hsd. by apply unsigned_decimal_T.
Qed.

(** A run of digits is read as its decimal value. *)
Lemma trim_digits (s : string) : is_digits s = true → JS.trim s = s.
Proof.
  intros Hs. destruct s as [|c s]; [reflexivity|].
  assert (Hsnoc : ∃ a d, String c s = a +:+ String d "" ∧ is_Some (digit d)).
  { clear -Hs. revert c Hs. induction s as [|e s IH]; intros c Hs.
    - apply is_digits_cons in Hs as [Hc _]. by exists "", c.
    - apply is_digits_cons in Hs as [Hc Hs].
      destruct (IH e Hs) as (a & d & -> & Hd). by exists (String c a), d. }
  destruct Hsnoc as (a & d & E & Hd).
  apply is_digits_cons in Hs as [Hc _]. unfold JS.trim.
  assert (Hst : JS.trimStart (String c s) = String c s).
  { cbn [JS.trimStart]. by rewrite (digit_not_ws c Hc). }
  rewrite Hst, E. by rewrite (trimEnd_after a d "" (digit_not_ws d Hd)).
Qed.

Lemma Number_digits (s : string) (v : Z) :
  is_digits s = true → digits_value 0 s = Some v → Number s = Num.of_Z v.
Proof.
  intros Hs Hv. unfold Number. rewrite (trim_digits s Hs). cbv zeta.
  destruct s as [|c s]; [by injection Hv as <-|].
  pose proof Hs as [Hc Hs']%is_digits_cons.
  change (String.eqb (String c s) "") with false. cbv iota.
  assert (Hnd : non_decimal (String c s) = None).
  { destruct s as [|d s]; [reflexivity|].
    apply is_digits_cons in Hs' as [Hd _]. cbn [non_decimal].
    rewrite (digit_no_radix d Hd). by destruct (Ascii.eqb c "0"). }
  rewrite Hnd. cbn [str_decimal].
  rewrite (digit_other c "+" Hc), (digit_other c "-" Hc) by reflexivity.
  unfold unsigned_decimal.
  assert (E : String.eqb (String c s) "Infinity" = false).
  { cbn [String.eqb]. by rewrite (digit_other c "I" Hc). }
  rewrite E.
  rewrite <- (app_empty (String c s)) at 1.
  rewrite (span_digits_stop _ "" Hs I).
  change (String.eqb (String c s) "") with false. cbn [andb].
  rewrite app_empty, Hv. cbn [String.length Z.of_nat Z.sub Z.opp].
  pose proof (digits_value_bound _ _ _ (Z.le_refl 0) Hv) as Hv0.
  unfold Num.of_decimal, Num.of_Z, binary_normalize.
  destruct v as [|p|p]; [reflexivity| |lia].
  change (Z.pos p <=? 0) with false. cbv iota.
  change (0 <=? 0) with true. change (400 <? 0) with false. cbv iota.
  by rewrite Z.pow_0_r, Z.mul_1_r.
Qed.

(** The integers up to 1999 are Numbers of their own. *)
Lemma small_integer (y : Z) :
  0 ≤ y < 2000 → Num.to_integer (Num.of_Z y) = Some y.
Proof.
  intros Hy.
  assert (Hall : forallb (fun k : nat =>
             match Num.to_integer (Num.of_Z (Z.of_nat k)) with
             | Some v => v =? Z.of_nat k
             | None => false
             end) (List.seq 0 2000) = true) by (vm_compute; reflexivity).
  rewrite forallb_forall in Hall.
  specialize (Hall (Z.to_nat y)). rewrite Z2Nat.id in Hall by lia.
  destruct (Num.to_integer (Num.of_Z y)) as [v|].
  - f_equal. apply Z.eqb_eq, Hall, in_seq. lia.
  - discriminate Hall. apply in_seq. lia.
Qed.

(** [Number] on texts that are not plain runs of digits. *)
Example Number_examples :
  Num.to_integer (Number " 2020") = Some 2020 ∧
  Num.to_integer (Number "+2020") = Some 2020 ∧
  Num.to_integer (Number "1e3") = Some 1000 ∧
  Num.to_integer (Number "0x7EA") = Some 2026 ∧
  Num.to_integer (Number "0b101") = Some 5 ∧
  Num.to_integer (Number "12.75") = Some 12 ∧
  Num.to_integer (Number ".5") = Some 0 ∧
  Num.to_integer (Number "") = Some 0 ∧
  Number "0.1" = S754_finite false 7205759403792794 (-56) ∧
  Number "9007199254740993" = Num.of_Z 9007199254740992 ∧
  Number "Infinity" = S754_infinity false ∧
  Number "1e400" = S754_infinity false ∧
  Number "01T10:00:00.000Z" = Num.nan ∧
  Number "1_000" = Num.nan ∧
  Number "0x" = Num.nan ∧
  Number "+0x10" = Num.nan ∧
  Number "1 2" = Num.nan.
Proof. vm_compute. repeat split. Qed.

(** A run of digits followed by the letter T starts a piece that is not
    a number. *)
Lemma split_digits_T (a s : string) :
  is_digits a = true →
  ∃ piece pieces,
    JS.split "-" (a +:+ String "T" s) = piece :: pieces ∧ Number piece = Num.nan.
Proof.
  intros Ha.
  assert (H : ∃ p pieces, JS.split "-" (a +:+ String "T" s)
                          = (a +:+ String "T" p) :: pieces).
  { induction a as [|c a IH].
    - change ("" +:+ String "T" s) with (String "T" s).
      rewrite split_String. change (Ascii.eqb "T" "-") with false. cbv iota.
      destruct (JS.split "-" s) as [|h t]; by eexists _, _.
    - apply is_digits_cons in Ha as [Hc Ha].
      rewrite app_cons, split_String, (digit_not_dash c Hc).
      destruct (IH Ha) as (p & pieces & ->). by eexists _, _. }
  destruct H as (p & pieces & ->). exists (a +:+ String "T" p), pieces.
  split; [reflexivity|]. by apply Number_digits_T.
Qed.

Section ExportFacts.
Variable LocalTZA : Z → bool → Z.
Variable localeDate : Z → string.
Variable writeSheet : list (list (string * string)) → bool.

(** [formatDate] on a timestamp in the format of [toISOString],
    YYYY-MM-DDTHH:mm:ss.sssZ: the third piece between dashes starts with
    the day and goes on with the time, it is not a number, and the date
    that [parseLocalDate] builds is invalid. *)
Lemma formatDate_timestamp (y mo d rest : string) :
  is_digits y = true → is_digits mo = true → is_digits d = true →
  formatDate LocalTZA localeDate
    (Some (y +:+ String "-" (mo +:+ String "-" (d +:+ String "T" rest))))
  = "Invalid Date".
Proof.
  intros Hy Hmo Hd. unfold formatDate, parseLocalDate.
  assert (Ht : JS.truthy (Some (y +:+ String "-" (mo +:+ String "-" (d +:+ String "T" rest)))) = true).
  { apply truthy_Some. by destruct y. }
  rewrite Ht. cbn [negb from_option Datatypes.id].
  rewrite (split_digits_dash y) by exact Hy.
  rewrite (split_digits_dash mo) by exact Hmo.
  destruct (split_digits_T d rest Hd) as (piece & pieces & -> & Hn).
  rewrite !fmap_cons. cbn [lookup list_lookup from_option Datatypes.id]. rewrite Hn.
  unfold JSDate.make.
  destruct (Num.to_integer (Number y)),
           (Num.to_integer (Num.sub (Number mo) (Num.of_Z 1))); reflexivity.
Qed.

(** [formatDate] on the value of a date input, with the zone offsets
    that occur (at most a day either way): the format of the local
    midnight of the day the three pieces name. *)
Lemma formatDate_day (s py pm pd : string) (y m d : Z) :
  (∀ t b, - 86400000 ≤ LocalTZA t b ≤ 86400000) →
  JS.truthy (Some s) = true →
  JS.split "-" s = [py; pm; pd] →
  Num.to_integer (Number py) = Some y →
  Num.to_integer (Num.sub (Number pm) (Num.of_Z 1)) = Some m →
  Num.to_integer (Number pd) = Some d →
  0 ≤ JSDate.MakeDay (if (0 <=? y) && (y <=? 99) then 1900 + y else y) m d ≤ 99999999 →
  formatDate LocalTZA localeDate (Some s) =
    localeDate
      (JSDate.localMidnight LocalTZA
         (JSDate.MakeDay (if (0 <=? y) && (y <=? 99) then 1900 + y else y) m d)).
Proof.
  intros Hz Ht Hs Hy Hm Hd Hr. unfold formatDate, parseLocalDate.
  rewrite Ht. cbn [negb from_option Datatypes.id]. rewrite Hs.
  rewrite !fmap_cons. cbn [lookup list_lookup from_option Datatypes.id].
  unfold JSDate.make. rewrite Hy, Hm, Hd.
  set (day := JSDate.MakeDay _ _ _) in *.
  unfold JSDate.TimeClip.
  destruct (Z.leb_spec (Z.abs (JSDate.localMidnight LocalTZA day)) 8640000000000000)
    as [_|Hbad]; [reflexivity|]. exfalso. revert Hbad.
  unfold JSDate.localMidnight, JSDate.UTC, JSDate.MakeDate, JSDate.msPerDay.
  pose proof (Hz (day * 86400000 + 0) false). lia.
Qed.

(** C9 fails on the column Created (and on Completed for a completed
    task): the export of a board with one task created on 1 November 2026
    and one task completed the day before has the eight columns in the
    stated order, a formatted due date and an empty Completed cell for the
    open task, but "Invalid Date" in Created and in the Completed cell of
    the completed task, whether the library then writes the file or
    fails. *)
Theorem export_timestamps_invalid :
  (∀ t b, - 86400000 ≤ LocalTZA t b ≤ 86400000) →
  snd (exportToExcel LocalTZA localeDate writeSheet "all"
        (setTasks (fun _ =>
           [ new_task sample_draft "k1" "2026-11-01T10:00:00.000Z";
             sample_task "c3" "Completed" (Some "2026-10-31T17:00:00.000Z") ]) initial))
  = Some
      [ [ ("Task Name", "Scan DMZ"); ("Category", "Client Work");
          ("Priority", "Critical"); ("Stage", "In Progress");
          ("Due Date", localeDate (1796083200000 - LocalTZA 1796083200000 false));
          ("Notes", "scope agreed");
          ("Created", "Invalid Date"); ("Completed", "") ];
        [ ("Task Name", "Scan perimeter"); ("Category", "Pen Testing");
          ("Priority", "High"); ("Stage", "Completed");
          ("Due Date", localeDate (1577836800000 - LocalTZA 1577836800000 false));
          ("Notes", "");
          ("Created", "Invalid Date"); ("Completed", "Invalid Date") ] ].
Proof.
  intros Hz.
  assert (H1 : formatDate LocalTZA localeDate (Some "2026-12-01")
               = localeDate (1796083200000 - LocalTZA 1796083200000 false)).
  { rewrite (formatDate_day "2026-12-01" "2026" "12" "01" 2026 11 1);
      [reflexivity | exact Hz | reflexivity.. | vm_compute; split; discriminate]. }
  assert (H2 : formatDate LocalTZA localeDate (Some "2020-01-01")
               = localeDate (1577836800000 - LocalTZA 1577836800000 false)).
  { rewrite (formatDate_day "2020-01-01" "2020" "01" "01" 2020 0 1);
      [reflexivity | exact Hz | reflexivity.. | vm_compute; split; discriminate]. }
  assert (H3 : formatDate LocalTZA localeDate (Some "2026-11-01T10:00:00.000Z")
               = "Invalid Date") by (by apply (formatDate_timestamp "2026" "11" "01")).
  assert (H4 : formatDate LocalTZA localeDate (Some "2026-10-30T08:15:00.000Z")
               = "Invalid Date") by (by apply (formatDate_timestamp "2026" "10" "30")).
  assert (H5 : formatDate LocalTZA localeDate (Some "2026-10-31T17:00:00.000Z")
               = "Invalid Date") by (by apply (formatDate_timestamp "2026" "10" "31")).
  unfold exportToExcel.
  change (JS.seq "all" "completed") with false. cbv iota.
  change (tasks (setTasks _ initial)) with
    [ new_task sample_draft "k1" "2026-11-01T10:00:00.000Z";
      sample_task "c3" "Completed" (Some "2026-10-31T17:00:00.000Z") ].
  cbn [length Nat.eqb snd fmap list_fmap].
  unfold export_row.
  cbn [new_task sample_task sample_draft title priority category due notes stage id
       createdAt completedAt Form.title Form.priority Form.category Form.due
       Form.notes Form.stage].
  rewrite H1, H2, H3, H4, H5. reflexivity.
Qed.
End ExportFacts.

Lemma export_timestamps_invalid_witness :
  snd (exportToExcel sample_zone (fun tv => pretty tv) (fun _ => true) "all"
        (setTasks (fun _ =>
           [ new_task sample_draft "k1" "2026-11-01T10:00:00.000Z";
             sample_task "c3" "Completed" (Some "2026-10-31T17:00:00.000Z") ]) initial))
  = Some
      [ [ ("Task Name", "Scan DMZ"); ("Category", "Client Work");
          ("Priority", "Critical"); ("Stage", "In Progress");
          ("Due Date", pretty (1796083200000 - 3600000));
          ("Notes", "scope agreed");
          ("Created", "Invalid Date"); ("Completed", "") ];
        [ ("Task Name", "Scan perimeter"); ("Category", "Pen Testing");
          ("Priority", "High"); ("Stage", "Completed");
          ("Due Date", pretty (1577836800000 - 3600000));
          ("Notes", "");
          ("Created", "Invalid Date"); ("Completed", "Invalid Date") ] ].
Proof.
  apply (export_timestamps_invalid sample_zone (fun tv => pretty tv) (fun _ => true)).
  exact sample_zone_bounded.
Defined.

(** What does hold of every row: the eight columns in their order, the
    plain fields copied, and an empty Completed cell for a task without a
    completion stamp. *)
Lemma export_row_shape (LocalTZA : Z → bool → Z) (localeDate : Z → string) (x : Task) :
  (export_row LocalTZA localeDate x).*1 =
    ["Task Name"; "Category"; "Priority"; "Stage"; "Due Date"; "Notes";
     "Created"; "Completed"] ∧
  take 4 (export_row LocalTZA localeDate x).*2 =
    [title x; category x; priority x; stage x] ∧
  (export_row LocalTZA localeDate x).*2 !! 5%nat = Some (notes x) ∧
  (completedAt x = None →
   (export_row LocalTZA localeDate x).*2 !! 7%nat = Some "").
Proof.
  repeat split.
  - simpl. unfold JS.truthy. by destruct (notes x).
  - intros H. simpl. by rewrite H.
Qed.

(** ** JSON round trip *)

Module JSONFacts.
Import JSON.

Lemma append_String (x : ascii) (a b : string) :
  String x a +:+ b = String x (a +:+ b).
Proof. reflexivity. Qed.

Lemma append_empty_l (a : string) : "" +:+ a = a.
Proof. reflexivity. Qed.

Lemma append_assoc (a b c : string) : (a +:+ b) +:+ c = a +:+ (b +:+ c).
Proof.
  induction a as [|x a IH]; [reflexivity|].
  by rewrite !append_String, IH.
Qed.

Lemma append_empty_r (a : string) : a +:+ "" = a.
Proof.
  induction a as [|x a IH]; [reflexivity|].
  by rewrite append_String, IH.
Qed.

Lemma length_append (a b : string) :
  String.length (a +:+ b) = (String.length a + String.length b)%nat.
Proof.
  induction a as [|x a IH]; [reflexivity|].
  rewrite append_String. simpl. by rewrite IH.
Qed.

(** Induction on values, with the hypothesis on every member of an array
    and of an object. *)
Fixpoint value_ind (P : value → Prop)
    (HNull : P Null) (HBool : ∀ b, P (Bool b)) (HStr : ∀ s, P (Str s))
    (HArr : ∀ l, Forall P l → P (Arr l))
    (HObj : ∀ l, Forall (fun kv => P (snd kv)) l → P (Obj l))
    (v : value) : P v :=
  match v with
  | Null => HNull
  | Bool b => HBool b
  | Str s => HStr s
  | Arr l =>
      HArr l ((fix go (l : list value) : Forall P l :=
                 match l return Forall P l with
                 | [] => @List.Forall_nil _ P
                 | x :: l' =>
                     @List.Forall_cons _ P x l'
                       (value_ind P HNull HBool HStr HArr HObj x) (go l')
                 end) l)
  | Obj l =>
      HObj l ((fix go (l : list (string * value)) : Forall (fun kv => P (snd kv)) l :=
                 match l return Forall (fun kv => P (snd kv)) l with
                 | [] => @List.Forall_nil _ _
                 | kv :: l' =>
                     @List.Forall_cons _ (fun kv => P (snd kv)) kv l'
                       (value_ind P HNull HBool HStr HArr HObj (snd kv)) (go l')
                 end) l)
  end.

(** The escape of a character reads back as the character. *)
Lemma parse_chars_quote_char (c : ascii) (r : string) :
  parse_chars (quote_char c +:+ r) = cons_fst c (parse_chars r).
Proof.
  destruct c as [b0 b1 b2 b3 b4 b5 b6 b7].
  destruct b0, b1, b2, b3, b4, b5, b6, b7; reflexivity.
Qed.

Lemma parse_chars_quote_body (s rest : string) :
  parse_chars (quote_body s +:+ String dquote rest) = Some (s, rest).
Proof.
  induction s as [|c s IH]; [reflexivity|].
  cbn [quote_body]. rewrite append_assoc, parse_chars_quote_char, IH. reflexivity.
Qed.

Lemma parse_chars_quote (s rest : string) :
  ∃ body, quote s +:+ rest = String dquote body ∧ parse_chars body = Some (s, rest).
Proof.
  exists (quote_body s +:+ String dquote rest). split.
  - unfold quote. by rewrite append_String, append_assoc, append_String.
  - apply parse_chars_quote_body.
Qed.


Lemma stringify_head (v : value) (r : string) :
  ∃ c s', stringify v +:+ r = String c s' ∧ In c heads.
Proof.
  destruct v as [|[]|s|l|l]; eexists _, _; (split; [reflexivity|]); simpl; tauto.
Qed.

Lemma join_cons (x : string) (l : list string) :
  l ≠ [] → join (x :: l) = x +:+ String "," (join l).
Proof. by destruct l. Qed.

Lemma skip_ws_comma (s : string) : skip_ws (String "," s) = String "," s.
Proof. reflexivity. Qed.

Lemma skip_ws_colon (s : string) : skip_ws (String ":" s) = String ":" s.
Proof. reflexivity. Qed.

(** Unfolding equations of the parser. *)
Lemma parse_value_str (f : nat) (body : string) :
  parse_value (S f) (String dquote body) =
    '(str, rest) ← parse_chars body; Some (Str str, rest).
Proof. reflexivity. Qed.

Lemma parse_value_arr (f : nat) (c : ascii) (s' : string) :
  In c heads →
  parse_value (S f) (String "[" (String c s')) =
    '(l, rest) ← parse_elements f (String c s'); Some (Arr l, rest).
Proof. intros [<-|[<-|[<-|[<-|[<-|[<-|[]]]]]]]; reflexivity. Qed.

Lemma parse_value_obj (f : nat) (s' : string) :
  parse_value (S f) (String "{" (String dquote s')) =
    '(l, rest) ← parse_members f (String dquote s'); Some (Obj l, rest).
Proof. reflexivity. Qed.

Lemma parse_elements_eq (f : nat) (s : string) :
  parse_elements (S f) s =
    '(v, r) ← parse_value f s;
    match skip_ws r with
    | String "," r' => '(l, rest) ← parse_elements f r'; Some (v :: l, rest)
    | String "]" rest => Some ([v], rest)
    | _ => None
    end.
Proof. reflexivity. Qed.

Lemma parse_members_eq (f : nat) (body : string) :
  parse_members (S f) (String dquote body) =
    '(k, r) ← parse_chars body;
    match skip_ws r with
    | String ":" r1 =>
        '(v, r2) ← parse_value f r1;
        match skip_ws r2 with
        | String "," r3 =>
            '(l, rest) ← parse_members f r3; Some ((k, v) :: l, rest)
        | String "}" rest => Some ([(k, v)], rest)
        | _ => None
        end
    | _ => None
    end.
Proof. reflexivity. Qed.


(** The elements of a non-empty array, up to the closing bracket. *)
Lemma parse_elements_join (l : list value) :
  Forall (fun v => ∀ fuel rest, (size v ≤ fuel)%nat →
            parse_value fuel (stringify v +:+ rest) = Some (v, rest)) l →
  l ≠ [] →
  ∀ fuel rest,
    (list_sum (List.map (fun v => S (size v)) l) ≤ fuel)%nat →
    parse_elements fuel (join (List.map stringify l) +:+ String "]" rest)
      = Some (l, rest).
Proof.
  induction 1 as [|v l Hv Hl IH]; intros Hne fuel rest Hfuel; [done|].
  simpl in Hfuel.
  destruct fuel as [|f]; [lia|]. rewrite parse_elements_eq.
  destruct l as [|v2 l].
  - cbn [List.map join]. rewrite Hv by lia. reflexivity.
  - change (List.map stringify (v :: v2 :: l))
      with (stringify v :: List.map stringify (v2 :: l)).
    rewrite join_cons, append_assoc, append_String by done.
    rewrite Hv by lia. cbn [mbind option_bind].
    rewrite skip_ws_comma, IH by (first [done | simpl in *; lia]).
    reflexivity.
Qed.

(** The members of a non-empty object, up to the closing brace. *)
Lemma parse_members_join (l : list (string * value)) :
  Forall (fun kv => ∀ fuel rest, (size (snd kv) ≤ fuel)%nat →
            parse_value fuel (stringify (snd kv) +:+ rest) = Some (snd kv, rest)) l →
  l ≠ [] →
  ∀ fuel rest,
    (list_sum (List.map (fun kv => S (size (snd kv))) l) ≤ fuel)%nat →
    parse_members fuel (join (List.map member l) +:+ String "}" rest)
      = Some (l, rest).
Proof.
  induction 1 as [|[k v] l Hv Hl IH]; intros Hne fuel rest Hfuel; [done|].
  simpl in Hfuel, Hv.
  destruct fuel as [|f]; [lia|].
  destruct l as [|kv2 l].
  - cbn [List.map join]. unfold member at 1. cbn [fst snd].
    rewrite !append_assoc.
    destruct (parse_chars_quote k (":" +:+ stringify v +:+ String "}" rest))
      as (body & -> & Hbody).
    rewrite parse_members_eq, Hbody. cbn [mbind option_bind].
    rewrite append_String, append_empty_l, skip_ws_colon.
    rewrite Hv by lia. reflexivity.
  - change (List.map member ((k, v) :: kv2 :: l))
      with (member (k, v) :: List.map member (kv2 :: l)).
    rewrite join_cons by done. unfold member at 1. cbn [fst snd].
    rewrite !append_assoc.
    match goal with |- context [quote k +:+ ?X] =>
      destruct (parse_chars_quote k X) as (body & -> & Hbody) end.
    rewrite parse_members_eq, Hbody. cbn [mbind option_bind].
    rewrite append_String, append_empty_l, skip_ws_colon.
    rewrite append_String.
    rewrite Hv by lia. cbn [mbind option_bind].
    rewrite skip_ws_comma, IH by (first [done | simpl in *; lia]).
    reflexivity.
Qed.

Lemma stringify_Arr (l : list value) (rest : string) :
  stringify (Arr l) +:+ rest
  = String "[" (join (List.map stringify l) +:+ String "]" rest).
Proof.
  change (stringify (Arr l)) with ("[" +:+ join (List.map stringify l) +:+ "]").
  by rewrite !append_assoc.
Qed.

Lemma stringify_Obj (l : list (string * value)) (rest : string) :
  stringify (Obj l) +:+ rest
  = String "{" (join (List.map member l) +:+ String "}" rest).
Proof.
  change (stringify (Obj l)) with ("{" +:+ join (List.map member l) +:+ "}").
  by rewrite !append_assoc.
Qed.

(** Parsing what [stringify] wrote gives the value back and leaves what
    follows it, for every fuel from the size of the value on. *)
Lemma parse_value_stringify (v : value) :
  ∀ fuel rest, (size v ≤ fuel)%nat →
    parse_value fuel (stringify v +:+ rest) = Some (v, rest).
Proof.
  induction v as [|b|s|l IH|l IH] using value_ind; intros fuel rest Hfuel;
    (destruct fuel as [|f]; [simpl in Hfuel; lia|]).
  - reflexivity.
  - by destruct b.
  - cbn [stringify].
    destruct (parse_chars_quote s rest) as (body & -> & Hbody).
    by rewrite parse_value_str, Hbody.
  - rewrite stringify_Arr.
    destruct l as [|v l]; [reflexivity|].
    simpl in Hfuel.
    pose proof (parse_elements_join (v :: l) IH ltac:(done) f rest ltac:(simpl; lia)) as Hp.
    revert Hp. change (List.map stringify (v :: l))
      with (stringify v :: List.map stringify l).
    destruct (stringify_head v "") as (c & s' & Hc & Hin).
    rewrite append_empty_r in Hc.
    assert (Hj : ∃ s'', join (stringify v :: List.map stringify l) = String c s'').
    { destruct (List.map stringify l); [by exists s'|].
      rewrite join_cons, Hc by done. by eexists. }
    destruct Hj as (s'' & ->). rewrite !append_String. intros Hp.
    by rewrite parse_value_arr, Hp.
  - rewrite stringify_Obj.
    destruct l as [|[k v] l]; [reflexivity|].
    simpl in Hfuel.
    pose proof (parse_members_join ((k, v) :: l) IH ltac:(done) f rest ltac:(simpl; lia)) as Hp.
    revert Hp.
    change (List.map member ((k, v) :: l)) with (member (k, v) :: List.map member l).
    assert (Hj : ∃ s'', join (member (k, v) :: List.map member l) = String dquote s'').
    { destruct (List.map member l); [by eexists|].
      rewrite join_cons by done. by eexists. }
    destruct Hj as (s'' & ->). rewrite !append_String. intros Hp.
    by rewrite parse_value_obj, Hp.
Qed.

Lemma length_join_elements (l : list value) :
  Forall (fun v => (size v ≤ String.length (stringify v))%nat) l →
  (list_sum (List.map (fun v => S (size v)) l)
     ≤ S (String.length (join (List.map stringify l))))%nat.
Proof.
  induction 1 as [|v l Hv Hl IH]; [simpl; lia|].
  destruct l as [|v2 l]; [simpl in *; lia|].
  change (List.map stringify (v :: v2 :: l))
    with (stringify v :: List.map stringify (v2 :: l)).
  rewrite join_cons, length_append by done.
  simpl in *. lia.
Qed.

Lemma length_join_members (l : list (string * value)) :
  Forall (fun kv => (size (snd kv) ≤ String.length (stringify (snd kv)))%nat) l →
  (list_sum (List.map (fun kv => S (size (snd kv))) l)
     ≤ S (String.length (join (List.map member l))))%nat.
Proof.
  assert (Hm : ∀ kv, (String.length (stringify (snd kv)) ≤ String.length (member kv))%nat).
  { intros kv. unfold member. rewrite !length_append. lia. }
  induction 1 as [|kv l Hv Hl IH]; [simpl; lia|].
  specialize (Hm kv).
  destruct l as [|kv2 l]; [simpl in *; lia|].
  change (List.map member (kv :: kv2 :: l))
    with (member kv :: List.map member (kv2 :: l)).
  rewrite join_cons, length_append by done.
  simpl in *. lia.
Qed.

(** The length of the text is fuel enough. *)
Lemma size_le_length (v : value) : (size v ≤ String.length (stringify v))%nat.
Proof.
  induction v as [|b|s|l IH|l IH] using value_ind.
  - simpl. lia.
  - destruct b; simpl; lia.
  - simpl. lia.
  - pose proof (length_join_elements l IH).
    pose proof (stringify_Arr l "") as E. rewrite append_empty_r in E. rewrite E.
    simpl. rewrite length_append. simpl. lia.
  - pose proof (length_join_members l IH).
    pose proof (stringify_Obj l "") as E. rewrite append_empty_r in E. rewrite E.
    simpl. rewrite length_append. simpl. lia.
Qed.

(** [JSON.parse(JSON.stringify(v))] is [v]. *)
Lemma parse_stringify (v : value) : parse (stringify v) = Some v.
Proof.
  unfold parse.
  rewrite <- (append_empty_r (stringify v)) at 2.
  rewrite parse_value_stringify by (pose proof (size_le_length v); lia).
  reflexivity.
Qed.

End JSONFacts.

(** ** Persistence round trip *)

Lemma task_of_json_of_task (x : Task) : task_of_json (json_of_task x) = Some x.
Proof. destruct x as [a b c d e f g h [s|]]; reflexivity. Qed.

Lemma tasks_of_json_of_tasks (C : list Task) :
  tasks_of_json (json_of_tasks C) = Some C.
Proof.
  unfold tasks_of_json, json_of_tasks. apply mapM_Some.
  induction C as [|x C IH]; constructor; [apply task_of_json_of_task|exact IH].
Qed.

(** The text the program stores is never the empty string. *)
Lemma stringify_tasks_truthy (C : list Task) :
  JS.truthy (Some (JSON.stringify (json_of_tasks C))) = true.
Proof.
  unfold json_of_tasks.
  pose proof (JSONFacts.stringify_Arr (json_of_task <$> C) "") as E.
  rewrite JSONFacts.append_empty_r in E. rewrite E. reflexivity.
Qed.

Lemma save_eq (C : list Task) (ls : Storage) :
  (N.of_nat (String.length (JSON.stringify (json_of_tasks C))) ≤ quota ls)%N →
  save C ls =
    mkStorage (<["cybertasks" := JSON.stringify (json_of_tasks C)]> (items ls))
              (quota ls).
Proof.
  intros Hq. unfold save, persist_effect, setItem.
  cbn [loaded tasks setLoaded setTasks negb].
  destruct (N.leb_spec (N.of_nat (String.length (JSON.stringify (json_of_tasks C))))
                       (quota ls)); [reflexivity|lia].
Qed.

(** What the persist effect of a loaded application stores. *)
Lemma persist_effect_save (st : AppState) (ls : Storage) :
  loaded st = true →
  (N.of_nat (String.length (JSON.stringify (json_of_tasks (tasks st)))) ≤ quota ls)%N →
  persist_effect st ls = (st, save (tasks st) ls).
Proof.
  intros Hl Hq. rewrite save_eq by exact Hq.
  unfold persist_effect, setItem. rewrite Hl. cbn [negb].
  destruct (N.leb_spec (N.of_nat (String.length (JSON.stringify (json_of_tasks (tasks st)))))
                       (quota ls)); [reflexivity|lia].
Qed.

(** C6. When the store accepts the serialised collection, loading after
    saving gives the collection back, field by field: the load effect of
    a freshly mounted application parses the stored text to exactly [C]
    and marks the state loaded; and the persist effect that runs right
    after this load writes the very same text, leaving the store as it
    was. *)
Theorem load_save_round_trip (C : list Task) (ls : Storage) :
  (N.of_nat (String.length (JSON.stringify (json_of_tasks C))) ≤ quota ls)%N →
  load (save C ls) = Some C ∧
  ∃ st,
    load_effect (save C ls) initial = Some st ∧
    tasks st = C ∧ loaded st = true ∧ toast st = None ∧
    getItem "cybertasks" (save C ls) = Some (JSON.stringify (json_of_tasks C)) ∧
    persist_effect st (save C ls) = (st, save C ls).
Proof.
  intros Hq.
  assert (Hload : load_effect (save C ls) initial
                  = Some (setLoaded true (setTasks (fun _ => C) initial))).
  { rewrite save_eq by exact Hq. unfold load_effect, getItem. cbn [items].
    rewrite lookup_insert_eq, stringify_tasks_truthy. cbn [from_option Datatypes.id].
    rewrite JSONFacts.parse_stringify, tasks_of_json_of_tasks. reflexivity. }
  split; [unfold load; by rewrite Hload|].
  eexists. split; [exact Hload|]. repeat split.
  - rewrite save_eq by exact Hq. unfold getItem. cbn [items].
    apply lookup_insert_eq.
  - rewrite persist_effect_save; [|reflexivity|].
    + f_equal. cbn [tasks setLoaded setTasks].
      rewrite (save_eq C ls) by exact Hq.
      rewrite save_eq by exact Hq. cbn [items quota].
      by rewrite insert_insert_eq.
    + rewrite save_eq by exact Hq. exact Hq.
Qed.

Lemma load_save_round_trip_witness :
  load (save (tasks sample_state) sample_storage) = Some (tasks sample_state) ∧
  ∃ st,
    load_effect (save (tasks sample_state) sample_storage) initial = Some st ∧
    tasks st = tasks sample_state ∧ loaded st = true ∧ toast st = None ∧
    getItem "cybertasks" (save (tasks sample_state) sample_storage)
      = Some (JSON.stringify (json_of_tasks (tasks sample_state))) ∧
    persist_effect st (save (tasks sample_state) sample_storage)
      = (st, save (tasks sample_state) sample_storage).
Proof.
  apply (load_save_round_trip (tasks sample_state) sample_storage).
  vm_compute. discriminate.
Defined.

Example stored_text_of_sample :
  JSON.stringify (json_of_tasks [sample_task "a1" "Backlog" None]) =
    String "[" (String "{" (
      JSON.quote "title" +:+ ":" +:+ JSON.quote "Scan perimeter" +:+ "," +:+
      JSON.quote "priority" +:+ ":" +:+ JSON.quote "High" +:+ "," +:+
      JSON.quote "category" +:+ ":" +:+ JSON.quote "Pen Testing" +:+ "," +:+
      JSON.quote "due" +:+ ":" +:+ JSON.quote "2020-01-01" +:+ "," +:+
      JSON.quote "notes" +:+ ":" +:+ JSON.quote "" +:+ "," +:+
      JSON.quote "stage" +:+ ":" +:+ JSON.quote "Backlog" +:+ "," +:+
      JSON.quote "id" +:+ ":" +:+ JSON.quote "a1" +:+ "," +:+
      JSON.quote "createdAt" +:+ ":" +:+ JSON.quote "2026-10-30T08:15:00.000Z" +:+ "," +:+
      JSON.quote "completedAt" +:+ ":null}]")).
Proof. reflexivity. Qed.

Lemma same_keys_eq (a b : list string) : same_keys a b = true → a = b.
Proof.
  revert b. induction a as [|x a IH]; intros [|y b]; simpl; try done.
  intros [->%String.eqb_eq ->%IH]%andb_true_iff. reflexivity.
Qed.

(** A parsed value that is a task object is the value of that task. *)
Lemma json_of_task_of_json (v : JSON.value) (x : Task) :
  task_of_json v = Some x → json_of_task x = v.
Proof.
  destruct v as [| | |l|l]; try discriminate. unfold task_of_json.
  do 9 (destruct l as [|[? []] l]; try discriminate).
  all: destruct l; try discriminate.
  all: destruct (same_keys _ _) eqn:Ek; try discriminate.
  all: apply same_keys_eq in Ek; injection Ek as -> -> -> -> -> -> -> -> ->.
  all: intros [= <-]; reflexivity.
Qed.

Lemma json_of_tasks_of_json (v : JSON.value) (t : list Task) :
  tasks_of_json v = Some t → json_of_tasks t = v.
Proof.
  destruct v as [| | |l|l]; try discriminate. unfold tasks_of_json, json_of_tasks.
  intros H%mapM_Some. f_equal.
  induction H as [|v x l t Hx _ IH]; [reflexivity|].
  rewrite fmap_cons, IH. f_equal. by apply json_of_task_of_json.
Qed.

(** X10. A stored text is rewritten to an equivalent one.  When the text
    under the key is a JSON array of task objects as the program writes
    them (the nine properties in the program's order, strings for all
    but [completedAt], which is a string or [null]), whatever the white
    space between its tokens and the escapes in its strings, the load
    effect puts these tasks into the state, and the persist effect that
    follows stores a text that parses to the same value. *)
Lemma persist_after_load_equivalent (ls : Storage) (s : string) (v : JSON.value)
    (t : list Task) (st0 : AppState) :
  getItem "cybertasks" ls = Some s →
  JSON.parse s = Some v →
  tasks_of_json v = Some t →
  (N.of_nat (String.length (JSON.stringify v)) ≤ quota ls)%N →
  ∃ st ls',
    load_effect ls st0 = Some st ∧ tasks st = t ∧
    persist_effect st ls = (st, ls') ∧
    getItem "cybertasks" ls' ≫= JSON.parse = Some v.
Proof.
  intros Hget Hparse Hdec Hq.
  assert (Hs : JS.truthy (Some s) = true).
  { apply truthy_Some. intros ->. discriminate. }
  pose proof (json_of_tasks_of_json v t Hdec) as Hv.
  exists (setLoaded true (setTasks (fun _ => t) st0)),
         (save t ls).
  assert (Hq' : (N.of_nat (String.length (JSON.stringify (json_of_tasks t))) ≤ quota ls)%N)
    by (by rewrite Hv).
  split; [|split; [|split]].
  - unfold load_effect. rewrite Hget, Hs. cbn [from_option Datatypes.id].
    rewrite Hparse, Hdec. reflexivity.
  - by destruct st0.
  - rewrite persist_effect_save; [by destruct st0| by destruct st0 |].
    by destruct st0.
  - rewrite save_eq by exact Hq'. unfold getItem. cbn [items].
    rewrite lookup_insert_eq. cbn [mbind option_bind].
    rewrite Hv. apply JSONFacts.parse_stringify.
Qed.

Example persist_after_load_blanks :
  let ls := mkStorage {[ "cybertasks" := spaced_text ]} 5000000 in
  ∃ st ls',
    load_effect ls initial = Some st ∧
    tasks st = [sample_task "a1" "Backlog" None] ∧
    persist_effect st ls = (st, ls') ∧
    getItem "cybertasks" ls'
      = Some (JSON.stringify (json_of_tasks [sample_task "a1" "Backlog" None])) ∧
    getItem "cybertasks" ls' ≠ Some spaced_text.
Proof.
  eexists _, _. repeat split. vm_compute. discriminate.
Qed.

(** * Further properties *)

(** ** The collection after an operation *)

(** The collection an operation leaves depends on the collection it
    meets and on nothing else of the state. *)
Lemma apply_op_tasks (op : Op) (st : AppState) :
  tasks (apply_op op st) = tasks_after op (tasks st).
Proof.
  destruct op as [draft newId now|i draft newId now|i dir now|i col now|i text|i];
    cbn [apply_op tasks_after].
  - unfold create, saveTask. cbn [formData setEditId setFormData editId].
    destruct (size (validateForm draft) =? 0)%nat; reflexivity.
  - unfold update, saveTask. cbn [formData setEditId setFormData editId JS.truthy].
    destruct (size (validateForm draft) =? 0)%nat; [|reflexivity].
    cbn [negb]. destruct (i =? "")%string; reflexivity.
  - reflexivity.
  - unfold setStage, onDrop, onDragStart.
    cbn [dragging setDragging JS.truthy tasks JS.seq_opt].
    destruct (i =? "")%string; [reflexivity|]. cbn [negb].
    unfold JS.seq. destruct (JS.find _ _) as [task|]; [|reflexivity].
    destruct (stage task =? col)%string; reflexivity.
  - unfold setNotes, saveNote. cbn [noteText setNoteText setActiveNote activeNote].
    destruct (MAX_NOTES <? String.length text)%nat; reflexivity.
  - reflexivity.
Qed.

Lemma validateForm_size (d : Form.t) :
  (size (validateForm d) =? 0)%nat = true ↔ validateForm d = ∅.
Proof. rewrite Nat.eqb_eq. apply map_size_empty_iff. Qed.

Lemma runs_with_invariant (ok : Op → list Task → Prop) (I : list Task → Prop) :
  (∀ op t, ok op t → I t → I (tasks_after op t)) →
  ∀ st ops st', I (tasks st) → runs_with ok st ops st' → I (tasks st').
Proof.
  intros Hstep st ops st' HI Hruns.
  induction Hruns as [st|st op ops st' Hok _ IH]; [exact HI|].
  apply IH. rewrite apply_op_tasks. by apply Hstep.
Qed.

(** ** Creating, rejecting and deleting *)

Lemma find_app_last (i : string) (t : list Task) (x : Task) :
  (∀ y, y ∈ t → id y ≠ i) → id x = i →
  JS.find (fun y => JS.seq (id y) i) (t ++ [x]) = Some x.
Proof.
  intros Ht Hx. induction t as [|y t IH]; simpl.
  - apply seq_true in Hx. by rewrite Hx.
  - assert (Hy : JS.seq (id y) i = false) by (apply seq_false, Ht, list_elem_of_here).
    rewrite Hy. apply IH. intros z Hz. apply Ht. by apply list_elem_of_further.
Qed.

(** X1. A draft that passes validation is appended as a new task at the
    end of the collection, with the fields of the draft, the given
    identifier and creation stamp and no completion stamp; the tasks
    before it stay as they were, the form is closed with its errors
    cleared and the toast announces the creation.  When no task had the
    identifier, looking it up finds the new task. *)
Theorem create_appends (draft : Form.t) (newId now : string) (st : AppState) :
  validateForm draft = ∅ →
  tasks (create draft newId now st) =
    tasks st ++ [mkTask (Form.title draft) (Form.priority draft) (Form.category draft)
                        (Form.due draft) (Form.notes draft) (Form.stage draft)
                        newId now None] ∧
  showForm (create draft newId now st) = false ∧
  formErrors (create draft newId now st) = ∅ ∧
  toast (create draft newId now st) = Some "✅ Task created." ∧
  ((∀ y, y ∈ tasks st → id y ≠ newId) →
   JS.find (fun y => JS.seq (id y) newId) (tasks (create draft newId now st)) =
     Some (mkTask (Form.title draft) (Form.priority draft) (Form.category draft)
                  (Form.due draft) (Form.notes draft) (Form.stage draft)
                  newId now None)).
Proof.
  intros Hv.
  assert (E : create draft newId now st =
              closeForm (showToast "✅ Task created."
                (setTasks (fun t => t ++ [new_task draft newId now])
                   (setEditId None (setFormData draft st))))).
  { unfold create, saveTask. cbn [formData setEditId setFormData editId JS.truthy].
    rewrite Hv. reflexivity. }
  rewrite E. repeat split.
  intros Hfresh. by apply find_app_last.
Qed.

Lemma create_appends_witness :
  tasks (create sample_draft "d4" "2026-11-01T10:00:00.000Z" sample_state) =
    tasks sample_state ++
      [mkTask "Scan DMZ" "Critical" "Client Work" "2026-12-01" "scope agreed"
              "In Progress" "d4" "2026-11-01T10:00:00.000Z" None] ∧
  JS.find (fun y => JS.seq (id y) "d4")
          (tasks (create sample_draft "d4" "2026-11-01T10:00:00.000Z" sample_state)) =
    Some (mkTask "Scan DMZ" "Critical" "Client Work" "2026-12-01" "scope agreed"
                 "In Progress" "d4" "2026-11-01T10:00:00.000Z" None).
Proof.
  destruct (create_appends sample_draft "d4" "2026-11-01T10:00:00.000Z" sample_state)
    as (Ht & _ & _ & _ & Hf); [vm_compute; reflexivity|].
  split; [exact Ht|]. apply Hf.
  intros y Hy. unfold sample_state in Hy. simpl in Hy.
  rewrite !elem_of_cons, elem_of_nil in Hy.
  destruct Hy as [->|[->|[->|[]]]]; discriminate.
Defined.

(** X2. A draft that fails validation changes nothing but the errors of
    the form: whether a task is being created or edited, [saveTask] leaves
    the collection, the toast, the edited identifier and the draft as
    they were, keeps the form as it was (open), and shows the errors of
    [validateForm]. *)
Theorem invalid_draft_rejected (newId now : string) (st : AppState) :
  validateForm (formData st) ≠ ∅ →
  tasks (saveTask newId now st) = tasks st ∧
  toast (saveTask newId now st) = toast st ∧
  showForm (saveTask newId now st) = showForm st ∧
  editId (saveTask newId now st) = editId st ∧
  formData (saveTask newId now st) = formData st ∧
  formErrors (saveTask newId now st) = validateForm (formData st).
Proof.
  intros Hv. unfold saveTask.
  destruct (size (validateForm (formData st)) =? 0)%nat eqn:E.
  - by apply validateForm_size in E.
  - repeat split.
Qed.

Lemma invalid_draft_rejected_witness :
  tasks (saveTask "d4" "2026-11-01T10:00:00.000Z"
           (setShowForm true (setFormData DEFAULT_TASK sample_state)))
    = tasks sample_state ∧
  formErrors (saveTask "d4" "2026-11-01T10:00:00.000Z"
                (setShowForm true (setFormData DEFAULT_TASK sample_state))) !! "title"
    = Some "Title is required.".
Proof.
  destruct (invalid_draft_rejected "d4" "2026-11-01T10:00:00.000Z"
              (setShowForm true (setFormData DEFAULT_TASK sample_state)))
    as (Ht & _ & _ & _ & _ & He).
  - intros H. apply (f_equal (fun m => m !! "title")) in H. vm_compute in H. discriminate.
  - split; [exact Ht|]. rewrite He. reflexivity.
Defined.

(** X3. Deleting identifier [i] removes exactly the tasks that have it:
    a task is in the collection afterwards if and only if it was there
    and has another identifier; the remaining tasks keep their order; a
    lookup of [i] finds nothing; deleting again, or deleting an
    identifier no task has, leaves the collection as it is. *)
Theorem delete_removes (i : string) (st : AppState) :
  (∀ x, x ∈ tasks (deleteTask i st) ↔ x ∈ tasks st ∧ id x ≠ i) ∧
  sublist (tasks (deleteTask i st)) (tasks st) ∧
  JS.find (fun x => JS.seq (id x) i) (tasks (deleteTask i st)) = None ∧
  tasks (deleteTask i (deleteTask i st)) = tasks (deleteTask i st) ∧
  ((∀ x, x ∈ tasks st → id x ≠ i) → tasks (deleteTask i st) = tasks st).
Proof.
  unfold deleteTask. cbn [tasks showToast setTasks].
  generalize (tasks st) as t. intros t.
  assert (Hmem : ∀ x, x ∈ List.filter (fun x => negb (JS.seq (id x) i)) t ↔ x ∈ t ∧ id x ≠ i).
  { intros x. rewrite !list_elem_of_In, filter_In, negb_true_iff, seq_false. tauto. }
  split; [exact Hmem|]. clear Hmem. split; [|split; [|split]].
  - induction t as [|y t IH]; simpl; [constructor|].
    destruct (negb (JS.seq (id y) i)); constructor; exact IH.
  - induction t as [|y t IH]; simpl; [reflexivity|].
    destruct (JS.seq (id y) i) eqn:E; simpl; [exact IH|]. by rewrite E.
  - induction t as [|y t IH]; simpl; [reflexivity|].
    destruct (negb (JS.seq (id y) i)) eqn:E; simpl; [|exact IH].
    by rewrite E, IH.
  - intros Habs. induction t as [|y t IH]; simpl; [reflexivity|].
    assert (Hy : JS.seq (id y) i = false) by (apply seq_false, Habs, list_elem_of_here).
    rewrite Hy. simpl. f_equal. apply IH.
    intros x Hx. apply Habs. by apply list_elem_of_further.
Qed.

Lemma delete_removes_witness :
  tasks (deleteTask "b2" sample_state) =
    [ sample_task "a1" "Backlog" None;
      sample_task "c3" "Completed" (Some "2026-10-31T17:00:00.000Z") ] ∧
  tasks (deleteTask "zz" sample_state) = tasks sample_state.
Proof.
  destruct (delete_removes "zz" sample_state) as (_ & _ & _ & _ & Habs).
  split; [reflexivity|]. apply Habs.
  intros x Hx. unfold sample_state in Hx. simpl in Hx.
  rewrite !elem_of_cons, elem_of_nil in Hx.
  destruct Hx as [->|[->|[->|[]]]]; discriminate.
Defined.

(** ** Invariants along sequences of operations *)

Lemma fmap_keeps {B} (g : Task → B) (f : Task → Task) (t : list Task) :
  (∀ x, g (f x) = g x) → g <$> (f <$> t) = g <$> t.
Proof.
  intros H. rewrite <- list_fmap_compose. apply list_fmap_ext. intros _ x _. apply H.
Qed.

Lemma moveTask_one_id (i : string) (dir : Z) (now : string) (x : Task) :
  id (moveTask_one i dir now x) = id x ∧
  createdAt (moveTask_one i dir now x) = createdAt x ∧
  title (moveTask_one i dir now x) = title x ∧
  notes (moveTask_one i dir now x) = notes x.
Proof.
  unfold moveTask_one. destruct (negb (JS.seq (id x) i)); [done|].
  destruct (negb (JS.truthy _)); done.
Qed.

Lemma filter_fmap_NoDup {B} (g : Task → B) (p : Task → bool) (t : list Task) :
  NoDup (g <$> t) → NoDup (g <$> List.filter p t).
Proof.
  induction t as [|y t IH]; [done|].
  rewrite fmap_cons, NoDup_cons. intros [Hy Ht]. cbn [List.filter].
  destruct (p y); [|by apply IH].
  rewrite fmap_cons, NoDup_cons. split; [|by apply IH].
  intros Hin. apply Hy. apply list_elem_of_fmap in Hin as (z & -> & Hz).
  apply list_elem_of_fmap. exists z. split; [done|].
  apply list_elem_of_In in Hz. apply filter_In in Hz as [Hz _]. by apply list_elem_of_In.
Qed.

Lemma ids_unique_step (op : Op) (t : list Task) :
  brings_fresh_id op t → ids_unique t → ids_unique (tasks_after op t).
Proof.
  unfold ids_unique.
  destruct op as [draft newId now|i draft newId now|i dir now|i col now|i text|i];
    cbn [brings_fresh_id tasks_after]; intros Hok Hnd.
  - destruct (size _ =? 0)%nat; [|exact Hnd].
    rewrite fmap_app. apply NoDup_app. split; [exact Hnd|]. split.
    + intros x Hx. cbn. rewrite list_elem_of_singleton. by intros ->.
    + cbn. apply NoDup_singleton.
  - destruct (size _ =? 0)%nat; [|exact Hnd].
    apply String.eqb_neq in Hok. rewrite Hok.
    rewrite fmap_keeps; [exact Hnd|]. intros x. by destruct (JS.seq (id x) i).
  - rewrite fmap_keeps; [exact Hnd|]. intros x. apply moveTask_one_id.
  - destruct (i =? "")%string; [exact Hnd|].
    destruct (JS.find _ _) as [task|]; [|exact Hnd].
    destruct (JS.seq (stage task) col); [exact Hnd|].
    rewrite fmap_keeps; [exact Hnd|]. intros x. by destruct (JS.seq (id x) i).
  - destruct (MAX_NOTES <? _)%nat; [exact Hnd|].
    rewrite fmap_keeps; [exact Hnd|]. intros x. by destruct (JS.seq (id x) i).
  - by apply filter_fmap_NoDup.
Qed.

(** X4. Identifiers stay unique: from a collection in which no two tasks
    share an identifier, every sequence of operations in which each
    creation brings an identifier no task has yet (and each edit names a
    non-empty identifier) leads to a collection in which no two tasks
    share an identifier. *)
Theorem ids_unique_preserved (st : AppState) (ops : list Op) (st' : AppState) :
  ids_unique (tasks st) → runs_with brings_fresh_id st ops st' →
  ids_unique (tasks st').
Proof. apply runs_with_invariant, ids_unique_step. Qed.

Lemma at_index_elem {A} (l : list A) (k : Z) (x : A) :
  JS.at_index l k = Some x → x ∈ l.
Proof.
  unfold JS.at_index. destruct (k <? 0); [discriminate|].
  intros H. by eapply list_elem_of_lookup_2.
Qed.

Lemma moveTask_one_stage (i : string) (dir : Z) (now : string) (x : Task) :
  stage x ∈ COLUMNS → stage (moveTask_one i dir now x) ∈ COLUMNS.
Proof.
  intros Hx. unfold moveTask_one. destruct (negb (JS.seq (id x) i)); [done|].
  destruct (JS.at_index COLUMNS _) as [next|] eqn:E; [|done].
  destruct (negb (JS.truthy (Some next))); [done|]. cbn.
  by eapply at_index_elem.
Qed.

Lemma filter_elem (p : Task → bool) (t : list Task) (x : Task) :
  x ∈ List.filter p t → x ∈ t.
Proof. rewrite !list_elem_of_In, filter_In. tauto. Qed.

Lemma stages_valid_step (op : Op) (t : list Task) :
  names_column op t → stages_valid t → stages_valid (tasks_after op t).
Proof.
  unfold stages_valid.
  assert (Hmap : ∀ f : Task → Task,
            (∀ x, stage x ∈ COLUMNS → stage (f x) ∈ COLUMNS) →
            (∀ x, x ∈ t → stage x ∈ COLUMNS) →
            ∀ x, x ∈ f <$> t → stage x ∈ COLUMNS).
  { intros f Hf Ht x Hx. apply list_elem_of_fmap in Hx as (y & -> & Hy). auto. }
  assert (Happ : ∀ y : Task, stage y ∈ COLUMNS →
            (∀ x, x ∈ t → stage x ∈ COLUMNS) →
            ∀ x, x ∈ t ++ [y] → stage x ∈ COLUMNS).
  { intros y Hy Ht x Hx. apply elem_of_app in Hx as [Hx|Hx]; [auto|].
    by apply list_elem_of_singleton in Hx as ->. }
  destruct op as [draft newId now|i draft newId now|i dir now|i col now|i text|i];
    cbn [names_column tasks_after]; intros Hok Ht.
  - destruct (size _ =? 0)%nat; [|exact Ht]. by apply Happ.
  - destruct (size _ =? 0)%nat; [|exact Ht].
    destruct (i =? "")%string; [by apply Happ|].
    apply Hmap; [|exact Ht]. intros x Hx. by destruct (JS.seq (id x) i).
  - apply Hmap; [|exact Ht]. intros x. apply moveTask_one_stage.
  - destruct (i =? "")%string; [exact Ht|].
    destruct (JS.find _ _) as [task|]; [|exact Ht].
    destruct (JS.seq (stage task) col); [exact Ht|].
    apply Hmap; [|exact Ht]. intros x Hx. by destruct (JS.seq (id x) i).
  - destruct (MAX_NOTES <? _)%nat; [exact Ht|].
    apply Hmap; [|exact Ht]. intros x Hx. by destruct (JS.seq (id x) i).
  - intros x Hx. by apply Ht, (filter_elem _ _ _ Hx).
Qed.

(** X5. Stages stay columns of the board: from a collection in which
    every stage is one of the four columns, every sequence of operations
    whose drafts and drop targets name one of the four columns leads to
    such a collection; the stage moves need no condition, they only ever
    write a column. *)
Theorem stages_valid_preserved (st : AppState) (ops : list Op) (st' : AppState) :
  stages_valid (tasks st) → runs_with names_column st ops st' →
  stages_valid (tasks st').
Proof. apply runs_with_invariant, stages_valid_step. Qed.

Lemma within_bounds_step (op : Op) (t : list Task) :
  within_bounds t → within_bounds (tasks_after op t).
Proof.
  unfold within_bounds.
  set (ok := fun x : Task =>
         JS.trim (title x) ≠ "" ∧
         (String.length (title x) ≤ MAX_TITLE)%nat ∧
         (String.length (notes x) ≤ MAX_NOTES)%nat).
  assert (Hmap : ∀ f : Task → Task, (∀ x, ok x → ok (f x)) →
            (∀ x, x ∈ t → ok x) → ∀ x, x ∈ f <$> t → ok x).
  { intros f Hf Ht x Hx. apply list_elem_of_fmap in Hx as (y & -> & Hy). auto. }
  assert (Happ : ∀ y : Task, ok y → (∀ x, x ∈ t → ok x) → ∀ x, x ∈ t ++ [y] → ok x).
  { intros y Hy Ht x Hx. apply elem_of_app in Hx as [Hx|Hx]; [auto|].
    by apply list_elem_of_singleton in Hx as ->. }
  destruct op as [draft newId now|i draft newId now|i dir now|i col now|i text|i];
    cbn [tasks_after]; intros Ht.
  - destruct (size _ =? 0)%nat eqn:E; [|exact Ht].
    apply validateForm_size, validateForm_valid in E. by apply Happ.
  - destruct (size _ =? 0)%nat eqn:E; [|exact Ht].
    apply validateForm_size, validateForm_valid in E.
    destruct (i =? "")%string; [by apply Happ|].
    apply Hmap; [|exact Ht]. intros x Hx. by destruct (JS.seq (id x) i).
  - apply Hmap; [|exact Ht]. intros x Hx. unfold ok.
    destruct (moveTask_one_id i dir now x) as (_ & _ & -> & ->). exact Hx.
  - destruct (i =? "")%string; [exact Ht|].
    destruct (JS.find _ _) as [task|]; [|exact Ht].
    destruct (JS.seq (stage task) col); [exact Ht|].
    apply Hmap; [|exact Ht]. intros x Hx. by destruct (JS.seq (id x) i).
  - destruct (Nat.ltb_spec MAX_NOTES (String.length text)) as [|Hlen]; [exact Ht|].
    apply Hmap; [|exact Ht]. intros x Hx. destruct (JS.seq (id x) i); [|exact Hx].
    destruct Hx as (? & ? & ?). by repeat split.
  - intros x Hx. by apply Ht, (filter_elem _ _ _ Hx).
Qed.

(** X6. Stored texts stay within the bounds of the form: from a
    collection in which every title is non-blank and at most 100
    characters long and every note at most 2000, every sequence of
    operations whatever leads to such a collection; a draft or a note
    beyond the bounds is rejected before it is stored. *)
Theorem within_bounds_preserved (st : AppState) (ops : list Op) (st' : AppState) :
  within_bounds (tasks st) → runs_with (fun _ _ => True) st ops st' →
  within_bounds (tasks st').
Proof. apply runs_with_invariant. intros op t _. apply within_bounds_step. Qed.

(** X7. No operation rewrites an identifier or a creation stamp: an edit
    of a non-empty identifier, a stage move, a stage assignment and a
    notes edit leave the identifiers and creation stamps of the
    collection as they were, task by task and in the same order. *)
Theorem identity_kept_in_place (op : Op) (st : AppState) :
  in_place op →
  (fun x => (id x, createdAt x)) <$> tasks (apply_op op st)
  = (fun x => (id x, createdAt x)) <$> tasks st.
Proof.
  rewrite apply_op_tasks. generalize (tasks st) as t. intros t.
  destruct op as [draft newId now|i draft newId now|i dir now|i col now|i text|i];
    cbn [in_place tasks_after]; intros Hok; try done.
  - destruct (size _ =? 0)%nat; [|done].
    apply String.eqb_neq in Hok. rewrite Hok.
    apply fmap_keeps. intros x. by destruct (JS.seq (id x) i).
  - apply fmap_keeps. intros x.
    by destruct (moveTask_one_id i dir now x) as (-> & -> & _).
  - destruct (i =? "")%string; [done|].
    destruct (JS.find _ _) as [task|]; [|done].
    destruct (JS.seq (stage task) col); [done|].
    apply fmap_keeps. intros x. by destruct (JS.seq (id x) i).
  - destruct (MAX_NOTES <? _)%nat; [done|].
    apply fmap_keeps. intros x. by destruct (JS.seq (id x) i).
Qed.

Lemma sample_state_elem (P : Task → Prop) :
  P (sample_task "a1" "Backlog" None) →
  P (sample_task "b2" "Review/QA" None) →
  P (sample_task "c3" "Completed" (Some "2026-10-31T17:00:00.000Z")) →
  ∀ x, x ∈ tasks sample_state → P x.
Proof.
  intros Ha Hb Hc x Hx. unfold sample_state in Hx. simpl in Hx.
  rewrite !elem_of_cons, elem_of_nil in Hx.
  by destruct Hx as [->|[->|[->|[]]]].
Defined.

Lemma ids_unique_preserved_witness :
  ids_unique (tasks
    (apply_op (OpMoveStage "b2" 1 "2026-11-01T10:00:00.000Z")
      (apply_op (OpDelete "a1")
        (apply_op (OpCreate sample_draft "d4" "2026-11-01T10:00:00.000Z")
           sample_state)))).
Proof.
  apply (ids_unique_preserved sample_state
    [ OpCreate sample_draft "d4" "2026-11-01T10:00:00.000Z";
      OpDelete "a1";
      OpMoveStage "b2" 1 "2026-11-01T10:00:00.000Z" ]).
  - unfold ids_unique. apply (bool_decide_unpack _). vm_compute. reflexivity.
  - apply runs_with_cons.
    { cbn [brings_fresh_id]. apply (bool_decide_unpack _). vm_compute. reflexivity. }
    apply runs_with_cons; [exact I|].
    apply runs_with_cons; [exact I|].
    apply runs_with_nil.
Defined.

Lemma stages_valid_preserved_witness :
  stages_valid (tasks
    (apply_op (OpUpdate "b2" sample_draft "" "")
      (apply_op (OpSetStage "a1" "Completed" "2026-11-01T10:00:00.000Z")
        (apply_op (OpCreate sample_draft "d4" "2026-11-01T10:00:00.000Z")
           sample_state)))).
Proof.
  apply (stages_valid_preserved sample_state
    [ OpCreate sample_draft "d4" "2026-11-01T10:00:00.000Z";
      OpSetStage "a1" "Completed" "2026-11-01T10:00:00.000Z";
      OpUpdate "b2" sample_draft "" "" ]).
  - unfold stages_valid. apply (sample_state_elem (fun x => stage x ∈ COLUMNS));
      apply (bool_decide_unpack _); vm_compute; reflexivity.
  - apply runs_with_cons.
    { cbn [names_column]. apply (bool_decide_unpack _). vm_compute. reflexivity. }
    apply runs_with_cons.
    { cbn [names_column]. apply (bool_decide_unpack _). vm_compute. reflexivity. }
    apply runs_with_cons.
    { cbn [names_column]. apply (bool_decide_unpack _). vm_compute. reflexivity. }
    apply runs_with_nil.
Defined.

Lemma within_bounds_preserved_witness :
  within_bounds (tasks
    (apply_op (OpSetNotes "a1" (String.concat "" (repeat "y" 2001)))
      (apply_op (OpCreate DEFAULT_TASK "d4" "2026-11-01T10:00:00.000Z")
        (apply_op (OpUpdate "b2" sample_draft "" "") sample_state)))).
Proof.
  apply (within_bounds_preserved sample_state
    [ OpUpdate "b2" sample_draft "" "";
      OpCreate DEFAULT_TASK "d4" "2026-11-01T10:00:00.000Z";
      OpSetNotes "a1" (String.concat "" (repeat "y" 2001)) ]).
  - unfold within_bounds. apply (sample_state_elem (fun x =>
      JS.trim (title x) ≠ "" ∧
      (String.length (title x) ≤ MAX_TITLE)%nat ∧
      (String.length (notes x) ≤ MAX_NOTES)%nat));
      (split; [discriminate|split; apply Nat.leb_le; vm_compute; reflexivity]).
  - repeat (apply runs_with_cons; [exact I|]). apply runs_with_nil.
Defined.

Lemma identity_kept_in_place_witness :
  (fun x => (id x, createdAt x))
    <$> tasks (apply_op (OpUpdate "b2" sample_draft "" "") sample_state)
  = (fun x => (id x, createdAt x)) <$> tasks sample_state.
Proof.
  apply (identity_kept_in_place (OpUpdate "b2" sample_draft "" "") sample_state).
  discriminate.
Defined.

(** ** Forms and dialogs *)

Lemma unique_id_eq (t : list Task) (x y : Task) :
  ids_unique t → x ∈ t → y ∈ t → id x = id y → x = y.
Proof.
  unfold ids_unique. induction t as [|z t IH]; intros Hnd Hx Hy Hid.
  - by apply elem_of_nil in Hx.
  - rewrite fmap_cons, NoDup_cons in Hnd. destruct Hnd as [Hz Hnd].
    apply elem_of_cons in Hx as [->|Hx]; apply elem_of_cons in Hy as [->|Hy].
    + reflexivity.
    + exfalso. apply Hz. rewrite Hid. by apply list_elem_of_fmap_2.
    + exfalso. apply Hz. rewrite <- Hid. by apply list_elem_of_fmap_2.
    + by apply IH.
Qed.

Lemma spread_form_own (x : Task) : spread_form x (form_of x) = x.
Proof. by destruct x. Qed.

(** X8. Opening the edit form on a task and saving it untouched changes
    no task: in a collection with unique identifiers and texts within
    the bounds, [openForm(task)] followed by [saveTask()] leaves the
    collection as it was, closes the form and announces the update. *)
Theorem edit_untouched_keeps_collection (task : Task) (newId now : string)
    (st : AppState) :
  ids_unique (tasks st) → within_bounds (tasks st) →
  task ∈ tasks st → id task ≠ "" →
  tasks (saveTask newId now (openForm (Some task) st)) = tasks st ∧
  showForm (saveTask newId now (openForm (Some task) st)) = false ∧
  toast (saveTask newId now (openForm (Some task) st)) = Some "✅ Task updated.".
Proof.
  intros Hnd Hb Hin Hid.
  assert (Hv : validateForm (form_of task) = ∅) by (apply validateForm_valid, Hb, Hin).
  assert (E : saveTask newId now (openForm (Some task) st) =
              update (id task) (form_of task) newId now
                (setShowForm true (setFormErrors ∅ st))).
  { unfold update, saveTask, openForm. by destruct st. }
  rewrite E. split; [|split].
  - pose proof (apply_op_tasks (OpUpdate (id task) (form_of task) newId now)
                  (setShowForm true (setFormErrors ∅ st))) as Ht.
    cbn [apply_op tasks_after] in Ht. rewrite Ht.
    apply validateForm_size in Hv. rewrite Hv.
    apply String.eqb_neq in Hid. rewrite Hid.
    apply fmap_id_on. intros x Hx. cbn [tasks setShowForm setFormErrors] in Hx.
    destruct (String.eqb_spec (id x) (id task)) as [Heq|Hne].
    + apply seq_true in Heq as Hs. rewrite Hs.
      rewrite (unique_id_eq _ x task Hnd Hx Hin Heq). apply spread_form_own.
    + apply seq_false in Hne. by rewrite Hne.
  - unfold update, saveTask. cbn [formData setEditId setFormData editId JS.truthy].
    destruct (size _ =? 0)%nat eqn:E'; [reflexivity|].
    apply validateForm_size in Hv. congruence.
  - unfold update, saveTask. cbn [formData setEditId setFormData editId JS.truthy].
    apply validateForm_size in Hv. rewrite Hv.
    apply String.eqb_neq in Hid. rewrite Hid. reflexivity.
Qed.

Lemma edit_untouched_keeps_collection_witness :
  tasks (saveTask "" "" (openForm (Some (sample_task "b2" "Review/QA" None)) sample_state))
    = tasks sample_state ∧
  showForm (saveTask "" "" (openForm (Some (sample_task "b2" "Review/QA" None)) sample_state))
    = false ∧
  toast (saveTask "" "" (openForm (Some (sample_task "b2" "Review/QA" None)) sample_state))
    = Some "✅ Task updated.".
Proof.
  apply (edit_untouched_keeps_collection (sample_task "b2" "Review/QA" None) "" ""
           sample_state).
  - unfold ids_unique. apply (bool_decide_unpack _). vm_compute. reflexivity.
  - unfold within_bounds.
    apply (sample_state_elem (fun x =>
      JS.trim (title x) ≠ "" ∧
      (String.length (title x) ≤ MAX_TITLE)%nat ∧
      (String.length (notes x) ≤ MAX_NOTES)%nat));
      (split; [discriminate|split; apply (bool_decide_unpack _); vm_compute; reflexivity]).
  - unfold sample_state. cbn [tasks setLoaded setTasks].
    rewrite !elem_of_cons. right. left. reflexivity.
  - discriminate.
Defined.

Lemma seq_opt_Some (a b : string) : JS.seq_opt a (Some b) = JS.seq a b.
Proof. reflexivity. Qed.

Lemma setNotes_tasks (i text : string) (st : AppState) :
  tasks (setNotes i text st) = tasks_after (OpSetNotes i text) (tasks st).
Proof. apply (apply_op_tasks (OpSetNotes i text) st). Qed.

(** X9. Saving a note.  A text of at most 2000 characters replaces the
    notes of the tasks with the identifier of the dialog and nothing
    else: every other field of those tasks and every other task stay,
    in the same order; the dialog closes.  A longer text changes no
    task, and the dialog stays open with the text as typed. *)
Theorem saveNote_touches_only_notes (i text : string) (st : AppState) :
  ((String.length text ≤ MAX_NOTES)%nat →
     tasks (setNotes i text st)
       = (fun x => if String.eqb (id x) i then with_notes x text else x) <$> tasks st ∧
     (∀ x, x ∈ tasks st → id x ≠ i → x ∈ tasks (setNotes i text st)) ∧
     (∀ y, y ∈ tasks (setNotes i text st) → id y = i → notes y = text) ∧
     (λ x, (title x, priority x, category x, due x, stage x, id x,
            createdAt x, completedAt x)) <$> tasks (setNotes i text st)
       = (λ x, (title x, priority x, category x, due x, stage x, id x,
                createdAt x, completedAt x)) <$> tasks st ∧
     activeNote (setNotes i text st) = None ∧
     toast (setNotes i text st) = Some "📝 Notes saved.") ∧
  ((MAX_NOTES < String.length text)%nat →
     tasks (setNotes i text st) = tasks st ∧
     activeNote (setNotes i text st) = Some i ∧
     noteText (setNotes i text st) = text ∧
     toast (setNotes i text st) = Some "⚠ Notes exceed 2000 chars.").
Proof.
  split.
  - intros Hle.
    assert (Hlt : (MAX_NOTES <? String.length text)%nat = false)
      by (apply Nat.ltb_ge; exact Hle).
    assert (Ht : tasks (setNotes i text st)
       = (fun x => if String.eqb (id x) i then with_notes x text else x) <$> tasks st).
    { rewrite setNotes_tasks. cbn [tasks_after]. rewrite Hlt. reflexivity. }
    split; [exact Ht|]. rewrite Ht. split; [|split; [|split; [|split]]].
    + intros x Hx Hne. apply list_elem_of_fmap. exists x. split; [|exact Hx].
      apply String.eqb_neq in Hne. by rewrite Hne.
    + intros y Hy Hid. apply list_elem_of_fmap in Hy as (x & -> & Hx).
      destruct (String.eqb_spec (id x) i) as [_|Hne]; [reflexivity|].
      by destruct Hne.
    + rewrite <- list_fmap_compose. apply list_fmap_ext. intros k x _.
      cbn [compose]. by destruct (String.eqb (id x) i).
    + unfold setNotes, saveNote. cbn [noteText setNoteText]. rewrite Hlt. reflexivity.
    + unfold setNotes, saveNote. cbn [noteText setNoteText]. rewrite Hlt. reflexivity.
  - intros Hgt.
    assert (Hlt : (MAX_NOTES <? String.length text)%nat = true)
      by (apply Nat.ltb_lt; exact Hgt).
    unfold setNotes, saveNote. cbn [noteText setNoteText]. rewrite Hlt.
    repeat split.
Qed.

Lemma saveNote_touches_only_notes_witness :
  tasks (setNotes "b2" "ask the client" sample_state)
    = [ sample_task "a1" "Backlog" None;
        with_notes (sample_task "b2" "Review/QA" None) "ask the client";
        sample_task "c3" "Completed" (Some "2026-10-31T17:00:00.000Z") ] ∧
  tasks (setNotes "b2" (String.concat "" (repeat "y" 2001)) sample_state)
    = tasks sample_state.
Proof.
  split.
  - apply (saveNote_touches_only_notes "b2" "ask the client" sample_state).
    apply (bool_decide_unpack _). vm_compute. reflexivity.
  - apply (saveNote_touches_only_notes "b2" (String.concat "" (repeat "y" 2001))
             sample_state).
    apply (bool_decide_unpack _). vm_compute. reflexivity.
Defined.

(** ** Identifiers, moves and the buttons of a card *)

Lemma find_fmap_app_last (i : string) (f : Task → Task) (t : list Task) (x : Task) :
  (∀ y, y ∈ t → id y ≠ i) → id x = i →
  JS.find (fun y => JS.seq (id y) i)
    ((fun y => if JS.seq (id y) i then f y else y) <$> (t ++ [x])) = Some (f x) ∨
  id (f x) ≠ i.
Proof.
  intros Ht Hx. destruct (String.eqb_spec (id (f x)) i) as [Hfx|Hfx]; [left|by right].
  induction t as [|y t IH].
  - cbn. apply seq_true in Hx. rewrite Hx. apply seq_true in Hfx. by rewrite Hfx.
  - rewrite <- app_comm_cons, fmap_cons. cbn [JS.find].
    assert (Hy : JS.seq (id y) i = false) by (apply seq_false, Ht, list_elem_of_here).
    rewrite !Hy. apply IH. intros z Hz. apply Ht. by apply list_elem_of_further.
Qed.

(** X11. A task created under an identifier of [genId] can be edited
    afterwards: such an identifier is never empty, so a later [saveTask]
    with this identifier takes the edit branch, and the task found under
    it carries the second draft, the identifier and creation stamp of
    the creation, and no completion stamp; no task is added. *)
Theorem created_task_is_editable (ms : N) (rnd : string) (d d' : Form.t)
    (now newId' now' : string) (st : AppState) :
  validateForm d = ∅ → validateForm d' = ∅ →
  (∀ y, y ∈ tasks st → id y ≠ genId ms rnd) →
  JS.find (fun y => JS.seq (id y) (genId ms rnd))
    (tasks (update (genId ms rnd) d' newId' now' (create d (genId ms rnd) now st)))
    = Some (mkTask (Form.title d') (Form.priority d') (Form.category d')
                   (Form.due d') (Form.notes d') (Form.stage d')
                   (genId ms rnd) now None) ∧
  length (tasks (update (genId ms rnd) d' newId' now' (create d (genId ms rnd) now st)))
    = S (length (tasks st)).
Proof.
  intros Hd Hd' Hfresh. set (i := genId ms rnd) in *.
  assert (Hi : i ≠ "") by (apply truthy_Some, genId_truthy).
  pose proof (apply_op_tasks (OpCreate d i now) st) as Hc.
  pose proof (apply_op_tasks (OpUpdate i d' newId' now') (create d i now st)) as Hu.
  cbn [apply_op tasks_after] in Hc, Hu.
  apply validateForm_size in Hd, Hd'. rewrite Hd in Hc. rewrite Hd' in Hu.
  apply String.eqb_neq in Hi as Hi'. rewrite Hi' in Hu.
  rewrite Hu, Hc. split.
  - destruct (find_fmap_app_last i (fun y => spread_form y d') (tasks st)
                (new_task d i now) Hfresh eq_refl) as [H|H]; [exact H|].
    by destruct H.
  - by rewrite length_fmap, length_app, Nat.add_comm.
Qed.

Lemma created_task_is_editable_witness :
  JS.find (fun y => JS.seq (id y) (genId 1793527200000 "k3f9x2"))
    (tasks (update (genId 1793527200000 "k3f9x2") sample_draft "" "2026-11-02T09:00:00.000Z"
              (create (Form.mk "Review logs" "Low" "Internal" "" "" "Backlog")
                 (genId 1793527200000 "k3f9x2") "2026-11-01T10:00:00.000Z"
                 sample_state)))
    = Some (mkTask "Scan DMZ" "Critical" "Client Work" "2026-12-01" "scope agreed"
                   "In Progress" "mvxnscg0k3f9x2" "2026-11-01T10:00:00.000Z" None).
Proof.
  apply (created_task_is_editable 1793527200000 "k3f9x2"
           (Form.mk "Review logs" "Low" "Internal" "" "" "Backlog") sample_draft
           "2026-11-01T10:00:00.000Z" "" "2026-11-02T09:00:00.000Z" sample_state).
  - vm_compute. reflexivity.
  - vm_compute. reflexivity.
  - apply (sample_state_elem (fun y => id y ≠ genId 1793527200000 "k3f9x2"));
      vm_compute; discriminate.
Defined.

Lemma in_COLUMNS (s : string) :
  s ∈ COLUMNS ↔ s = "Backlog" ∨ s = "In Progress" ∨ s = "Review/QA" ∨ s = "Completed".
Proof.
  unfold COLUMNS. rewrite !elem_of_cons, elem_of_nil. tauto.
Qed.

Lemma indexOf_COLUMNS_absent (s : string) : s ∉ COLUMNS → JS.indexOf COLUMNS s = -1.
Proof.
  rewrite in_COLUMNS. intros H. unfold JS.indexOf, COLUMNS. cbn [JS.indexOf_from].
  repeat match goal with
  | |- context [JS.seq ?a s] =>
      let E := fresh in
      destruct (JS.seq a s) eqn:E;
        [apply seq_true in E; subst s; exfalso; apply H; tauto|]
  end.
  reflexivity.
Qed.

Lemma moveTask_one_forth_back (i : string) (now1 now2 : string) (x : Task) :
  stamped x → stage x ∈ COLUMNS → stage x ≠ "Completed" →
  moveTask_one i (-1) now2 (moveTask_one i 1 now1 x) = x.
Proof.
  intros Hst Hin Hne. destruct (String.eqb_spec (id x) i) as [Hi|Hi].
  - assert (Hc : completedAt x = None).
    { destruct (completedAt x) eqn:E; [|reflexivity].
      exfalso. apply Hne, Hst. by rewrite E. }
    destruct x as [ti pr ca du no sg ident cr co]. cbn in *. subst co ident.
    apply in_COLUMNS in Hin as [-> | [-> | [-> | ->]]];
      [| | |by destruct Hne];
      unfold moveTask_one; cbn; rewrite String.eqb_refl; cbn;
      rewrite String.eqb_refl; reflexivity.
  - by rewrite !(moveTask_one_other _ _ _ _ Hi).
Qed.

Lemma moveTask_one_back_forth (i : string) (now1 now2 : string) (x : Task) :
  id x = i → stage x ∈ COLUMNS → stage x ≠ "Backlog" →
  moveTask_one i 1 now2 (moveTask_one i (-1) now1 x)
    = with_stage x (stage x)
        (if JS.seq (stage x) "Completed" then Some now2 else None).
Proof.
  intros Hi Hin Hne.
  destruct x as [ti pr ca du no sg ident cr co]. cbn in *. subst ident.
  apply in_COLUMNS in Hin as [-> | [-> | [-> | ->]]];
    [by destruct Hne| | |];
    unfold moveTask_one; cbn; rewrite String.eqb_refl; cbn;
    rewrite String.eqb_refl; reflexivity.
Qed.

(** X12. Moving a card forward and then back.  In a collection whose
    completion stamps agree with the stages, a forward move followed by a
    backward move of the same identifier restores the collection, when
    the tasks of that identifier are in a column before the last. *)
Theorem move_forth_and_back (i now1 now2 : string) (st : AppState) :
  completed_inv (tasks st) →
  (∀ x, x ∈ tasks st → id x = i → stage x ∈ COLUMNS ∧ stage x ≠ "Completed") →
  tasks (moveTask i (-1) now2 (moveTask i 1 now1 st)) = tasks st.
Proof.
  intros Hinv Hcol. unfold moveTask. cbn [tasks setTasks].
  rewrite <- list_fmap_compose. apply fmap_id_on. intros x Hx. cbn [compose].
  destruct (String.eqb_spec (id x) i) as [Hi|Hi].
  - destruct (Hcol x Hx Hi) as [Hin Hne]. apply moveTask_one_forth_back; auto.
    apply Hinv, Hx.
  - by rewrite !(moveTask_one_other _ _ _ _ Hi).
Qed.

Lemma move_forth_and_back_witness :
  tasks (moveTask "b2" (-1) "2026-11-01T10:05:00.000Z"
           (moveTask "b2" 1 "2026-11-01T10:00:00.000Z" sample_state))
  = tasks sample_state.
Proof.
  apply (move_forth_and_back "b2" "2026-11-01T10:00:00.000Z"
           "2026-11-01T10:05:00.000Z" sample_state).
  - apply completed_inv_sample.
  - apply (sample_state_elem (fun x =>
      id x = "b2" → stage x ∈ COLUMNS ∧ stage x ≠ "Completed")); try discriminate.
    intros _. split; [|discriminate]. apply (bool_decide_unpack _). vm_compute. reflexivity.
Defined.

(** X13. A completed task that is moved back and then forward is
    completed anew: it is in the last column again, with every other
    field as before, but its completion stamp is the time of the second
    move and the first stamp is lost. *)
Theorem move_back_and_forth_restamps (i now1 now2 : string) (st : AppState)
    (k : nat) (x : Task) :
  tasks st !! k = Some x → id x = i → stage x = "Completed" →
  tasks (moveTask i 1 now2 (moveTask i (-1) now1 st)) !! k
    = Some (with_stage x "Completed" (Some now2)).
Proof.
  intros Hk Hi Hs. unfold moveTask. cbn [tasks setTasks].
  rewrite <- list_fmap_compose, list_lookup_fmap, Hk. cbn [fmap option_fmap option_map compose].
  f_equal. rewrite (moveTask_one_back_forth i now1 now2 x Hi).
  - rewrite Hs. reflexivity.
  - rewrite Hs. apply (bool_decide_unpack _). vm_compute. reflexivity.
  - rewrite Hs. discriminate.
Qed.

Lemma move_back_and_forth_restamps_witness :
  tasks (moveTask "c3" 1 "2026-11-01T10:05:00.000Z"
           (moveTask "c3" (-1) "2026-11-01T10:00:00.000Z" sample_state)) !! 2%nat
  = Some (sample_task "c3" "Completed" (Some "2026-11-01T10:05:00.000Z")).
Proof.
  apply (move_back_and_forth_restamps "c3" "2026-11-01T10:00:00.000Z"
           "2026-11-01T10:05:00.000Z" sample_state 2
           (sample_task "c3" "Completed" (Some "2026-10-31T17:00:00.000Z")));
    reflexivity.
Defined.

(** X14. The move buttons of a card are rendered exactly when the move
    does something: Back is shown if and only if [moveTask(id, -1)]
    changes the stage of the task, and the forward button if and only if
    [moveTask(id, 1)] does, whatever the stage text of the task. *)
Theorem move_buttons_match_moves (now : string) (x : Task) :
  (showBack x = true ↔ stage (moveTask_one (id x) (-1) now x) ≠ stage x) ∧
  (showForward x = true ↔ stage (moveTask_one (id x) 1 now x) ≠ stage x).
Proof.
  destruct (decide (stage x ∈ COLUMNS)) as [Hin|Hout].
  - destruct x as [ti pr ca du no sg ident cr co]. cbn [stage id] in *.
    apply in_COLUMNS in Hin as [-> | [-> | [-> | ->]]]; split;
      unfold showBack, showForward, colIdx, moveTask_one; cbn;
      rewrite String.eqb_refl; cbn; split; (discriminate || done).
  - pose proof (indexOf_COLUMNS_absent _ Hout) as Hidx.
    assert (Hb : moveTask_one (id x) (-1) now x = x).
    { apply moveTask_one_blocked. rewrite Hidx. reflexivity. }
    assert (Hf : moveTask_one (id x) 1 now x = with_stage x "Backlog" None).
    { rewrite (moveTask_one_moved _ _ _ _ "Backlog"); [reflexivity..|].
      rewrite Hidx. reflexivity. }
    unfold showBack, showForward, colIdx. rewrite Hb, Hf, Hidx. cbn.
    assert (Hne : "Backlog" ≠ stage x).
    { intros E. apply Hout. rewrite <- E. apply (bool_decide_unpack _). vm_compute. reflexivity. }
    repeat split; try done.
Qed.

(** ** The effects on [localStorage] *)

Lemma not_json_start_parse (s : string) : not_json_start s = true → JSON.parse s = None.
Proof.
  unfold not_json_start, JSON.parse. cbn [JSON.parse_value].
  destruct (JSON.skip_ws s) as [|c s1]; [reflexivity|].
  cbn zeta. intros H. apply negb_true_iff in H.
  repeat (apply orb_false_iff in H as [H ?]).
  assert (E : ∀ d : ascii, (N_of_ascii c =? N_of_ascii d)%N = false → Ascii.eqb c d = false).
  { intros d Hd. destruct (Ascii.eqb_spec c d) as [->|]; [|reflexivity].
    by rewrite N.eqb_refl in Hd. }
  rewrite (E "n"%char), (E "t"%char), (E "f"%char), (E JSON.dquote), (E "["%char),
    (E "{"%char) by assumption.
  reflexivity.
Qed.

(** X15. Nothing stored.  When [localStorage] has no text under the key
    (or an empty one), the persist effect of the application that has not
    loaded yet writes nothing, the load effect changes neither the tasks
    nor the toast and marks the application loaded, and the persist
    effect that follows stores the serialisation of the tasks, when the
    store accepts it. *)
Theorem nothing_stored_first_run (ls : Storage) (st0 : AppState) :
  getItem "cybertasks" ls = None ∨ getItem "cybertasks" ls = Some "" →
  loaded st0 = false →
  persist_effect st0 ls = (st0, ls) ∧
  ∃ st,
    load_effect ls st0 = Some st ∧
    tasks st = tasks st0 ∧ toast st = toast st0 ∧ loaded st = true ∧
    ((N.of_nat (String.length (JSON.stringify (json_of_tasks (tasks st0)))) ≤ quota ls)%N →
     fst (persist_effect st ls) = st ∧
     getItem "cybertasks" (snd (persist_effect st ls))
       = Some (JSON.stringify (json_of_tasks (tasks st0)))).
Proof.
  intros Hget Hl. split.
  - unfold persist_effect. by rewrite Hl.
  - exists (setLoaded true st0). split; [|split; [|split; [|split]]]; try reflexivity.
    + unfold load_effect. by destruct Hget as [-> | ->].
    + intros Hq. apply N.leb_le in Hq.
      unfold persist_effect, setItem. cbn [loaded setLoaded negb tasks].
      rewrite Hq. cbn [fst snd]. split; [reflexivity|].
      unfold getItem. cbn [items]. apply lookup_insert_eq.
Qed.

Lemma nothing_stored_first_run_witness :
  persist_effect initial sample_storage = (initial, sample_storage) ∧
  ∃ st,
    load_effect sample_storage initial = Some st ∧
    tasks st = [] ∧ toast st = None ∧ loaded st = true ∧
    ((N.of_nat (String.length (JSON.stringify (json_of_tasks []))) ≤ 5000000)%N →
     fst (persist_effect st sample_storage) = st ∧
     getItem "cybertasks" (snd (persist_effect st sample_storage))
       = Some (JSON.stringify (json_of_tasks []))).
Proof.
  apply (nothing_stored_first_run sample_storage initial).
  - left. reflexivity.
  - reflexivity.
Defined.

(** X16. A stored text that is no JSON.  When the text under the key is
    not empty and is blank or starts with a character that starts no
    JSON value, the load effect shows the warning toast, keeps the tasks
    it found in the state and still marks the application loaded; the
    persist effect that follows then replaces the stored text with the
    serialisation of those tasks. *)
Theorem unreadable_store_is_replaced (ls : Storage) (s : string) (st0 : AppState) :
  getItem "cybertasks" ls = Some s → s ≠ "" → not_json_start s = true →
  ∃ st,
    load_effect ls st0 = Some st ∧
    tasks st = tasks st0 ∧ loaded st = true ∧
    toast st = Some "⚠ Could not load saved tasks." ∧
    ((N.of_nat (String.length (JSON.stringify (json_of_tasks (tasks st0)))) ≤ quota ls)%N →
     getItem "cybertasks" (snd (persist_effect st ls))
       = Some (JSON.stringify (json_of_tasks (tasks st0)))).
Proof.
  intros Hget Hs Hn.
  exists (setLoaded true (showToast "⚠ Could not load saved tasks." st0)).
  split; [|split; [|split; [|split]]]; try reflexivity.
  - unfold load_effect. rewrite Hget.
    apply truthy_Some in Hs. rewrite Hs. cbn [from_option Datatypes.id].
    by rewrite (not_json_start_parse s Hn), Hn.
  - intros Hq. apply N.leb_le in Hq.
    unfold persist_effect, setItem. cbn [loaded setLoaded negb tasks showToast].
    rewrite Hq. cbn [snd]. unfold getItem. cbn [items]. apply lookup_insert_eq.
Qed.

Lemma unreadable_store_is_replaced_witness :
  ∃ st,
    load_effect (mkStorage {[ "cybertasks" := "<html>" ]} 5000000) initial = Some st ∧
    tasks st = [] ∧ loaded st = true ∧
    toast st = Some "⚠ Could not load saved tasks." ∧
    ((N.of_nat (String.length (JSON.stringify (json_of_tasks []))) ≤ 5000000)%N →
     getItem "cybertasks"
       (snd (persist_effect st (mkStorage {[ "cybertasks" := "<html>" ]} 5000000)))
       = Some (JSON.stringify (json_of_tasks []))).
Proof.
  apply (unreadable_store_is_replaced
           (mkStorage {[ "cybertasks" := "<html>" ]} 5000000) "<html>" initial).
  - reflexivity.
  - discriminate.
  - reflexivity.
Defined.

(** X17. What the persist effect never does: it leaves the tasks and
    every other field of the state but the toast, the quota and every
    other key of the store as they are.  When the store refuses the
    text, the store is unchanged, so the text stored before stays, and
    the toast warns; when the application has not loaded, or the store
    accepts the text, the toast is unchanged. *)
Theorem persist_effect_frame (st : AppState) (ls : Storage) :
  tasks (fst (persist_effect st ls)) = tasks st ∧
  loaded (fst (persist_effect st ls)) = loaded st ∧
  formData (fst (persist_effect st ls)) = formData st ∧
  editId (fst (persist_effect st ls)) = editId st ∧
  quota (snd (persist_effect st ls)) = quota ls ∧
  (∀ k, k ≠ "cybertasks" →
        getItem k (snd (persist_effect st ls)) = getItem k ls) ∧
  (loaded st = true →
   (quota ls < N.of_nat (String.length (JSON.stringify (json_of_tasks (tasks st)))))%N →
   snd (persist_effect st ls) = ls ∧
   toast (fst (persist_effect st ls)) = Some "⚠ Could not save. Storage may be full.") ∧
  (loaded st = false ∨
   (N.of_nat (String.length (JSON.stringify (json_of_tasks (tasks st)))) ≤ quota ls)%N →
   fst (persist_effect st ls) = st).
Proof.
  unfold persist_effect, setItem.
  destruct (loaded st) eqn:Hl; cbn [negb fst snd].
  - destruct (N.leb_spec (N.of_nat (String.length (JSON.stringify (json_of_tasks (tasks st)))))
                (quota ls)) as [Hq|Hq]; cbn [fst snd quota tasks showToast loaded formData editId toast].
    + do 5 (split; [first [reflexivity|assumption]|]). split; [|split; [lia|reflexivity]].
      intros k Hk. unfold getItem. cbn [items]. apply lookup_insert_ne. congruence.
    + repeat split; try done. intros [?|Hle]; [done|lia].
  - repeat split; try done.
Qed.

Lemma persist_after_load_equivalent_witness :
  ∃ st ls',
    load_effect (mkStorage {[ "cybertasks" := spaced_text ]} 5000000) initial = Some st ∧
    tasks st = [sample_task "a1" "Backlog" None] ∧
    persist_effect st (mkStorage {[ "cybertasks" := spaced_text ]} 5000000) = (st, ls') ∧
    getItem "cybertasks" ls' ≫= JSON.parse
      = Some (json_of_tasks [sample_task "a1" "Backlog" None]).
Proof.
  apply (persist_after_load_equivalent
           (mkStorage {[ "cybertasks" := spaced_text ]} 5000000) spaced_text
           (json_of_tasks [sample_task "a1" "Backlog" None])
           [sample_task "a1" "Backlog" None] initial).
  - reflexivity.
  - vm_compute. reflexivity.
  - reflexivity.
  - apply N.leb_le. vm_compute. reflexivity.
Defined.

(** ** Search, the statistics bar and the columns of the board *)

Lemma startsWith_spec (s q : string) :
  Text.startsWith s q = true ↔ ∃ b, s = q +:+ b.
Proof.
  revert s. induction q as [|a q IH]; intros s.
  - split; [|by destruct s]. intros _. exists s. reflexivity.
  - destruct s as [|c s]; cbn [Text.startsWith].
    + split; [discriminate|]. intros [b Hb]. rewrite JSONFacts.append_String in Hb.
      discriminate.
    + rewrite andb_true_iff, IH. split.
      * intros [Hac [b ->]]. apply Ascii.eqb_eq in Hac as ->. exists b.
        by rewrite JSONFacts.append_String.
      * intros [b Hb]. rewrite JSONFacts.append_String in Hb. injection Hb as -> ->.
        split; [apply Ascii.eqb_refl|by exists b].
Qed.

Lemma includes_spec (s q : string) :
  Text.includes s q = true ↔ ∃ a b, s = a +:+ q +:+ b.
Proof.
  induction s as [|c s IH].
  - cbn [Text.includes]. rewrite orb_false_r, startsWith_spec. split.
    + intros [b ->]. exists "", b. reflexivity.
    + intros (a & b & H). destruct a as [|? a].
      * exists b. exact H.
      * rewrite JSONFacts.append_String in H. discriminate.
  - cbn [Text.includes]. rewrite orb_true_iff, startsWith_spec, IH. split.
    + intros [[b ->] | (a & b & ->)].
      * exists "", b. reflexivity.
      * exists (String c a), b. by rewrite JSONFacts.append_String.
    + intros (a & b & H). destruct a as [|c' a].
      * left. exists b. exact H.
      * right. rewrite JSONFacts.append_String in H. injection H as -> ->.
        by exists a, b.
Qed.

Lemma includes_empty (s : string) : Text.includes s "" = true.
Proof. by destruct s. Qed.

Lemma filter_all {A} (p : A → bool) (l : list A) :
  (∀ x, x ∈ l → p x = true) → List.filter p l = l.
Proof.
  induction l as [|x l IH]; intros H; [reflexivity|].
  cbn [List.filter]. rewrite (H x) by apply list_elem_of_here.
  f_equal. apply IH. intros y Hy. by apply H, list_elem_of_further.
Qed.

Lemma filter_sublist_of {A} (p : A → bool) (l : list A) : sublist (List.filter p l) l.
Proof.
  induction l as [|x l IH]; [constructor|].
  cbn [List.filter]. destruct (p x); by constructor.
Qed.

Lemma elem_of_List_filter {A} (p : A → bool) (l : list A) (x : A) :
  x ∈ List.filter p l ↔ x ∈ l ∧ p x = true.
Proof. rewrite !list_elem_of_In. apply List.filter_In. Qed.

Lemma filtered_empty (t : list Task) : filtered t "" = t.
Proof.
  apply filter_all. intros x _. cbn [Text.toLowerCase]. by rewrite includes_empty.
Qed.

(** X18. Search.  The filtered list holds, in the order of the
    collection, exactly the tasks whose title or category, in lower
    case, contains the search text in lower case at some position; the
    empty search text keeps every task. *)
Theorem search_finds_substrings (t : list Task) (q : string) :
  filtered t "" = t ∧
  sublist (filtered t q) t ∧
  ∀ x, x ∈ filtered t q ↔
       x ∈ t ∧ ∃ a b,
         Text.toLowerCase (title x) = a +:+ Text.toLowerCase q +:+ b ∨
         Text.toLowerCase (category x) = a +:+ Text.toLowerCase q +:+ b.
Proof.
  split; [|split].
  - apply filtered_empty.
  - apply filter_sublist_of.
  - intros x. unfold filtered. rewrite elem_of_List_filter, orb_true_iff, !includes_spec.
    split.
    + intros [Hx [(a & b & H)|(a & b & H)]]; (split; [exact Hx|]); exists a, b; tauto.
    + intros [Hx (a & b & [H|H])]; (split; [exact Hx|]); [left|right]; by exists a, b.
Qed.

Lemma count_by_column (l : list Task) :
  (∀ x, x ∈ l → stage x ∈ COLUMNS) →
  sum_list ((fun col => length (List.filter (fun x => JS.seq (stage x) col) l)) <$> COLUMNS)
    = length l.
Proof.
  induction l as [|x l IH]; intros H; [reflexivity|].
  assert (Hx : stage x ∈ COLUMNS) by apply H, list_elem_of_here.
  specialize (IH (fun y Hy => H y (list_elem_of_further _ _ _ Hy))).
  unfold COLUMNS in *. cbn [fmap list_fmap sum_list sum_list_with List.filter] in *.
  apply in_COLUMNS in Hx as [-> | [-> | [-> | ->]]]; cbn in *; lia.
Qed.

(** X19. The counts of the statistics bar add up: when every stage is a
    column of the board, the four counts sum to the number of tasks. *)
Theorem stage_counts_add_up (t : list Task) :
  stages_valid t → sum_list (stageCount t <$> COLUMNS) = length t.
Proof. apply count_by_column. Qed.

Lemma stage_counts_add_up_witness :
  sum_list (stageCount (tasks sample_state) <$> COLUMNS) = 3%nat.
Proof.
  apply (stage_counts_add_up (tasks sample_state)).
  unfold stages_valid. apply (sample_state_elem (fun x => stage x ∈ COLUMNS));
    apply (bool_decide_unpack _); vm_compute; reflexivity.
Defined.

(** X20. The board shows every task the search finds in exactly one
    column: a task is a card of a column if and only if the search
    finds it and its stage is that column, and when every stage is a
    column of the board the columns together hold as many cards as the
    search finds.  With an empty search text the number of cards of a
    column is the count of the statistics bar. *)
Theorem board_columns_partition (t : list Task) (q : string) :
  stages_valid t →
  (∀ x col, x ∈ colTasks t q col ↔ x ∈ filtered t q ∧ stage x = col) ∧
  sum_list ((fun col => length (colTasks t q col)) <$> COLUMNS) = length (filtered t q) ∧
  (∀ col, length (colTasks t "" col) = stageCount t col).
Proof.
  intros Hv. split; [|split].
  - intros x col. unfold colTasks. rewrite elem_of_List_filter. by rewrite seq_true.
  - apply count_by_column. intros x Hx. apply Hv.
    unfold filtered in Hx. by apply elem_of_List_filter in Hx as [Hx _].
  - intros col. unfold colTasks, stageCount.
    by rewrite filtered_empty.
Qed.

(** ** Export: selection, widths and the stamp columns *)


Section ExportSelection.
Variable LocalTZA : Z → bool → Z.
Variable localeDate : Z → string.
Variable writeSheet : list (list (string * string)) → bool.


(** X23. The stamp columns never show a date.  For every task whose
    creation stamp has the format of [toISOString], as [saveTask]
    writes it, the Created cell of its row is the text of an invalid
    date, whatever the zone and the locale; and so is the Completed cell
    when the completion stamp has that format, as [moveTask] and
    [onDrop] write it. *)
Theorem export_stamps_never_format (x : Task) (y mo d rest : string) :
  is_digits y = true → is_digits mo = true → is_digits d = true →
  (createdAt x = y +:+ String "-" (mo +:+ String "-" (d +:+ String "T" rest)) →
   row_get "Created" (export_row LocalTZA localeDate x) = Some "Invalid Date") ∧
  (completedAt x = Some (y +:+ String "-" (mo +:+ String "-" (d +:+ String "T" rest))) →
   row_get "Completed" (export_row LocalTZA localeDate x) = Some "Invalid Date").
Proof.
  intros Hy Hmo Hd. split; intros Hx; cbn; rewrite Hx;
    by rewrite (formatDate_timestamp LocalTZA localeDate y mo d rest Hy Hmo Hd).
Qed.

End ExportSelection.

Lemma export_stamps_never_format_witness :
  row_get "Created"
    (export_row sample_zone (fun _ => "1.11.2026")
       (new_task sample_draft "k1" "2026-11-01T10:00:00.000Z"))
  = Some "Invalid Date".
Proof.
  apply (export_stamps_never_format sample_zone (fun _ => "1.11.2026")
           (new_task sample_draft "k1" "2026-11-01T10:00:00.000Z")
           "2026" "11" "01" "10:00:00.000Z"); reflexivity.
Defined.

Lemma max_of_ge (a : nat) (l : list nat) :
  (a ≤ max_of a l)%nat ∧ ∀ n, n ∈ l → (n ≤ max_of a l)%nat.
Proof.
  induction l as [|m l [IHa IHl]]; cbn [max_of fold_right].
  - split; [lia|]. intros n Hn. by apply elem_of_nil in Hn.
  - fold (max_of a l). split; [lia|]. intros n Hn.
    apply elem_of_cons in Hn as [->|Hn]; [lia|]. specialize (IHl n Hn). lia.
Qed.

Lemma max_of_attained (a : nat) (l : list nat) : max_of a l = a ∨ max_of a l ∈ l.
Proof.
  induction l as [|m l IH]; cbn [max_of fold_right]; [by left|].
  fold (max_of a l).
  destruct (Nat.max_spec m (max_of a l)) as [[_ ->]|[_ ->]].
  - destruct IH as [->|IH]; [by left|right; by apply list_elem_of_further].
  - right. apply list_elem_of_here.
Qed.

(** X22. The widths of the columns of the sheet.  They are computed
    for every sheet that has a first row, one width per key of that row;
    each width is two more than the longest of the key and of the cells
    under that key in all rows, so that every header and every cell fits
    with two characters to spare, and the width is attained by the
    header or by one of the cells. *)
Theorem export_cols_fit (rows : list (list (string * string))) :
  (export_cols rows = None ↔ rows = []) ∧
  ∀ r0 ws, head rows = Some r0 → export_cols rows = Some ws →
    length ws = length r0 ∧
    ∀ (j : nat) (k : string) (w : nat),
      r0.*1 !! j = Some k → ws !! j = Some w →
      (String.length k + 2 ≤ w)%nat ∧
      (∀ r v, r ∈ rows → row_get k r = Some v → (String.length v + 2 ≤ w)%nat) ∧
      (w = (String.length k + 2)%nat ∨
       ∃ r v, r ∈ rows ∧ row_get k r = Some v ∧ w = (String.length v + 2)%nat).
Proof.
  split; [by destruct rows|].
  intros r0 ws Hh Hws. destruct rows as [|r0' rest]; [discriminate|].
  injection Hh as ->. cbn [export_cols] in Hws. injection Hws as <-.
  split; [by rewrite !length_fmap|].
  intros j k w Hk Hw. rewrite list_lookup_fmap, Hk in Hw.
  cbn [fmap option_fmap option_map] in Hw. injection Hw as <-.
  unfold col_width.
  set (cells := (fun r : list (string * string) =>
                   String.length (if JS.truthy (row_get k r)
                                  then default "" (row_get k r) else ""))
                <$> (r0 :: rest)).
  destruct (max_of_ge (String.length k) cells) as [Ha Hl].
  split; [lia|split].
  - intros r v Hr Hv.
    destruct (String.eqb_spec v "") as [->|Hne]; [cbn; lia|].
    assert (Hc : String.length v ∈ cells).
    { subst cells. apply list_elem_of_fmap. exists r. split; [|exact Hr].
      rewrite Hv. apply truthy_Some in Hne. by rewrite Hne. }
    specialize (Hl _ Hc). lia.
  - destruct (max_of_attained (String.length k) cells) as [->|Hin]; [by left|].
    apply list_elem_of_fmap in Hin as (r & Hlen & Hr). rewrite Hlen.
    destruct (row_get k r) as [v|] eqn:Ev.
    + right. exists r, v. split; [exact Hr|split; [exact Ev|]].
      unfold JS.truthy. destruct (String.eqb_spec v "") as [->|_]; reflexivity.
    + left. revert Ha. rewrite Hlen. cbn. lia.
Qed.

(** ** Dates *)

Lemma split_digits_end (a : string) : is_digits a = true → JS.split "-" a = [a].
Proof.
  induction a as [|c a IH]; intros Ha; [reflexivity|].
  simpl in Ha. apply andb_true_iff in Ha as [Hc Ha].
  rewrite split_String, digit_not_dash, (IH Ha); [reflexivity|].
  destruct (digit c); [by eexists|discriminate].
Qed.

Section DateFacts.
Variable LocalTZA : Z → bool → Z.
Variable localeDate : Z → string.

(** The date of a text of three runs of digits between dashes. *)
Lemma parseLocalDate_digits (y m d : string) :
  is_digits y = true → is_digits m = true → is_digits d = true →
  parseLocalDate LocalTZA (Some (y +:+ String "-" (m +:+ String "-" d)))
    = Some (JSDate.make LocalTZA (Number y) (Num.sub (Number m) (Num.of_Z 1))
              (Number d)).
Proof.
  intros Hy Hm Hd. unfold parseLocalDate.
  assert (Ht : JS.truthy (Some (y +:+ String "-" (m +:+ String "-" d))) = true).
  { apply truthy_Some. by destruct y. }
  rewrite Ht. cbn [negb from_option Datatypes.id].
  rewrite (split_digits_dash y) by exact Hy.
  rewrite (split_digits_dash m) by exact Hm.
  rewrite (split_digits_end d) by exact Hd.
  rewrite !fmap_cons. cbn [lookup list_lookup from_option Datatypes.id]. reflexivity.
Qed.

(** X24. Years below 100.  A due date whose year reads as a number from
    0 to 99, as in 0026-05-01, is taken for the year 1900 later: it
    parses to the same date as the text with that year written in four
    digits, so it is formatted and judged overdue as that date. *)
Theorem two_digit_year_is_1900s (ys ys' ms ds : string) (y : Z) (now : Z)
    (stage : string) :
  is_digits ys = true → is_digits ys' = true →
  is_digits ms = true → is_digits ds = true →
  digits_value 0 ys = Some y → 0 ≤ y ≤ 99 → digits_value 0 ys' = Some (1900 + y) →
  parseLocalDate LocalTZA (Some (ys +:+ String "-" (ms +:+ String "-" ds)))
    = parseLocalDate LocalTZA (Some (ys' +:+ String "-" (ms +:+ String "-" ds))) ∧
  formatDate LocalTZA localeDate (Some (ys +:+ String "-" (ms +:+ String "-" ds)))
    = formatDate LocalTZA localeDate (Some (ys' +:+ String "-" (ms +:+ String "-" ds))) ∧
  isOverdue LocalTZA now (ys +:+ String "-" (ms +:+ String "-" ds)) stage
    = isOverdue LocalTZA now (ys' +:+ String "-" (ms +:+ String "-" ds)) stage.
Proof.
  intros Hys Hys' Hms Hds Hy Hr Hy'.
  assert (Hp : parseLocalDate LocalTZA (Some (ys +:+ String "-" (ms +:+ String "-" ds)))
    = parseLocalDate LocalTZA (Some (ys' +:+ String "-" (ms +:+ String "-" ds)))).
  { rewrite !parseLocalDate_digits by assumption. f_equal.
    unfold JSDate.make.
    rewrite (Number_digits ys y Hys Hy), (Number_digits ys' (1900 + y) Hys' Hy').
    rewrite !small_integer by lia.
    destruct (Num.to_integer (Num.sub (Number ms) (Num.of_Z 1))) as [m|],
             (Num.to_integer (Number ds)) as [d|]; try reflexivity.
    replace ((0 <=? y) && (y <=? 99)) with true by (symmetry; apply andb_true_iff; lia).
    replace ((0 <=? 1900 + y) && (1900 + y <=? 99)) with false
      by (symmetry; apply andb_false_iff; lia).
    reflexivity. }
  assert (Ht : ∀ a : string,
             JS.truthy (Some (a +:+ String "-" (ms +:+ String "-" ds))) = true).
  { intros a. apply truthy_Some. by destruct a. }
  split; [exact Hp|split].
  - unfold formatDate. by rewrite !Ht, Hp.
  - unfold isOverdue. by rewrite !Ht, Hp.
Qed.

(** X25. Once overdue, always overdue: while the stage and the due date
    stay, a task that is overdue at one time is overdue at every later
    time, whatever the text of the due date, in every zone that keeps
    its days in order (the clock in the range of time values after the
    epoch). *)
Theorem overdue_stays_overdue (now now' : Z) (due stage : string) :
  days_in_order LocalTZA → offsets_within_a_day LocalTZA →
  0 ≤ now → now ≤ now' → now' ≤ 8640000000000000 →
  isOverdue LocalTZA now due stage = true →
  isOverdue LocalTZA now' due stage = true.
Proof.
  intros Hc Hb H0 Hle Hmax. unfold isOverdue.
  destruct (negb (JS.truthy (Some due)) || JS.seq stage "Completed"); [done|].
  destruct (parseLocalDate LocalTZA (Some due)) as [[tv|]|]; try done.
  rewrite !(setHours0_now LocalTZA) by (assumption || lia).
  cbn [JSDate.lt]. rewrite !Z.ltb_lt, !(Hc _ tv). intros Hlt.
  pose proof (day_never_goes_back LocalTZA now now' Hc Hle). lia.
Qed.

End DateFacts.

Lemma two_digit_year_is_1900s_witness :
  parseLocalDate sample_zone (Some "0026-05-01")
    = parseLocalDate sample_zone (Some "1926-05-01") ∧
  formatDate sample_zone (fun _ => "x") (Some "0026-05-01")
    = formatDate sample_zone (fun _ => "x") (Some "1926-05-01") ∧
  isOverdue sample_zone 1793527200000 "0026-05-01" "Backlog"
    = isOverdue sample_zone 1793527200000 "1926-05-01" "Backlog".
Proof.
  apply (two_digit_year_is_1900s sample_zone (fun _ => "x") "0026" "1926" "05" "01" 26
           1793527200000 "Backlog"); (reflexivity || lia).
Defined.

(** Overdue before the clocks of the sample zone move, and after they
    have moved forth and back. *)
Lemma overdue_stays_overdue_witness :
  isOverdue sample_zone 1793527200000 "2026-03-01" "Review/QA" = true.
Proof.
  apply (overdue_stays_overdue sample_zone 1774742400000 1793527200000
           "2026-03-01" "Review/QA").
  - exact sample_zone_days_in_order.
  - exact sample_zone_bounded.
  - lia.
  - lia.
  - lia.
  - vm_compute. reflexivity.
Defined.

Lemma board_columns_partition_witness :
  sum_list ((fun col => length (colTasks (tasks sample_state) "scan" col)) <$> COLUMNS)
    = length (filtered (tasks sample_state) "scan").
Proof.
  apply (board_columns_partition (tasks sample_state) "scan").
  unfold stages_valid. apply (sample_state_elem (fun x => stage x ∈ COLUMNS));
    apply (bool_decide_unpack _); vm_compute; reflexivity.
Defined.

Lemma pct_small_boards_witness :
  pct (tasks sample_state)
    = Num.of_Z (round_ratio (100 * Z.of_nat (count_completed (tasks sample_state)))
                            (Z.of_nat (length (tasks sample_state)))).
Proof.
  apply (pct_small_boards (tasks sample_state)). cbn. lia.
Defined.

Lemma with_notes_own (x : Task) : with_notes x (notes x) = x.
Proof. by destruct x. Qed.

(** X27. Opening the notes dialog on a task and saving it without typing
    changes no task: in a collection with unique identifiers and notes
    within the bound, [openNote(task)] followed by [saveNote()] leaves
    the collection as it was and closes the dialog. *)
Theorem note_untouched_keeps_collection (task : Task) (st : AppState) :
  ids_unique (tasks st) → within_bounds (tasks st) → task ∈ tasks st →
  tasks (saveNote (openNote task st)) = tasks st ∧
  activeNote (saveNote (openNote task st)) = None.
Proof.
  intros Hnd Hb Hin.
  assert (Hlen : (MAX_NOTES <? String.length (notes task))%nat = false).
  { apply Nat.ltb_ge. by destruct (Hb task Hin) as (_ & _ & H). }
  unfold saveNote, openNote. cbn [noteText setNoteText setActiveNote]. rewrite Hlen.
  split; [|reflexivity].
  cbn [tasks showToast setActiveNote setTasks setNoteText activeNote].
  apply fmap_id_on. intros x Hx. rewrite seq_opt_Some.
  destruct (String.eqb_spec (id x) (id task)) as [Heq|Hne].
  - apply seq_true in Heq as Hs. rewrite Hs.
    rewrite (unique_id_eq _ x task Hnd Hx Hin Heq). apply with_notes_own.
  - apply seq_false in Hne. by rewrite Hne.
Qed.

Lemma note_untouched_keeps_collection_witness :
  tasks (saveNote (openNote (sample_task "b2" "Review/QA" None) sample_state))
    = tasks sample_state ∧
  activeNote (saveNote (openNote (sample_task "b2" "Review/QA" None) sample_state)) = None.
Proof.
  apply (note_untouched_keeps_collection (sample_task "b2" "Review/QA" None) sample_state).
  - unfold ids_unique. apply (bool_decide_unpack _). vm_compute. reflexivity.
  - unfold within_bounds.
    apply (sample_state_elem (fun x =>
      JS.trim (title x) ≠ "" ∧
      (String.length (title x) ≤ MAX_TITLE)%nat ∧
      (String.length (notes x) ≤ MAX_NOTES)%nat));
      (split; [discriminate|split; apply (bool_decide_unpack _); vm_compute; reflexivity]).
  - unfold sample_state. cbn [tasks setLoaded setTasks].
    rewrite !elem_of_cons. right. left. reflexivity.
Defined.
